(** * api-gateway: the LLM load balancer and its streaming proxy

    A shallow embedding of [app/core/model_load_balencer.py] (the instance
    state store, the smooth weighted selector, the weight controller and the
    metrics snapshots) and of [app/api/model_base.py] (the proxy handler and
    its stream tee), followed by the theorems that relate them to the
    written specification.

    Python values are modelled as the interpreter has them: [int] is [Z],
    [float] is IEEE binary64 (Rocq's primitive floats), a [dict] is an
    association list in insertion order, an exception is a value of [exn]
    threaded through a state-and-error monad. *)

From Stdlib Require Import ZArith NArith List String Ascii Bool Lia.
From Stdlib Require Import Strings.Byte DecimalString.
From Stdlib Require Import Sorted Permutation.
From Stdlib Require Import PrimFloat FloatOps SpecFloat.
Import ListNotations.

Set Warnings "-inexact-float,-register-all".

Local Open Scope Z_scope.

(* ================================================================== *)
(** * Python numbers *)
(* ================================================================== *)

Module PyNum.

(** A Python number is an unbounded [int] or a binary64 [float].  The
    weights of the balancer start as the [int]s of the configuration and
    become [float]s at the first multiplication by [0.8] or [1.05]. *)
Inductive pynum : Type :=
  | PInt (z : Z)
  | PFloat (f : float).

(** [float(z)]: the binary64 value nearest to [z], ties to even.  CPython
    raises [OverflowError] beyond the binary64 range, where this gives an
    infinity; weights, counters and token counts stay far below it. *)
Definition float_of_Z (z : Z) : float :=
  SF2Prim (binary_normalize prec emax z 0 false).

Definition to_float (a : pynum) : float :=
  match a with
  | PInt z => float_of_Z z
  | PFloat f => f
  end.

(** Exact comparison of a float with an integer, as CPython's
    [float_richcompare] does it ([None] for a NaN). *)
Definition float_cmp_Z (f : float) (z : Z) : option comparison :=
  match Prim2SF f with
  | S754_nan => None
  | S754_infinity true => Some Lt
  | S754_infinity false => Some Gt
  | S754_zero _ => Some (0 ?= z)
  | S754_finite s m e =>
      let v := if s then Z.neg m else Z.pos m in
      if 0 <=? e then Some (v * 2 ^ e ?= z)
      else Some (v ?= z * 2 ^ (- e))
  end.

Definition py_compare (a b : pynum) : option comparison :=
  match a, b with
  | PInt x, PInt y => Some (x ?= y)
  | PFloat x, PFloat y =>
      match PrimFloat.compare x y with
      | FEq => Some Eq
      | FLt => Some Lt
      | FGt => Some Gt
      | FNotComparable => None
      end
  | PFloat x, PInt y => float_cmp_Z x y
  | PInt x, PFloat y => option_map CompOpp (float_cmp_Z y x)
  end.

(** [a < b], [a > b], [a <= b], [a >= b], [a == b]; every comparison with
    a NaN is [False]. *)
Definition py_lt (a b : pynum) : bool :=
  match py_compare a b with Some Lt => true | _ => false end.
Definition py_gt (a b : pynum) : bool := py_lt b a.
Definition py_le (a b : pynum) : bool :=
  match py_compare a b with Some Lt | Some Eq => true | _ => false end.
Definition py_ge (a b : pynum) : bool := py_le b a.
Definition py_eq (a b : pynum) : bool :=
  match py_compare a b with Some Eq => true | _ => false end.

Definition py_add (a b : pynum) : pynum :=
  match a, b with
  | PInt x, PInt y => PInt (x + y)
  | _, _ => PFloat (to_float a + to_float b)
  end.

Definition py_sub (a b : pynum) : pynum :=
  match a, b with
  | PInt x, PInt y => PInt (x - y)
  | _, _ => PFloat (to_float a - to_float b)
  end.

Definition py_mul (a b : pynum) : pynum :=
  match a, b with
  | PInt x, PInt y => PInt (x * y)
  | _, _ => PFloat (to_float a * to_float b)
  end.

Definition py_abs (a : pynum) : pynum :=
  match a with
  | PInt x => PInt (Z.abs x)
  | PFloat f => PFloat (PrimFloat.abs f)
  end.

(** The integer [z] as an unrounded mantissa with exponent [0]. *)
Definition Z2SF (z : Z) : spec_float :=
  match z with
  | Z0 => S754_zero false
  | Zpos m => S754_finite false m 0
  | Zneg m => S754_finite true m 0
  end.

(** [a / b] is always a float; [None] stands for [ZeroDivisionError].
    The quotient of two ints is rounded once, from the exact quotient. *)
Definition py_truediv (a b : pynum) : option pynum :=
  if py_eq b (PInt 0) then None
  else Some (PFloat
    match a, b with
    | PInt x, PInt y => SF2Prim (SFdiv prec emax (Z2SF x) (Z2SF y))
    | _, _ => (to_float a / to_float b)%float
    end).

(** [max(a, b)] and [min(a, b)] keep the first argument unless the second
    is strictly greater (smaller). *)
Definition py_max (a b : pynum) : pynum := if py_gt b a then b else a.
Definition py_min (a b : pynum) : pynum := if py_lt b a then b else a.

(** [sum(xs)]: left to right from the int [0]. *)
Definition py_sum (xs : list pynum) : pynum := fold_left py_add xs (PInt 0).

End PyNum.
Import PyNum.


(* ================================================================== *)
(** * Dictionaries, exceptions and the state-and-error monad *)
(* ================================================================== *)

(** A Python [dict] keeps its keys in insertion order, and the selector
    breaks ties by that order: an association list, with [d[k] = v]
    replacing in place or appending. *)
Definition pydict (V : Type) : Type := list (string * V).

Fixpoint dict_get {V : Type} (k : string) (d : pydict V) : option V :=
  match d with
  | [] => None
  | (k', v) :: d' => if String.eqb k k' then Some v else dict_get k d'
  end.

Fixpoint dict_set {V : Type} (k : string) (v : V) (d : pydict V) : pydict V :=
  match d with
  | [] => [(k, v)]
  | (k', v') :: d' =>
      if String.eqb k k' then (k, v) :: d' else (k', v') :: dict_set k v d'
  end.

Definition dict_mem {V : Type} (k : string) (d : pydict V) : bool :=
  match dict_get k d with Some _ => true | None => false end.

Definition dict_values {V : Type} (d : pydict V) : list V := map snd d.

(** The exceptions the two modules raise or let through.  The [detail] of
    an [HTTPException] is an f-string in the source; its constructors name
    the template and keep what is interpolated. *)
Inductive exn : Type :=
  | HTTPException (status_code : Z) (detail : http_detail)
  | HttpxTimeoutException   (* httpx.TimeoutException, a RequestError *)
  | HttpxRequestError       (* any other httpx.RequestError *)
  | NameError (name : string)
  | KeyError
  | TypeError
  | AttributeError
  | ValueError
  | ZeroDivisionError
  | JSONDecodeError
  | UnicodeDecodeError
  | OverflowError
  | OtherException (what : string)
with http_detail : Type :=
  | ModelNotConfigured (model_name : string)  (* 模型 '..' 未配置 *)
  | NoHealthyNode (model_name : string)       (* 模型 '..' 没有可用的健康节点 *)
  | ServiceUnavailable (e : exn)              (* 服务不可用: {str(e)} *)
  | StreamStatusError (status : Z) (text : string) (* Error: {status} - {text} *)
  | ModelServiceError (e : exn)               (* 模型服务错误: {str(e)} *)
  | InternalServerError (e : exn)             (* 内部服务器错误: {str(e)} *)
  | ModelRequestTimeout.                      (* 模型请求超时 *)

Inductive result (A : Type) : Type :=
  | Ok (a : A)
  | Raise (e : exn).
Arguments Ok {A} a.
Arguments Raise {A} e.

(** A computation over a mutable state [St]: the state reached when an
    exception is raised is kept, as the mutations made before a Python
    [raise] are. *)
Definition M (St A : Type) : Type := St -> result A * St.

Definition ret {St A : Type} (a : A) : M St A := fun s => (Ok a, s).
Definition raise {St A : Type} (e : exn) : M St A := fun s => (Raise e, s).
Definition bind {St A B : Type} (m : M St A) (k : A -> M St B) : M St B :=
  fun s => match m s with
           | (Ok a, s') => k a s'
           | (Raise e, s') => (Raise e, s')
           end.
Definition get {St : Type} : M St St := fun s => (Ok s, s).
Definition put {St : Type} (s : St) : M St unit := fun _ => (Ok tt, s).

Declare Scope py_scope.
Delimit Scope py_scope with py.
Notation "x <- m ;; k" := (bind m (fun x => k))
  (at level 100, m at next level, right associativity) : py_scope.
Notation "m ;;; k" := (bind m (fun _ => k))
  (at level 100, right associativity) : py_scope.
Local Open Scope py_scope.

(** [for x in xs: acc = body(acc, x)], leaving the loop at the first raise. *)
Fixpoint for_each {St A B : Type} (xs : list A) (acc : B)
    (body : B -> A -> M St B) : M St B :=
  match xs with
  | [] => ret acc
  | x :: xs' => acc' <- body acc x ;; for_each xs' acc' body
  end.

(** [d[k]], raising [KeyError]. *)
Definition subscript {St V : Type} (d : pydict V) (k : string) : M St V :=
  match dict_get k d with
  | Some v => ret v
  | None => raise KeyError
  end.

(* ================================================================== *)
(** * Decoded JSON values *)
(* ================================================================== *)

(** A Python [str] is a sequence of code points. *)
Definition pystr : Type := list N.

(** What [json.loads] returns: [None], [bool], a number, [str], [list] or
    [dict] (keys in document order). *)
Inductive pyval : Type :=
  | VNone
  | VBool (b : bool)
  | VNum (n : pynum)
  | VStr (s : pystr)
  | VList (l : list pyval)
  | VDict (d : list (pystr * pyval)).

(** The number a value stands for in arithmetic ([bool] is an [int]). *)
Definition as_number (v : pyval) : option pynum :=
  match v with
  | VNum n => Some n
  | VBool b => Some (PInt (if b then 1 else 0))
  | _ => None
  end.

(** [n + v] for a number [n]; anything but a number raises [TypeError]. *)
Definition num_plus {St : Type} (n : pynum) (v : pyval) : M St pynum :=
  match as_number v with
  | Some k => ret (py_add n k)
  | None => raise TypeError
  end.

(* ================================================================== *)
(** * The instance state store ([ModelLoadBalancer]) *)
(* ================================================================== *)

Module Balancer.

(** The value of ['状态']: ['健康'] or ['警告']. *)
Inductive node_status : Type := Healthy | Warning.

(** The value of ['负载均衡情况']: ['均衡'] or ['不均衡']. *)
Inductive lb_label : Type := Balanced | Unbalanced.

Definition is_healthy (s : node_status) : bool :=
  match s with Healthy => true | Warning => false end.

(** An entry of [service_weights[model]]. *)
Record weights : Type := mkWeights {
  current_weight : pynum;
  effective_weight : pynum;
  history_failures : Z
}.

(** An entry of [service_metrics[model]]. *)
Record metrics : Type := mkMetrics {
  node_name : string;            (* '节点名称' *)
  ip_address : option string;    (* 'IP地址' *)
  status : node_status;          (* '状态' *)
  lb_state : lb_label;           (* '负载均衡情况' *)
  load_rate : pynum;             (* '负载率' *)
  token_total : pynum;           (* 'Token数量' *)
  inference_time : pynum;        (* '推理时间' *)
  weight : pynum;                (* '权重' *)
  node_id : string;
  active_requests : Z;
  request_count : Z;
  error_count : Z;
  last_update : float;
  load_threshold : pynum;
  load_history : list (float * Z)
}.

Record balancer : Type := mkBalancer {
  service_weights : pydict (pydict weights);
  service_metrics : pydict (pydict metrics);
  node_counter : Z
}.

(** An instance of [MODEL_INSTANCES[model]], with [instance["ip"]] already
    split by [urlparse]: [cfg_hostname] is [parsed.hostname] and
    [cfg_instance_id] is the f-string [hostname:port].  The reads
    themselves, which raise on a missing key or a bad port, are in
    [Startup]. *)
Record instance_cfg : Type := mkInstance {
  cfg_name : string;
  cfg_hostname : option string;
  cfg_instance_id : string;
  cfg_initial_weight : option pynum;
  cfg_load_threshold : option pynum
}.

Definition model_instances : Type := pydict (list instance_cfg).

(** ** [initialize] *)

Definition initial_weights (i : instance_cfg) : weights :=
  let initial_weight :=
    match cfg_initial_weight i with Some w => w | None => PInt 20 end in
  {| current_weight := initial_weight;
     effective_weight := initial_weight;
     history_failures := 0 |}.

Definition initial_metrics (now : float) (i : instance_cfg) : metrics :=
  let initial_weight :=
    match cfg_initial_weight i with Some w => w | None => PInt 20 end in
  {| node_name := cfg_name i;
     ip_address := cfg_hostname i;
     status := Healthy;
     lb_state := Balanced;
     load_rate := PFloat 0;
     token_total := PInt 0;
     inference_time := PInt 0;
     weight := initial_weight;
     node_id := cfg_instance_id i;
     active_requests := 0;
     request_count := 0;
     error_count := 0;
     last_update := now;
     load_threshold :=
       match cfg_load_threshold i with Some t => t | None => PInt 100 end;
     load_history := [] |}.

(** The inner loop over the instances of one model; [k] counts the calls
    of [time.time()] made so far and [clock k] is the [k]-th reading. *)
Fixpoint init_instances (clock : nat -> float) (k : nat)
    (instances : list instance_cfg)
    (wd : pydict weights) (md : pydict metrics)
  : pydict weights * pydict metrics * nat :=
  match instances with
  | [] => (wd, md, k)
  | i :: rest =>
      init_instances clock (S k) rest
        (dict_set (cfg_name i) (initial_weights i) wd)
        (dict_set (cfg_name i) (initial_metrics (clock k) i) md)
  end.

Fixpoint init_models (clock : nat -> float) (k : nat) (cfg : model_instances)
    (lb : balancer) : balancer :=
  match cfg with
  | [] => lb
  | (model_name, instances) :: rest =>
      let '(wd, md, k') := init_instances clock k instances [] [] in
      init_models clock k' rest
        {| service_weights := dict_set model_name wd (service_weights lb);
           service_metrics := dict_set model_name md (service_metrics lb);
           node_counter := node_counter lb |}
  end.

Definition initialize (clock : nat -> float) (cfg : model_instances)
  : balancer :=
  init_models clock 0 cfg
    {| service_weights := []; service_metrics := []; node_counter := 1 |}.

(** ** Writing into the two nested dictionaries *)

Definition set_weights (model_name node : string) (w : weights)
    (lb : balancer) : balancer :=
  match dict_get model_name (service_weights lb) with
  | Some wd =>
      {| service_weights :=
           dict_set model_name (dict_set node w wd) (service_weights lb);
         service_metrics := service_metrics lb;
         node_counter := node_counter lb |}
  | None => lb
  end.

Definition set_metrics (model_name node : string) (m : metrics)
    (lb : balancer) : balancer :=
  match dict_get model_name (service_metrics lb) with
  | Some md =>
      {| service_weights := service_weights lb;
         service_metrics :=
           dict_set model_name (dict_set node m md) (service_metrics lb);
         node_counter := node_counter lb |}
  | None => lb
  end.

Definition get_weights (model_name node : string) : M balancer weights :=
  lb <- get ;;
  wd <- subscript (service_weights lb) model_name ;;
  subscript wd node.

Definition get_metrics (model_name node : string) : M balancer metrics :=
  lb <- get ;;
  md <- subscript (service_metrics lb) model_name ;;
  subscript md node.

Definition update_weights (model_name node : string)
    (f : weights -> weights) : M balancer unit :=
  w <- get_weights model_name node ;;
  lb <- get ;;
  put (set_weights model_name node (f w) lb).

Definition update_metrics (model_name node : string)
    (f : metrics -> metrics) : M balancer unit :=
  m <- get_metrics model_name node ;;
  lb <- get ;;
  put (set_metrics model_name node (f m) lb).

Definition with_current_weight (cw : pynum) (w : weights) : weights :=
  {| current_weight := cw;
     effective_weight := effective_weight w;
     history_failures := history_failures w |}.

(** Assignment to one key of a metrics entry. *)
Definition with_status (x : node_status) (m : metrics) : metrics :=
  {| node_name := node_name m; ip_address := ip_address m; status := x;
     lb_state := lb_state m; load_rate := load_rate m;
     token_total := token_total m; inference_time := inference_time m;
     weight := weight m; node_id := node_id m;
     active_requests := active_requests m;
     request_count := request_count m; error_count := error_count m;
     last_update := last_update m; load_threshold := load_threshold m;
     load_history := load_history m |}.

Definition with_lb_state (x : lb_label) (m : metrics) : metrics :=
  {| node_name := node_name m; ip_address := ip_address m;
     status := status m; lb_state := x; load_rate := load_rate m;
     token_total := token_total m; inference_time := inference_time m;
     weight := weight m; node_id := node_id m;
     active_requests := active_requests m;
     request_count := request_count m; error_count := error_count m;
     last_update := last_update m; load_threshold := load_threshold m;
     load_history := load_history m |}.

Definition with_load_rate (x : pynum) (m : metrics) : metrics :=
  {| node_name := node_name m; ip_address := ip_address m;
     status := status m; lb_state := lb_state m; load_rate := x;
     token_total := token_total m; inference_time := inference_time m;
     weight := weight m; node_id := node_id m;
     active_requests := active_requests m;
     request_count := request_count m; error_count := error_count m;
     last_update := last_update m; load_threshold := load_threshold m;
     load_history := load_history m |}.

Definition with_token_total (x : pynum) (m : metrics) : metrics :=
  {| node_name := node_name m; ip_address := ip_address m;
     status := status m; lb_state := lb_state m; load_rate := load_rate m;
     token_total := x; inference_time := inference_time m;
     weight := weight m; node_id := node_id m;
     active_requests := active_requests m;
     request_count := request_count m; error_count := error_count m;
     last_update := last_update m; load_threshold := load_threshold m;
     load_history := load_history m |}.

Definition with_inference_time (x : pynum) (m : metrics) : metrics :=
  {| node_name := node_name m; ip_address := ip_address m;
     status := status m; lb_state := lb_state m; load_rate := load_rate m;
     token_total := token_total m; inference_time := x; weight := weight m;
     node_id := node_id m; active_requests := active_requests m;
     request_count := request_count m; error_count := error_count m;
     last_update := last_update m; load_threshold := load_threshold m;
     load_history := load_history m |}.

Definition with_weight (x : pynum) (m : metrics) : metrics :=
  {| node_name := node_name m; ip_address := ip_address m;
     status := status m; lb_state := lb_state m; load_rate := load_rate m;
     token_total := token_total m; inference_time := inference_time m;
     weight := x; node_id := node_id m;
     active_requests := active_requests m;
     request_count := request_count m; error_count := error_count m;
     last_update := last_update m; load_threshold := load_threshold m;
     load_history := load_history m |}.

Definition with_active_requests (x : Z) (m : metrics) : metrics :=
  {| node_name := node_name m; ip_address := ip_address m;
     status := status m; lb_state := lb_state m; load_rate := load_rate m;
     token_total := token_total m; inference_time := inference_time m;
     weight := weight m; node_id := node_id m; active_requests := x;
     request_count := request_count m; error_count := error_count m;
     last_update := last_update m; load_threshold := load_threshold m;
     load_history := load_history m |}.

Definition with_request_count (x : Z) (m : metrics) : metrics :=
  {| node_name := node_name m; ip_address := ip_address m;
     status := status m; lb_state := lb_state m; load_rate := load_rate m;
     token_total := token_total m; inference_time := inference_time m;
     weight := weight m; node_id := node_id m;
     active_requests := active_requests m; request_count := x;
     error_count := error_count m; last_update := last_update m;
     load_threshold := load_threshold m; load_history := load_history m |}.

Definition with_error_count (x : Z) (m : metrics) : metrics :=
  {| node_name := node_name m; ip_address := ip_address m;
     status := status m; lb_state := lb_state m; load_rate := load_rate m;
     token_total := token_total m; inference_time := inference_time m;
     weight := weight m; node_id := node_id m;
     active_requests := active_requests m;
     request_count := request_count m; error_count := x;
     last_update := last_update m; load_threshold := load_threshold m;
     load_history := load_history m |}.

Definition with_last_update (x : float) (m : metrics) : metrics :=
  {| node_name := node_name m; ip_address := ip_address m;
     status := status m; lb_state := lb_state m; load_rate := load_rate m;
     token_total := token_total m; inference_time := inference_time m;
     weight := weight m; node_id := node_id m;
     active_requests := active_requests m;
     request_count := request_count m; error_count := error_count m;
     last_update := x; load_threshold := load_threshold m;
     load_history := load_history m |}.

Definition with_load_history (x : list (float * Z)) (m : metrics) : metrics :=
  {| node_name := node_name m; ip_address := ip_address m;
     status := status m; lb_state := lb_state m; load_rate := load_rate m;
     token_total := token_total m; inference_time := inference_time m;
     weight := weight m; node_id := node_id m;
     active_requests := active_requests m;
     request_count := request_count m; error_count := error_count m;
     last_update := last_update m; load_threshold := load_threshold m;
     load_history := x |}.

(** ** [get_next_instance] *)

(** The loop variables [total], [best], [get_node_id], [best_weight]. *)
Record selection : Type := mkSelection {
  total : pynum;
  best : option string;
  get_node_id : string;
  best_weight : pynum
}.

Definition selection_start : selection :=
  {| total := PInt 0; best := None; get_node_id := EmptyString;
     best_weight := PInt 0 |}.

(** The body of [for node_id, metrics in metrics_dict.items()]. *)
Definition select_body (model_name : string) (sel : selection)
    (item : string * metrics) : M balancer selection :=
  let '(node, m) := item in
  if negb (is_healthy (status m)) then ret sel
  else
    w <- get_weights model_name node ;;
    let cw := py_add (current_weight w) (effective_weight w) in
    update_weights model_name node (with_current_weight cw) ;;;
    let total' := py_add (total sel) cw in
    if py_gt cw (best_weight sel)
    then ret {| total := total'; best := Some (node_id m);
                get_node_id := node; best_weight := cw |}
    else ret {| total := total'; best := best sel;
                get_node_id := get_node_id sel;
                best_weight := best_weight sel |}.

(** Returns the pair [(get_node_id, best)]: the instance name and the
    [host:port] identifier of its metrics entry. *)
Definition get_next_instance (model_name : string)
  : M balancer (string * string) :=
  lb <- get ;;
  match dict_get model_name (service_metrics lb) with
  | None => raise (HTTPException 404 (ModelNotConfigured model_name))
  | Some metrics_dict =>
      _ <- subscript (service_weights lb) model_name ;;
      sel <- for_each metrics_dict selection_start (select_body model_name) ;;
      match best sel with
      | None => raise (HTTPException 503 (NoHealthyNode model_name))
      | Some b =>
          update_weights model_name (get_node_id sel)
            (fun w => with_current_weight
                        (py_sub (current_weight w) (total sel)) w) ;;;
          update_metrics model_name (get_node_id sel)
            (fun m => with_active_requests (active_requests m + 1) m) ;;;
          ret (get_node_id sel, b)
      end
  end.

(** ** [update_instance_metrics] *)

(** [sorted(history, key=lambda x: x[0])]: a stable sort that compares
    keys with [<] only. *)
Fixpoint insert_by_time (x : float * Z) (l : list (float * Z))
  : list (float * Z) :=
  match l with
  | [] => [x]
  | y :: l' =>
      if PrimFloat.ltb (fst y) (fst x) then y :: insert_by_time x l'
      else x :: l
  end.

Definition sorted_by_time (l : list (float * Z)) : list (float * Z) :=
  fold_right insert_by_time [] l.

(** [for i in range(1, len(sorted_history))]: the integral of the load
    over each pair of neighbouring samples. *)
Fixpoint integrate_pairs (h : list (float * Z)) (total_load : pynum)
  : pynum :=
  match h with
  | (t1, load1) :: (((t2, _) :: _) as rest) =>
      let duration := (t2 - t1)%float in
      integrate_pairs rest
        (py_add total_load (py_mul (PInt load1) (PFloat duration)))
  | _ => total_load
  end.

(** The statements of the body that touch only the two entries of the
    instance, as a computation over that pair of dictionaries. *)
Definition node_state : Type := (metrics * weights)%type.

Definition set_m (f : metrics -> metrics) : M node_state unit :=
  fun s => (Ok tt, (f (fst s), snd s)).
Definition set_w (f : weights -> weights) : M node_state unit :=
  fun s => (Ok tt, (fst s, f (snd s))).
Definition the_m : M node_state metrics := fun s => (Ok (fst s), s).
Definition the_w : M node_state weights := fun s => (Ok (snd s), s).

Definition with_effective_weight (x : pynum) (w : weights) : weights :=
  {| current_weight := current_weight w;
     effective_weight := x;
     history_failures := history_failures w |}.

Definition with_history_failures (x : Z) (w : weights) : weights :=
  {| current_weight := current_weight w;
     effective_weight := effective_weight w;
     history_failures := x |}.

(** [a / b] in the monad. *)
Definition truediv {St : Type} (a b : pynum) : M St pynum :=
  match py_truediv a b with
  | Some q => ret q
  | None => raise ZeroDivisionError
  end.

(** The average load over the window and the load rate. *)
Definition update_load_rate (current_time : float) (min_time : pynum)
  : M node_state unit :=
  m <- the_m ;;
  match load_history m with
  | [] => set_m (with_load_rate (PFloat 0))
  | _ :: _ =>
      let sorted_history := sorted_by_time (load_history m) in
      let total_load := integrate_pairs sorted_history (PInt 0) in
      let '(last_time, last_load) :=
        last sorted_history (current_time, 0) in
      let duration := (current_time - last_time)%float in
      let total_load :=
        py_add total_load (py_mul (PInt last_load) (PFloat duration)) in
      let total_duration := py_sub (PFloat current_time) min_time in
      avg_load <- (if py_gt total_duration (PInt 0)
                   then truediv total_load total_duration
                   else ret (PInt 0)) ;;
      let max_capacity := load_threshold m in
      rate <- truediv avg_load max_capacity ;;
      set_m (with_load_rate (py_min (PFloat 1) rate))
  end.

(** The adaptive weight: demotion on an error, recovery on a success. *)
Definition update_weight (is_error : bool) : M node_state unit :=
  (if is_error then
     set_m (fun m => with_error_count (error_count m + 1) m) ;;;
     set_w (fun w => with_effective_weight
              (py_max (PInt 5) (py_mul (effective_weight w) (PFloat 0.8)))
              w) ;;;
     set_w (fun w => with_history_failures (history_failures w + 1) w) ;;;
     w <- the_w ;;
     if 3 <? history_failures w then set_m (with_status Warning)
     else ret tt
   else
     set_w (with_history_failures 0) ;;;
     set_w (fun w => with_effective_weight
              (py_min (PInt 100) (py_mul (effective_weight w) (PFloat 1.05)))
              w)) ;;;
  w <- the_w ;;
  set_m (with_weight (effective_weight w)).

(** From [pre_update_active_requests] down to [metrics['权重']]. *)
Definition update_node (response_time : pynum) (is_error : bool)
    (token_count : pyval) (current_time : float) : M node_state unit :=
  m0 <- the_m ;;
  let pre_update_active_requests := active_requests m0 in
  set_m (with_inference_time response_time) ;;;
  set_m (fun m => with_request_count (request_count m + 1) m) ;;;
  tokens <- num_plus (token_total m0) token_count ;;
  set_m (with_token_total tokens) ;;;
  set_m (fun m => with_active_requests
                    (Z.max 0 (active_requests m - 1)) m) ;;;
  set_m (fun m => with_load_history
                    (load_history m
                       ++ [(current_time, pre_update_active_requests)]) m) ;;;
  let min_time := py_sub (PFloat current_time) (PInt 30) in
  set_m (fun m => with_load_history
                    (filter (fun e => py_ge (PFloat (fst e)) min_time)
                       (load_history m)) m) ;;;
  update_load_rate current_time min_time ;;;
  set_m (with_last_update current_time) ;;;
  update_weight is_error.

(** The last block: the balance label of the instance, from the weights
    of the healthy instances of the model. *)
Definition balance_label (metrics_dict : pydict metrics) (m : metrics)
  : M balancer lb_label :=
  let weights :=
    map weight (filter (fun x => is_healthy (status x))
                  (dict_values metrics_dict)) in
  match weights with
  | [] => ret Unbalanced
  | _ :: _ =>
      avg_weight <- truediv (py_sum weights)
                      (PInt (Z.of_nat (List.length weights))) ;;
      deviation <- truediv (py_abs (py_sub (weight m) avg_weight))
                     avg_weight ;;
      ret (if py_lt deviation (PFloat 0.2) then Balanced else Unbalanced)
  end.

(** [current_time] is the reading of [time.time()]. *)
Definition update_instance_metrics (model_name node : string)
    (response_time : pynum) (is_error : bool) (token_count : pyval)
    (current_time : float) : M balancer unit :=
  lb <- get ;;
  match dict_get model_name (service_metrics lb) with
  | None => ret tt
  | Some metrics_dict =>
      match dict_get node metrics_dict with
      | None => ret tt
      | Some m =>
          weights_dict <- subscript (service_weights lb) model_name ;;
          w <- subscript weights_dict node ;;
          let '(r, (m', w')) :=
            update_node response_time is_error token_count current_time
              (m, w) in
          put (set_weights model_name node w'
                 (set_metrics model_name node m' lb)) ;;;
          match r with
          | Raise e => raise e
          | Ok _ =>
              lb' <- get ;;
              metrics_dict' <- subscript (service_metrics lb') model_name ;;
              label <- balance_label metrics_dict' m' ;;
              update_metrics model_name node (with_lb_state label)
          end
      end
  end.

(** ** The metrics snapshots *)

(** The library functions the snapshots call, and the generator behind
    the [random] module with its state made explicit. *)
Record runtime : Type := mkRuntime {
  np_mean : list pynum -> float;            (* numpy.mean *)
  np_std : list pynum -> float;             (* numpy.std *)
  py_round : pynum -> Z -> pynum;           (* round(x, ndigits) *)
  strftime_local : float -> string;
      (* time.strftime("%Y-%m-%d %H:%M:%S", time.localtime(t)) *)
  rng : Type;
  random_uniform : pynum -> pynum -> rng -> float * rng;
  random_randint : Z -> Z -> rng -> Z * rng
}.

(** An entry of the list [get_service_metrics] returns for a model. *)
Record node_view : Type := mkNodeView {
  v_node_name : string;
  v_ip_address : option string;
  v_status : node_status;
  v_lb_state : lb_label;
  v_load_rate : pynum;
  v_token_total : pynum;
  v_inference_time : pynum;
  v_weight : pynum
}.

(** [sorted(metrics_dict.values(), key=lambda x: x['节点名称'])]. *)
Fixpoint insert_by_name (x : metrics) (l : list metrics) : list metrics :=
  match l with
  | [] => [x]
  | y :: l' =>
      if String.ltb (node_name y) (node_name x)
      then y :: insert_by_name x l'
      else x :: l
  end.

Definition sorted_by_name (l : list metrics) : list metrics :=
  fold_right insert_by_name [] l.

Definition view_of (node : metrics) : node_view :=
  {| v_node_name := node_name node;
     v_ip_address := ip_address node;
     v_status := status node;
     v_lb_state := lb_state node;
     v_load_rate := load_rate node;
     v_token_total := token_total node;
     v_inference_time := inference_time node;
     v_weight := weight node |}.

Definition get_service_metrics (lb : balancer) : pydict (list node_view) :=
  fold_left
    (fun result '(model_name, metrics_dict) =>
       dict_set model_name
         (map view_of (sorted_by_name (dict_values metrics_dict))) result)
    (service_metrics lb) [].

(** The value [get_global_metrics] returns for a model. *)
Record global_view : Type := mkGlobalView {
  g_nodes : pynum;           (* "服务节点数" *)
  g_healthy : pynum;         (* "健康节点" *)
  g_lb_degree : pynum;       (* "负载均衡度" *)
  g_token_total : pynum;     (* "总Token数量" *)
  g_avg_inference : pynum;   (* "平均推理时间" *)
  g_avg_load : pynum;        (* "平均负载率" *)
  g_active : pynum;          (* "活跃服务数" *)
  g_throughput : pynum;      (* "系统吞吐量" *)
  g_updated : string         (* "更新时间" *)
}.

Section Snapshots.

Variable rt : runtime.

Definition len {A : Type} (l : list A) : Z := Z.of_nat (List.length l).

(** The aggregates of one model, before rounding. *)
Definition lb_degree_of (healthy_nodes : list metrics) : pynum :=
  match healthy_nodes with
  | [] => PFloat 0
  | _ :: _ =>
      let weights := map weight healthy_nodes in
      let avg_weight := np_mean rt weights in
      let std_dev := np_std rt weights in
      py_max (PInt 0)
        (py_min (PInt 1) (PFloat (1 - std_dev / avg_weight)%float))
  end.

Definition total_requests_of (current_time : float)
    (metrics_dict : pydict metrics) : Z :=
  let min_time := py_sub (PFloat current_time) (PInt 10) in
  fold_left
    (fun total_requests m =>
       if py_ge (PFloat (last_update m)) min_time
       then total_requests + request_count m
       else total_requests)
    (dict_values metrics_dict) 0.

Definition throughput_of (total_requests : Z) : pynum :=
  if 0 <? total_requests
  then match py_truediv (PInt total_requests) (PInt 10) with
       | Some q => q
       | None => PInt 0
       end
  else PInt 0.

Definition mean_or_zero (metrics_dict : pydict metrics)
    (field : metrics -> pynum) : pynum :=
  match metrics_dict with
  | [] => PInt 0
  | _ :: _ => PFloat (np_mean rt (map field (dict_values metrics_dict)))
  end.

Definition global_of (current_time : float) (metrics_dict : pydict metrics)
  : global_view :=
  let healthy_nodes :=
    filter (fun m => is_healthy (status m)) (dict_values metrics_dict) in
  let warning_nodes :=
    filter (fun m => negb (is_healthy (status m)))
      (dict_values metrics_dict) in
  let lb_degree := lb_degree_of healthy_nodes in
  let throughput :=
    throughput_of (total_requests_of current_time metrics_dict) in
  let avg_load := mean_or_zero metrics_dict load_rate in
  let avg_inference := mean_or_zero metrics_dict inference_time in
  let total_tokens := py_sum (map token_total (dict_values metrics_dict)) in
  {| g_nodes := PInt (len metrics_dict);
     g_healthy := PInt (len healthy_nodes);
     g_lb_degree := py_round rt (py_mul lb_degree (PInt 100)) 1;
     g_token_total := total_tokens;
     g_avg_inference := py_round rt avg_inference 1;
     g_avg_load := py_round rt (py_mul avg_load (PInt 100)) 1;
     g_active := PInt (len metrics_dict - len warning_nodes);
     g_throughput := py_round rt throughput 1;
     g_updated := strftime_local rt current_time |}.

(** [current_time] is the reading of [time.time()] at the top. *)
Definition get_global_metrics (current_time : float) (lb : balancer)
  : pydict global_view :=
  fold_left
    (fun result '(model_name, metrics_dict) =>
       dict_set model_name (global_of current_time metrics_dict) result)
    (service_metrics lb) [].

(** [random_if_zero(val, rfunc)], one definition per generator passed. *)
Definition random_if_zero (val : pynum) (rfunc : M (rng rt) pynum)
  : M (rng rt) pynum :=
  if py_eq val (PInt 0) then rfunc else ret val.

Definition rounded_uniform (a b : pynum) (ndigits : Z) : M (rng rt) pynum :=
  fun g => let '(x, g') := random_uniform rt a b g in
           (Ok (py_round rt (PFloat x) ndigits), g').

Definition randint (a b : Z) : M (rng rt) pynum :=
  fun g => let '(x, g') := random_randint rt a b g in (Ok (PInt x), g').

Definition random_view (node : metrics) : M (rng rt) node_view :=
  r <- random_if_zero (load_rate node)
         (rounded_uniform (PFloat 0.1) (PFloat 0.8) 2) ;;
  t <- random_if_zero (token_total node) (randint 100 10000) ;;
  i <- random_if_zero (inference_time node)
         (rounded_uniform (PInt 10) (PInt 100) 1) ;;
  w <- random_if_zero (weight node)
         (rounded_uniform (PInt 10) (PInt 40) 1) ;;
  ret {| v_node_name := node_name node;
         v_ip_address := ip_address node;
         v_status := status node;
         v_lb_state := lb_state node;
         v_load_rate := r;
         v_token_total := t;
         v_inference_time := i;
         v_weight := w |}.

Definition random_global (g : global_view) : M (rng rt) global_view :=
  n <- random_if_zero (g_nodes g) (randint 1 4) ;;
  h <- random_if_zero (g_healthy g) (randint 1 4) ;;
  d <- random_if_zero (g_lb_degree g)
         (rounded_uniform (PInt 80) (PInt 100) 1) ;;
  t <- random_if_zero (g_token_total g) (randint 1000 10000) ;;
  i <- random_if_zero (g_avg_inference g)
         (rounded_uniform (PInt 10) (PInt 100) 1) ;;
  l <- random_if_zero (g_avg_load g)
         (rounded_uniform (PInt 10) (PInt 80) 1) ;;
  a <- random_if_zero (g_active g) (randint 1 4) ;;
  q <- random_if_zero (g_throughput g)
         (rounded_uniform (PInt 10) (PInt 100) 1) ;;
  ret {| g_nodes := n; g_healthy := h; g_lb_degree := d;
         g_token_total := t; g_avg_inference := i; g_avg_load := l;
         g_active := a; g_throughput := q; g_updated := g_updated g |}.

(** The value of [get_combined_metrics]: ["global_metrics"] and
    ["node_metrics"]. *)
Record combined : Type := mkCombined {
  global_metrics : pydict global_view;
  node_metrics : pydict (list node_view)
}.

Definition get_combined_metrics (current_time : float) (lb : balancer)
  : M (rng rt) combined :=
  for_each (service_metrics lb)
    {| global_metrics := []; node_metrics := [] |}
    (fun result '(model_name, metrics_dict) =>
       let sorted_nodes := sorted_by_name (dict_values metrics_dict) in
       views <- for_each sorted_nodes []
                  (fun acc node => v <- random_view node ;; ret (acc ++ [v])) ;;
       g <- random_global (global_of current_time metrics_dict) ;;
       ret {| global_metrics := dict_set model_name g (global_metrics result);
              node_metrics := dict_set model_name views (node_metrics result)
           |}).

End Snapshots.

End Balancer.

(* ================================================================== *)
(** * Python text: [bytes], [str] and the operations the proxy uses *)
(* ================================================================== *)

Module PyText.

Definition bytes : Type := list byte.

(** The literals [b'...'] and ['...'] (ASCII). *)
Definition b (s : string) : bytes := list_byte_of_string s.
Definition u (s : string) : pystr := map Byte.to_N (list_byte_of_string s).

Fixpoint is_prefix {A : Type} (eqb : A -> A -> bool) (p s : list A) : bool :=
  match p, s with
  | [], _ => true
  | _ :: _, [] => false
  | x :: p', y :: s' => eqb x y && is_prefix eqb p' s'
  end.

Fixpoint is_infix {A : Type} (eqb : A -> A -> bool) (p s : list A) : bool :=
  is_prefix eqb p s
  || match s with
     | [] => false
     | _ :: s' => is_infix eqb p s'
     end.

Fixpoint list_eqb {A : Type} (eqb : A -> A -> bool) (x y : list A) : bool :=
  match x, y with
  | [], [] => true
  | a :: x', c :: y' => eqb a c && list_eqb eqb x' y'
  | _, _ => false
  end.

Definition str_eqb : pystr -> pystr -> bool := list_eqb N.eqb.

(** [sub in s] for bytes, and [s.find(sub, start)] with its [-1]. *)
Definition bytes_in (sub s : bytes) : bool := is_infix Byte.eqb sub s.

Fixpoint find_from (sub s : bytes) (pos : Z) : Z :=
  if is_prefix Byte.eqb sub s then pos
  else match s with
       | [] => -1
       | _ :: s' => find_from sub s' (pos + 1)
       end.

Definition blen (s : bytes) : Z := Z.of_nat (List.length s).

(** A slice bound as Python normalises it. *)
Definition slice_index (n i : Z) : Z :=
  if i <? 0 then Z.max 0 (i + n) else Z.min i n.

Definition bytes_find (sub s : bytes) (start : Z) : Z :=
  let a := slice_index (blen s) start in
  if blen s <? start then -1
  else find_from sub (skipn (Z.to_nat a) s) a.

(** [s[start:stop]]. *)
Definition bytes_slice (s : bytes) (start stop : Z) : bytes :=
  let a := slice_index (blen s) start in
  let z := slice_index (blen s) stop in
  firstn (Z.to_nat (z - a)) (skipn (Z.to_nat a) s).

(** [bytes.strip()]: the ASCII whitespace. *)
Definition is_bspace (c : byte) : bool :=
  let n := Byte.to_N c in
  ((9 <=? n) && (n <=? 13) || (n =? 32))%N.

Fixpoint lstrip_by {A : Type} (sp : A -> bool) (s : list A) : list A :=
  match s with
  | [] => []
  | c :: s' => if sp c then lstrip_by sp s' else s
  end.

Definition strip_by {A : Type} (sp : A -> bool) (s : list A) : list A :=
  rev (lstrip_by sp (rev (lstrip_by sp s))).

Definition bytes_strip : bytes -> bytes := strip_by is_bspace.

(** [int(s)] on stripped bytes: an optional sign, then decimal digits
    with single underscores between them; [None] is [ValueError], which
    is also what more than [sys.int_max_str_digits] digits give. *)
Fixpoint digits_value (acc : Z) (after_digit : bool) (s : bytes)
  : option Z :=
  match s with
  | [] => if after_digit then Some acc else None
  | c :: s' =>
      let n := Z.of_N (Byte.to_N c) in
      if (48 <=? n) && (n <=? 57)
      then digits_value (acc * 10 + (n - 48)) true s'
      else if (n =? 95) && after_digit then digits_value acc false s'
      else None
  end.

Definition int_max_str_digits : Z := 4300.

Definition is_decimal (c : byte) : bool :=
  let n := Z.of_N (Byte.to_N c) in (48 <=? n) && (n <=? 57).

Definition digit_count (s : bytes) : Z :=
  Z.of_nat (List.length (filter is_decimal s)).

Definition int_of_bytes (s : bytes) : option Z :=
  if int_max_str_digits <? digit_count s then None
  else
    match s with
    | c :: s' =>
        if Byte.eqb c Byte.x2d
        then option_map Z.opp (digits_value 0 false s')
        else if Byte.eqb c Byte.x2b then digits_value 0 false s'
        else digits_value 0 false s
    | [] => None
    end.

(** [str.strip()]: the characters for which [str.isspace()] holds. *)
Definition is_space (c : N) : bool :=
  ((9 <=? c) && (c <=? 13) || (28 <=? c) && (c <=? 32)
   || (c =? 133) || (c =? 160) || (c =? 5760)
   || (8192 <=? c) && (c <=? 8202)
   || (c =? 8232) || (c =? 8233) || (c =? 8239) || (c =? 8287)
   || (c =? 12288))%N.

Definition str_strip : pystr -> pystr := strip_by is_space.

(** [chunk.decode('utf-8')], strict: well-formed sequences only, neither
    overlong forms nor surrogates. *)
Definition continuation (c : byte) : option N :=
  let n := Byte.to_N c in
  if ((128 <=? n) && (n <=? 191))%N then Some (n - 128)%N else None.

Fixpoint utf8_decode_fuel (fuel : nat) (s : bytes) : option pystr :=
  match fuel with
  | O => match s with [] => Some [] | _ => None end
  | S fuel' =>
      match s with
      | [] => Some []
      | c0 :: s1 =>
          let n0 := Byte.to_N c0 in
          if (n0 <? 128)%N then
            option_map (cons n0) (utf8_decode_fuel fuel' s1)
          else if ((194 <=? n0) && (n0 <=? 223))%N then
            match s1 with
            | c1 :: s2 =>
                match continuation c1 with
                | Some x1 =>
                    option_map (cons ((n0 - 192) * 64 + x1)%N)
                      (utf8_decode_fuel fuel' s2)
                | None => None
                end
            | _ => None
            end
          else if ((224 <=? n0) && (n0 <=? 239))%N then
            match s1 with
            | c1 :: c2 :: s3 =>
                match continuation c1, continuation c2 with
                | Some x1, Some x2 =>
                    let cp := ((n0 - 224) * 4096 + x1 * 64 + x2)%N in
                    if ((2048 <=? cp)
                        && negb ((55296 <=? cp) && (cp <=? 57343)))%N
                    then option_map (cons cp) (utf8_decode_fuel fuel' s3)
                    else None
                | _, _ => None
                end
            | _ => None
            end
          else if ((240 <=? n0) && (n0 <=? 244))%N then
            match s1 with
            | c1 :: c2 :: c3 :: s4 =>
                match continuation c1, continuation c2, continuation c3 with
                | Some x1, Some x2, Some x3 =>
                    let cp :=
                      ((n0 - 240) * 262144 + x1 * 4096 + x2 * 64 + x3)%N in
                    if ((65536 <=? cp) && (cp <=? 1114111))%N
                    then option_map (cons cp) (utf8_decode_fuel fuel' s4)
                    else None
                | _, _, _ => None
                end
            | _ => None
            end
          else None
      end
  end.

(** Each step consumes at least one byte, so the length is fuel enough. *)
Definition utf8_decode (s : bytes) : option pystr :=
  utf8_decode_fuel (List.length s) s.

End PyText.

(* ================================================================== *)
(** * The proxy handler ([model_request]) and its stream tee *)
(* ================================================================== *)

Module Proxy.
Import Balancer PyText.

(** ** Operations on decoded JSON *)

Fixpoint jdict_get (k : pystr) (d : list (pystr * pyval)) : option pyval :=
  match d with
  | [] => None
  | (k', v) :: d' => if str_eqb k k' then Some v else jdict_get k d'
  end.

(** [k in v]: key membership for a [dict], substring for a [str],
    element equality for a [list]; [TypeError] for the rest. *)
Definition contains {St : Type} (k : pystr) (v : pyval) : M St bool :=
  match v with
  | VDict d => ret (match jdict_get k d with Some _ => true | None => false end)
  | VStr s => ret (is_infix N.eqb k s)
  | VList l =>
      ret (existsb (fun x => match x with
                             | VStr s => str_eqb s k
                             | _ => false
                             end) l)
  | _ => raise TypeError
  end.

(** [v[k]] for a [str] key. *)
Definition getitem {St : Type} (v : pyval) (k : pystr) : M St pyval :=
  match v with
  | VDict d => match jdict_get k d with
               | Some x => ret x
               | None => raise KeyError
               end
  | _ => raise TypeError
  end.

(** [v.get(k, default)]. *)
Definition get_default {St : Type} (v : pyval) (k : pystr) (default : pyval)
  : M St pyval :=
  match v with
  | VDict d => ret (match jdict_get k d with Some x => x | None => default end)
  | _ => raise AttributeError
  end.

(** [x + y]. *)
Definition val_add {St : Type} (x y : pyval) : M St pyval :=
  match as_number x, as_number y with
  | Some a, Some c => ret (VNum (py_add a c))
  | _, _ =>
      match x, y with
      | VStr s, VStr t => ret (VStr (s ++ t))
      | VList s, VList t => ret (VList (s ++ t))
      | _, _ => raise TypeError
      end
  end.

(** [x == 0]. *)
Definition is_zero (x : pyval) : bool :=
  match as_number x with
  | Some n => py_eq n (PInt 0)
  | None => false
  end.

(** The truth value of [x] in a condition. *)
Definition truthy (x : pyval) : bool :=
  match x with
  | VNone => false
  | VBool c => c
  | VNum n => negb (py_eq n (PInt 0))
  | VStr s => match s with [] => false | _ => true end
  | VList l => match l with [] => false | _ => true end
  | VDict d => match d with [] => false | _ => true end
  end.

(** ** The environment of a request *)

(** A call of [model_lb.update_instance_metrics], as the handler made it. *)
Record commit_call : Type := mkCommit {
  c_model_name : string;
  c_node_id : string;
  c_response_time : pynum;
  c_is_error : bool;
  c_token_count : pyval
}.

(** What [client.request(...)] does on the unary path. *)
Inductive unary_reply : Type :=
  | UnaryRaises (e : exn)
  | UnaryResponse (status_code : Z) (headers : list (string * string))
      (content : bytes).

(** What [requests.request(..., stream=True)] does on the streaming path:
    [chunks] is what [iter_content()] yields, [failure] the exception it
    raises after the last of them, if any. *)
Inductive stream_reply : Type :=
  | StreamRaises (e : exn)
  | StreamResponse (status_code : Z) (text : string)
      (content_type : option string) (chunks : list bytes)
      (failure : option exn).

(** The library functions and the outside world of one request.
    [search_count key s] is [re.search(key + r'\s*(\d+)', s)] followed by
    [int(group(1))]: [None] without a match, [Some None] when [int] raises. *)
Record environment : Type := mkEnvironment {
  clock : nat -> float;                       (* successive time.time() *)
  json_loads : pystr -> result pyval;         (* json.loads *)
  request_json : bytes -> result pyval;       (* await request.json() *)
  search_count : pystr -> pystr -> option (option Z);
  unary : unary_reply;
  streaming : stream_reply
}.

(** The process state a request acts on: the singleton balancer, the
    number of clock readings taken, and two ghost fields, the calls of
    [update_instance_metrics] and the chunks handed to [yield]. *)
Record world : Type := mkWorld {
  lb : balancer;
  ticks : nat;
  commits : list commit_call;
  downstream : list bytes
}.

(** The request as the handler reads it. *)
Record request : Type := mkRequest {
  method : string;
  body : bytes
}.

Section Handler.

Variable env : environment.

Definition time_time : M world float :=
  fun w => (Ok (clock env (ticks w)),
            {| lb := lb w; ticks := S (ticks w); commits := commits w;
               downstream := downstream w |}).

(** [await model_lb.get_next_instance(model_name)]. *)
Definition next_instance (model_name : string) : M world (string * string) :=
  fun w => let '(r, lb') := get_next_instance model_name (lb w) in
           (r, {| lb := lb'; ticks := ticks w; commits := commits w;
                  downstream := downstream w |}).

(** [await model_lb.update_instance_metrics(...)]; the clock is read
    after the two membership tests of the callee. *)
Definition commit (model_name node : string) (response_time : pynum)
    (is_error : bool) (token_count : pyval) : M world unit :=
  fun w =>
    let known :=
      match dict_get model_name (service_metrics (lb w)) with
      | Some metrics_dict => dict_mem node metrics_dict
      | None => false
      end in
    let '(r, lb') :=
      update_instance_metrics model_name node response_time is_error
        token_count (clock env (ticks w)) (lb w) in
    (r, {| lb := lb';
           ticks := if known then S (ticks w) else ticks w;
           commits := commits w
                        ++ [mkCommit model_name node response_time is_error
                              token_count];
           downstream := downstream w |}).

(** [try: body except Exception as e: handler(e)]. *)
Definition try_except {St A : Type} (body : M St A) (handler : exn -> M St A)
  : M St A :=
  fun s => match body s with
           | (Ok a, s') => (Ok a, s')
           | (Raise e, s') => handler e s'
           end.

(** [try: body finally: final]. *)
Definition try_finally {St A : Type} (body : M St A) (final : M St unit)
  : M St A :=
  fun s => match body s with
           | (r, s') =>
               match final s' with
               | (Ok _, s'') => (r, s'')
               | (Raise e, s'') => (Raise e, s'')
               end
           end.

(** [isinstance(e, httpx.RequestError)], [isinstance(e, HTTPException)]. *)
Definition is_httpx_request_error (e : exn) : bool :=
  match e with
  | HttpxTimeoutException | HttpxRequestError => true
  | _ => false
  end.

Definition is_http_exception (e : exn) : bool :=
  match e with HTTPException _ _ => true | _ => false end.

(** ** The tolerant byte scan *)

(** [if key in content: ... token_count += int(content[start:end].strip())]
    for one key; [ValueError] when the slice is not an integer. *)
Definition scan_count {St : Type} (key content : bytes) (token_count : pyval)
  : M St pyval :=
  if bytes_in key content then
    let start_idx := bytes_find key content 0 + blen key in
    let end_idx := bytes_find (b ",") content start_idx in
    let end_idx :=
      if end_idx =? -1 then bytes_find (b "}") content start_idx
      else end_idx in
    match int_of_bytes (bytes_strip (bytes_slice content start_idx end_idx))
    with
    | Some tokens => val_add token_count (VNum (PInt tokens))
    | None => raise ValueError
    end
  else ret token_count.

(** The keys [b'"name":'] and ['"name":']. *)
Definition quoted_key (name : string) : string :=
  String "034"%char (name ++ String "034"%char ":").

Definition prompt_key : string := quoted_key "prompt_eval_count".
Definition eval_key : string := quoted_key "eval_count".

(** ** The stream tee ([generate]) *)

(** The two counters of the token accounting. *)
Record tok_state : Type := mkTok {
  token_count : pyval;
  final_token_count : pyval
}.

(** The local variables of the generator; [yielded] is a ghost field
    holding the chunks passed to [yield], oldest first. *)
Record gen_state : Type := mkGen {
  tokens : tok_state;
  error_occurred : bool;
  decoded_buffer : pystr;
  collected_content : list bytes;
  yielded : list bytes
}.

Definition zero : pyval := VNum (PInt 0).

Definition gen_start : gen_state :=
  {| tokens := {| token_count := zero; final_token_count := VNone |};
     error_occurred := false; decoded_buffer := [];
     collected_content := []; yielded := [] |}.

Definition set_token_count (x : pyval) : M tok_state unit :=
  fun t => (Ok tt, {| token_count := x;
                      final_token_count := final_token_count t |}).

Definition set_final_token_count (x : pyval) : M tok_state unit :=
  fun t => (Ok tt, {| token_count := token_count t;
                      final_token_count := x |}).

(** A block that reads and writes the two counters only. *)
Definition on_tokens {A : Type} (m : M tok_state A) : M gen_state A :=
  fun g => let '(r, t) := m (tokens g) in
           (r, {| tokens := t; error_occurred := error_occurred g;
                  decoded_buffer := decoded_buffer g;
                  collected_content := collected_content g;
                  yielded := yielded g |}).

Definition set_error_occurred (x : bool) : M gen_state unit :=
  fun g => (Ok tt,
            {| tokens := tokens g; error_occurred := x;
               decoded_buffer := decoded_buffer g;
               collected_content := collected_content g;
               yielded := yielded g |}).

Definition set_decoded_buffer (x : pystr) : M gen_state unit :=
  fun g => (Ok tt,
            {| tokens := tokens g; error_occurred := error_occurred g;
               decoded_buffer := x;
               collected_content := collected_content g;
               yielded := yielded g |}).

Definition collect (chunk : bytes) : M gen_state unit :=
  fun g => (Ok tt,
            {| tokens := tokens g; error_occurred := error_occurred g;
               decoded_buffer := decoded_buffer g;
               collected_content := collected_content g ++ [chunk];
               yielded := yielded g |}).

Definition yield (chunk : bytes) : M gen_state unit :=
  fun g => (Ok tt,
            {| tokens := tokens g; error_occurred := error_occurred g;
               decoded_buffer := decoded_buffer g;
               collected_content := collected_content g;
               yielded := yielded g ++ [chunk] |}).

(** The token accounting on one decoded object [data]. *)
Definition account (data : pyval) : M tok_state unit :=
  has_metadata <- contains (u "metadata") data ;;
  has_usage <- (if has_metadata
                then metadata <- getitem data (u "metadata") ;;
                     contains (u "usage") metadata
                else ret false) ;;
  (if has_usage
   then metadata <- getitem data (u "metadata") ;;
        usage <- getitem metadata (u "usage") ;;
        total <- get_default usage (u "total_tokens") zero ;;
        set_final_token_count total
   else ret tt) ;;;
  has_usage <- contains (u "usage") data ;;
  if has_usage
  then usage <- getitem data (u "usage") ;;
       total <- get_default usage (u "total_tokens") zero ;;
       set_final_token_count total
  else
    has_prompt <- contains (u "prompt_eval_count") data ;;
    has_eval <- (if has_prompt then contains (u "eval_count") data
                 else ret false) ;;
    if has_eval
    then t <- get ;;
         p <- get_default data (u "prompt_eval_count") zero ;;
         e <- get_default data (u "eval_count") zero ;;
         counts <- val_add p e ;;
         total <- val_add (token_count t) counts ;;
         set_token_count total
    else ret tt.

(** The handler of [json.JSONDecodeError]: the two regular expressions,
    inside their own [try ... except Exception: pass]. *)
Definition add_match (m : option (option Z)) : M tok_state unit :=
  match m with
  | None => ret tt
  | Some None => raise ValueError
  | Some (Some n) =>
      t <- get ;;
      total <- val_add (token_count t) (VNum (PInt n)) ;;
      set_token_count total
  end.

Definition regex_counts (json_str : pystr) : M tok_state unit :=
  try_except
    (let prompt_match := search_count env (u prompt_key) json_str in
     let eval_match := search_count env (u eval_key) json_str in
     add_match prompt_match ;;; add_match eval_match)
    (fun _ => ret tt).

(** The body of the [while] loop once [line] is split off. *)
Definition process_line (line : pystr) : M tok_state unit :=
  if is_prefix N.eqb (u "data: ") line then
    let json_str := str_strip (skipn 6 line) in
    match json_loads env json_str with
    | Ok data => account data
    | Raise JSONDecodeError => regex_counts json_str
    | Raise e => raise e
    end
  else ret tt.

(** [while '\n' in decoded_buffer: line, _, decoded_buffer =
    decoded_buffer.partition('\n'); ...], by recursion on the buffer:
    [line] holds, reversed, the characters read since the last newline. *)
Fixpoint drain (line : pystr) (buffer : pystr) : M gen_state unit :=
  match buffer with
  | [] => ret tt
  | c :: rest =>
      if (c =? 10)%N
      then set_decoded_buffer rest ;;;
           on_tokens (process_line (rev line)) ;;;
           drain [] rest
      else drain (c :: line) rest
  end.

(** The body of [for chunk in response.iter_content()]. *)
Definition on_chunk (chunk : bytes) : M gen_state unit :=
  match chunk with
  | [] => ret tt
  | _ :: _ =>
      try_except
        (collect chunk ;;;
         match utf8_decode chunk with
         | None => raise UnicodeDecodeError
         | Some chunk_str =>
             g <- get ;;
             let buffer := decoded_buffer g ++ chunk_str in
             set_decoded_buffer buffer ;;;
             drain [] buffer
         end)
        (fun e => match e with
                  | UnicodeDecodeError => collect chunk
                  | _ => raise e
                  end) ;;;
      yield chunk
  end.

(** The [try] block with its [except Exception as e]. *)
Definition tee (chunks : list bytes) (failure : option exn)
  : M gen_state unit :=
  try_except
    (for_each chunks tt (fun _ chunk => on_chunk chunk) ;;;
     match failure with
     | Some e => raise e
     | None => ret tt
     end)
    (fun e => set_error_occurred true ;;; raise e).

(** [math.ceil(x)]. *)
Definition math_ceil {St : Type} (x : float) : M St Z :=
  match Prim2SF x with
  | S754_nan => raise ValueError
  | S754_infinity _ => raise OverflowError
  | S754_zero _ => ret 0
  | S754_finite s m e =>
      let v := if s then Z.neg m else Z.pos m in
      if 0 <=? e then ret (v * 2 ^ e)
      else ret (- ((- v) / 2 ^ (- e)))
  end.

(** The byte scan of the [finally] block, inside its own
    [try ... except Exception]; the state is [token_count]. *)
Definition scan_collected (full_content : bytes) : M pyval unit :=
  try_except
    ((t <- get ;; t' <- scan_count (b prompt_key) full_content t ;; put t') ;;;
     (t <- get ;; t' <- scan_count (b eval_key) full_content t ;; put t'))
    (fun _ => ret tt).

(** The token count of the [finally] block: the final count when one
    was set, else the running sum; the byte scan when that is zero. *)
Definition committed_tokens (g : gen_state) : pyval :=
  let token_count :=
    match final_token_count (tokens g) with
    | VNone => token_count (tokens g)
    | final => final
    end in
  if is_zero token_count
  then snd (scan_collected (List.concat (collected_content g)) token_count)
  else token_count.

(** The [finally] block, on the locals [g] left by the loop. *)
Definition finish (model_name node_id : string) (status_code : Z)
    (start_time : float) (g : gen_state) : M world unit :=
  now <- time_time ;;
  let resp_time := ((now - start_time) * float_of_Z 1000)%float in
  hundredths <- math_ceil (resp_time * float_of_Z 100)%float ;;
  resp_time <- truediv (PInt hundredths) (PInt 100) ;;
  commit model_name node_id resp_time
    (error_occurred g || (400 <=? status_code)) (committed_tokens g).

(** The generator run to its end by the server. *)
Definition generate (model_name node_id : string) (status_code : Z)
    (chunks : list bytes) (failure : option exn) : M world unit :=
  start_time <- time_time ;;
  let '(r, g) := tee chunks failure gen_start in
  try_finally
    (fun w => (r, {| lb := lb w; ticks := ticks w; commits := commits w;
                     downstream := downstream w ++ yielded g |}))
    (finish model_name node_id status_code start_time g).

(** ** [model_request] *)

Inductive response : Type :=
  | Response (content : bytes) (status_code : Z)
      (headers : list (string * string))
  | StreamingResponse (body_iterator : M world unit) (media_type : string)
      (status_code : Z).

(** A free name of [model_request] that neither the function nor the
    module binds. *)
Definition global_name {St : Type} (name : string) : M St pyval :=
  raise (NameError name).

(** The two inner handlers: [except httpx.RequestError] and
    [except Exception]. *)
Definition inner_handler {A : Type} (e : exn) : M world A :=
  if is_httpx_request_error e
  then raise (HTTPException 502 (ModelServiceError e))
  else raise (HTTPException 500 (InternalServerError e)).

Definition elapsed_ms (start_time : float) : M world pynum :=
  now <- time_time ;;
  ret (PFloat ((now - start_time) * float_of_Z 1000)%float).

Definition streaming_path (model_name node_id : string) : M world response :=
  try_except
    (match streaming env with
     | StreamRaises e => raise e
     | StreamResponse status_code text content_type chunks failure =>
         if negb (status_code =? 200)
         then raise (HTTPException status_code
                       (StreamStatusError status_code text))
         else ret (StreamingResponse
                     (generate model_name node_id status_code chunks failure)
                     (match content_type with
                      | Some c => c
                      | None => "text/event-stream"%string
                      end)
                     status_code)
     end)
    inner_handler.

Definition unary_path (model_name instance_id : string) (start_time : float)
  : M world response :=
  try_except
    (match unary env with
     | UnaryRaises e => raise e
     | UnaryResponse status_code headers response_content =>
         token_count <- scan_count (b prompt_key) response_content zero ;;
         data <- global_name "data" ;;
         has_usage <- contains (u "usage") data ;;
         token_count <-
           (if has_usage
            then usage <- getitem data (u "usage") ;;
                 total <- get_default usage (u "total_tokens") zero ;;
                 _ <- global_name "final_token_count" ;;
                 ret total
            else ret token_count) ;;
         token_count <- scan_count (b eval_key) response_content token_count ;;
         resp_time <- elapsed_ms start_time ;;
         commit model_name instance_id resp_time (400 <=? status_code)
           token_count ;;;
         ret (Response response_content status_code headers)
     end)
    inner_handler.

(** [is_streaming]: the ["stream"] entry of the JSON body, [False] when
    the body does not parse or is not an object. *)
Definition stream_flag (request : request) : pyval :=
  match request_json env (body request) with
  | Ok (VDict d) =>
      match jdict_get (u "stream") d with
      | Some v => v
      | None => VBool false
      end
  | _ => VBool false
  end.

Definition model_request (model_name path : string) (request : request)
  : M world response :=
  ids <- try_except (next_instance model_name)
           (fun e => raise (HTTPException 503 (ServiceUnavailable e))) ;;
  let '(node_id, instance_id) := ids in
  start_time <- time_time ;;
  try_except
    (if truthy (stream_flag request)
     then streaming_path model_name node_id
     else unary_path model_name instance_id start_time)
    (fun e =>
       resp_time <- elapsed_ms start_time ;;
       commit model_name instance_id resp_time true zero ;;;
       match e with
       | HttpxTimeoutException =>
           raise (HTTPException 504 ModelRequestTimeout)
       | HTTPException _ _ => raise e
       | _ => raise (HTTPException 500 (InternalServerError e))
       end).

(** ** The request as the caller sees it *)

(** What reaches the caller: a complete response, a streamed body (with
    the exception that cut it short, if any), or the error response the
    framework builds from an exception of the handler. *)
Inductive served : Type :=
  | Sent (status_code : Z) (headers : list (string * string))
      (content : bytes)
  | Streamed (status_code : Z) (media_type : string) (chunks : list bytes)
      (aborted : option exn)
  | Failed (e : exn).

(** The status line of the reply: the framework answers an
    [HTTPException] with its status code, any other exception with 500. *)
Definition http_status (r : served) : Z :=
  match r with
  | Sent status_code _ _ => status_code
  | Streamed status_code _ _ _ => status_code
  | Failed (HTTPException status_code _) => status_code
  | Failed _ => 500
  end.

Definition serve (model_name path : string) (request : request)
  : world -> served * world :=
  fun w =>
    match model_request model_name path request w with
    | (Raise e, w') => (Failed e, w')
    | (Ok (Response content status_code headers), w') =>
        (Sent status_code headers content, w')
    | (Ok (StreamingResponse body_iterator media_type status_code), w') =>
        let sent_before := List.length (downstream w') in
        match body_iterator w' with
        | (r, w'') =>
            (Streamed status_code media_type
               (skipn sent_before (downstream w''))
               (match r with Ok _ => None | Raise e => Some e end),
             w'')
        end
    end.

End Handler.

End Proxy.

(* ================================================================== *)
(** * Reference library functions *)
(* ================================================================== *)

(** Executable stand-ins for the library functions the two modules call,
    so that the embedding can be run on concrete requests.  The theorems
    quantified over an [environment] or a [runtime] do not depend on
    them. *)

Module Reference.
Import Balancer PyText Proxy.

(** ** A JSON decoder

    The fragment of [json.loads] made of objects, arrays, strings with the
    single-character escapes, integers and the three literals; a document
    outside it is reported as [JSONDecodeError]. *)

Fixpoint skip_ws (s : pystr) : pystr :=
  match s with
  | c :: s' =>
      if ((c =? 32) || (c =? 9) || (c =? 10) || (c =? 13))%N
      then skip_ws s' else s
  | [] => []
  end.

Definition is_digit (c : N) : bool := ((48 <=? c) && (c <=? 57))%N.

Fixpoint read_digits (acc : Z) (s : pystr) : Z * pystr :=
  match s with
  | c :: s' =>
      if is_digit c then read_digits (acc * 10 + (Z.of_N c - 48)) s'
      else (acc, s)
  | [] => (acc, [])
  end.

(** An integer: [0], or a non-zero digit and more digits; a fraction or
    an exponent after it is outside the fragment. *)
Definition read_int (s : pystr) : option (Z * pystr) :=
  match s with
  | c :: s' =>
      if is_digit c then
        let '(n, rest) := if (c =? 48)%N then (0, s') else read_digits 0 s in
        match rest with
        | d :: _ =>
            if is_digit d || (d =? 46)%N || (d =? 101)%N || (d =? 69)%N
            then None else Some (n, rest)
        | [] => Some (n, rest)
        end
      else None
  | [] => None
  end.

Definition unescape (c : N) : option N :=
  if (c =? 34)%N then Some 34%N
  else if (c =? 92)%N then Some 92%N
  else if (c =? 47)%N then Some 47%N
  else if (c =? 98)%N then Some 8%N
  else if (c =? 102)%N then Some 12%N
  else if (c =? 110)%N then Some 10%N
  else if (c =? 114)%N then Some 13%N
  else if (c =? 116)%N then Some 9%N
  else None.

(** The characters of a string after its opening quote. *)
Fixpoint read_string (s : pystr) : option (pystr * pystr) :=
  match s with
  | [] => None
  | c :: s' =>
      if (c =? 34)%N then Some ([], s')
      else if (c <? 32)%N then None
      else if (c =? 92)%N then
        match s' with
        | e :: s'' =>
            match unescape e, read_string s'' with
            | Some x, Some (str, rest) => Some (x :: str, rest)
            | _, _ => None
            end
        | [] => None
        end
      else
        match read_string s' with
        | Some (str, rest) => Some (c :: str, rest)
        | None => None
        end
  end.

(** [d[k] = v] on a decoded object: a repeated key keeps its place and
    takes the later value. *)
Fixpoint jdict_set (k : pystr) (v : pyval) (d : list (pystr * pyval))
  : list (pystr * pyval) :=
  match d with
  | [] => [(k, v)]
  | (k', v') :: d' =>
      if str_eqb k k' then (k, v) :: d' else (k', v') :: jdict_set k v d'
  end.

Fixpoint read_value (fuel : nat) (s : pystr) : option (pyval * pystr) :=
  match fuel with
  | O => None
  | S fuel' =>
      match skip_ws s with
      | [] => None
      | c :: s' =>
          if (c =? 123)%N then
            match skip_ws s' with
            | d :: s'' =>
                if (d =? 125)%N then Some (VDict [], s'')
                else read_members fuel' [] (d :: s'')
            | [] => None
            end
          else if (c =? 91)%N then
            match skip_ws s' with
            | d :: s'' =>
                if (d =? 93)%N then Some (VList [], s'')
                else read_elements fuel' [] (d :: s'')
            | [] => None
            end
          else if (c =? 34)%N then
            match read_string s' with
            | Some (str, rest) => Some (VStr str, rest)
            | None => None
            end
          else if (c =? 45)%N then
            match read_int s' with
            | Some (n, rest) => Some (VNum (PInt (- n)), rest)
            | None => None
            end
          else if is_digit c then
            match read_int (c :: s') with
            | Some (n, rest) => Some (VNum (PInt n), rest)
            | None => None
            end
          else if is_prefix N.eqb (u "true") (c :: s')
          then Some (VBool true, skipn 4 (c :: s'))
          else if is_prefix N.eqb (u "false") (c :: s')
          then Some (VBool false, skipn 5 (c :: s'))
          else if is_prefix N.eqb (u "null") (c :: s')
          then Some (VNone, skipn 4 (c :: s'))
          else None
      end
  end
with read_members (fuel : nat) (acc : list (pystr * pyval)) (s : pystr)
  : option (pyval * pystr) :=
  match fuel with
  | O => None
  | S fuel' =>
      match skip_ws s with
      | q :: s1 =>
          if (q =? 34)%N then
            match read_string s1 with
            | Some (key, s2) =>
                match skip_ws s2 with
                | colon :: s3 =>
                    if (colon =? 58)%N then
                      match read_value fuel' s3 with
                      | Some (v, s4) =>
                          let acc' := jdict_set key v acc in
                          match skip_ws s4 with
                          | d :: s5 =>
                              if (d =? 125)%N then Some (VDict acc', s5)
                              else if (d =? 44)%N
                              then read_members fuel' acc' s5
                              else None
                          | [] => None
                          end
                      | None => None
                      end
                    else None
                | [] => None
                end
            | None => None
            end
          else None
      | [] => None
      end
  end
with read_elements (fuel : nat) (acc : list pyval) (s : pystr)
  : option (pyval * pystr) :=
  match fuel with
  | O => None
  | S fuel' =>
      match read_value fuel' s with
      | Some (v, s1) =>
          match skip_ws s1 with
          | d :: s2 =>
              if (d =? 93)%N then Some (VList (acc ++ [v]), s2)
              else if (d =? 44)%N then read_elements fuel' (acc ++ [v]) s2
              else None
          | [] => None
          end
      | None => None
      end
  end.

(** A call that reads no character is followed by one that does, so two
    units of fuel for each character are enough. *)
Definition json_loads (s : pystr) : result pyval :=
  match read_value (2 * List.length s + 2) s with
  | Some (v, rest) =>
      match skip_ws rest with
      | [] => Ok v
      | _ :: _ => Raise JSONDecodeError
      end
  | None => Raise JSONDecodeError
  end.

Definition request_json (body : bytes) : result pyval :=
  match utf8_decode body with
  | Some s => json_loads s
  | None => Raise UnicodeDecodeError
  end.

(** ** The two regular expressions

    The leftmost place where [key] is followed by white space and at
    least one digit.  Only the ASCII digits are read. *)
Fixpoint search_count (key s : pystr) : option (option Z) :=
  let here :=
    if is_prefix N.eqb key s then
      match lstrip_by is_space (skipn (List.length key) s) with
      | c :: rest =>
          if is_digit c then Some (fst (read_digits 0 (c :: rest))) else None
      | [] => None
      end
    else None in
  match here with
  | Some n => Some (Some n)
  | None =>
      match s with
      | [] => None
      | _ :: s' => search_count key s'
      end
  end.

Definition environment (clock : nat -> float) (unary : unary_reply)
    (streaming : stream_reply) : Proxy.environment :=
  {| Proxy.clock := clock;
     Proxy.json_loads := json_loads;
     Proxy.request_json := request_json;
     Proxy.search_count := search_count;
     Proxy.unary := unary;
     Proxy.streaming := streaming |}.

(** ** The numeric library and a tape of random draws *)

(** [numpy.mean] and [numpy.std] by the plain left-to-right sum, as NumPy
    computes them below eight elements. *)
Definition float_sum (xs : list float) : float :=
  fold_left PrimFloat.add xs 0%float.

Definition np_mean (xs : list pynum) : float :=
  (float_sum (map to_float xs) / float_of_Z (len xs))%float.

Definition np_std (xs : list pynum) : float :=
  let mean := np_mean xs in
  let squares :=
    map (fun x => let d := PrimFloat.abs (to_float x - mean) in (d * d)%float)
      xs in
  PrimFloat.sqrt (float_sum squares / float_of_Z (len xs))%float.

(** [round(x, ndigits)] for [ndigits >= 0]: an [int] is returned as it
    is, a float is rounded half to even on its exact decimal expansion
    and the result read back as the nearest binary64. *)
Definition round_half_even (n d : Z) : Z :=
  let q := n / d in
  let r := n mod d in
  if (d <? 2 * r) || ((d =? 2 * r) && Z.odd q) then q + 1 else q.

Definition py_round (x : pynum) (ndigits : Z) : pynum :=
  match x with
  | PInt z => PInt z
  | PFloat f =>
      match Prim2SF f with
      | S754_finite s m e =>
          let p := 10 ^ ndigits in
          let q := if 0 <=? e then Z.pos m * p * 2 ^ e
                   else round_half_even (Z.pos m * p) (2 ^ (- e)) in
          let r := SF2Prim (SFdiv prec emax (Z2SF q) (Z2SF p)) in
          PFloat (if s then (- r)%float else r)
      | _ => PFloat f
      end
  end.

(** A stand-in for [strftime] on the local time: the whole seconds of the
    reading, in decimal.  It separates two readings exactly when they
    fall in different seconds, as the format [%Y-%m-%d %H:%M:%S] does. *)
Definition whole_seconds (t : float) : Z :=
  match Prim2SF t with
  | S754_finite s m e =>
      let v := if s then Z.neg m else Z.pos m in
      if 0 <=? e then v * 2 ^ e else v / 2 ^ (- e)
  | _ => 0
  end.

Definition strftime_local (t : float) : string :=
  DecimalString.NilZero.string_of_int (Z.to_int (whole_seconds t)).

(** The generator as a tape of raw draws, one for each call:
    [random()] is a draw scaled into [[0, 1)], [randint(a, b)] a draw
    reduced into [[a, b]]. *)
Definition tape : Type := list Z.

Definition draw (g : tape) : Z * tape :=
  match g with
  | [] => (0, [])
  | k :: g' => (k, g')
  end.

Definition random_uniform (a c : pynum) (g : tape) : float * tape :=
  let '(k, g') := draw g in
  let r := (float_of_Z (k mod 2 ^ 53) / float_of_Z (2 ^ 53))%float in
  (to_float (py_add a (py_mul (py_sub c a) (PFloat r))), g').

Definition random_randint (a c : Z) (g : tape) : Z * tape :=
  let '(k, g') := draw g in (a + k mod (c - a + 1), g').

Definition runtime : Balancer.runtime :=
  {| Balancer.np_mean := np_mean;
     Balancer.np_std := np_std;
     Balancer.py_round := py_round;
     Balancer.strftime_local := strftime_local;
     Balancer.rng := tape;
     Balancer.random_uniform := random_uniform;
     Balancer.random_randint := random_randint |}.

End Reference.

(* ================================================================== *)
(** * Facts about dictionaries *)
(* ================================================================== *)

Section DictFacts.

Context {V : Type}.

Lemma dict_get_set_same (k : string) (v : V) (d : pydict V) :
  dict_get k (dict_set k v d) = Some v.
Proof.
  induction d as [|[k' v'] d IH]; simpl.
  - now rewrite String.eqb_refl.
  - destruct (String.eqb k k') eqn:E; simpl; rewrite ?String.eqb_refl, ?E; auto.
Qed.

Lemma dict_get_set_other (k k' : string) (v : V) (d : pydict V) :
  k <> k' -> dict_get k' (dict_set k v d) = dict_get k' d.
Proof.
  intros Hne. induction d as [|[k0 v0] d IH]; simpl.
  - destruct (String.eqb_spec k' k); congruence.
  - destruct (String.eqb_spec k k0) as [->|Hk]; simpl.
    + destruct (String.eqb_spec k' k0); congruence.
    + destruct (String.eqb_spec k' k0); auto.
Qed.

Lemma dict_set_get_id (k : string) (v : V) (d : pydict V) :
  dict_get k d = Some v -> dict_set k v d = d.
Proof.
  induction d as [|[k' v'] d IH]; simpl; [discriminate|].
  destruct (String.eqb_spec k k') as [->|Hk]; intros H.
  - congruence.
  - now rewrite IH.
Qed.

Lemma dict_get_In (k : string) (v : V) (d : pydict V) :
  dict_get k d = Some v -> In (k, v) d.
Proof.
  induction d as [|[k' v'] d IH]; simpl; [discriminate|].
  destruct (String.eqb_spec k k') as [->|Hk]; intros H.
  - left. congruence.
  - right. auto.
Qed.

End DictFacts.

(* ================================================================== *)
(** * Facts about the monad *)
(* ================================================================== *)

Section MonadFacts.

Context {St : Type}.
Variable R : St -> St -> Prop.
Hypothesis R_refl : forall s, R s s.
Hypothesis R_trans : forall s1 s2 s3, R s1 s2 -> R s2 s3 -> R s1 s3.

(** [m] moves the state along [R], whether it returns or raises. *)
Definition stable {A : Type} (m : M St A) : Prop :=
  forall s, R s (snd (m s)).

Lemma stable_ret {A : Type} (a : A) : stable (ret a).
Proof. intros s. apply R_refl. Qed.

Lemma stable_raise {A : Type} (e : exn) : stable (raise (A := A) e).
Proof. intros s. apply R_refl. Qed.

Lemma stable_get : stable get.
Proof. intros s. apply R_refl. Qed.

Lemma stable_bind {A B : Type} (m : M St A) (k : A -> M St B) :
  stable m -> (forall a, stable (k a)) -> stable (bind m k).
Proof.
  intros Hm Hk s. unfold bind. specialize (Hm s).
  destruct (m s) as [[a|e] s']; simpl in *; auto.
  eapply R_trans; [exact Hm|apply Hk].
Qed.

Lemma stable_subscript {V : Type} (d : pydict V) (k : string) :
  stable (subscript d k).
Proof. unfold subscript. destruct (dict_get k d); [apply stable_ret|apply stable_raise]. Qed.

Lemma stable_for_each {A B : Type} (xs : list A) (body : B -> A -> M St B) :
  (forall acc x, stable (body acc x)) ->
  forall acc, stable (for_each xs acc body).
Proof.
  intros Hb. induction xs as [|x xs IH]; intros acc; simpl.
  - apply stable_ret.
  - apply stable_bind; auto.
Qed.

End MonadFacts.

Section RaiseFacts.

Context {St : Type}.
Variable P : exn -> Prop.

(** Whatever [m] raises satisfies [P]. *)
Definition raises_only {A : Type} (m : M St A) : Prop :=
  forall s e s', m s = (Raise e, s') -> P e.

Lemma raises_ret {A : Type} (a : A) : raises_only (ret a).
Proof. intros s e s'. unfold ret. discriminate. Qed.

Lemma raises_raise {A : Type} (e : exn) : P e -> raises_only (raise (A := A) e).
Proof. intros He s e' s'. unfold raise. now intros [= <- _]. Qed.

Lemma raises_get : raises_only get.
Proof. intros s e s'. unfold get. discriminate. Qed.

Lemma raises_put (x : St) : raises_only (put x).
Proof. intros s e s'. unfold put. discriminate. Qed.

Lemma raises_bind {A B : Type} (m : M St A) (k : A -> M St B) :
  raises_only m -> (forall a, raises_only (k a)) -> raises_only (bind m k).
Proof.
  intros Hm Hk s e s'. unfold bind.
  destruct (m s) as [[a|e0] s0] eqn:E.
  - apply Hk.
  - intros [= <- _]. eapply Hm; eauto.
Qed.

Lemma raises_subscript {V : Type} (d : pydict V) (k : string) :
  P KeyError -> raises_only (subscript d k).
Proof.
  intros HP. unfold subscript.
  destruct (dict_get k d); [apply raises_ret|now apply raises_raise].
Qed.

End RaiseFacts.

(* ================================================================== *)
(** * The instance state store *)
(* ================================================================== *)

Module BalancerFacts.
Import Balancer.

(** The two entries of an instance. *)
Definition weights_of (lb : balancer) (model_name node : string)
  : option weights :=
  match dict_get model_name (service_weights lb) with
  | Some wd => dict_get node wd
  | None => None
  end.

Definition metrics_of (lb : balancer) (model_name node : string)
  : option metrics :=
  match dict_get model_name (service_metrics lb) with
  | Some md => dict_get node md
  | None => None
  end.

Lemma weights_of_set_weights_same lb model_name node w wd :
  dict_get model_name (service_weights lb) = Some wd ->
  weights_of (set_weights model_name node w lb) model_name node = Some w.
Proof.
  intros H. unfold weights_of, set_weights. rewrite H. simpl.
  rewrite dict_get_set_same. apply dict_get_set_same.
Qed.

Lemma weights_of_set_weights_other lb model_name node w model' node' :
  (model', node') <> (model_name, node) ->
  weights_of (set_weights model_name node w lb) model' node'
  = weights_of lb model' node'.
Proof.
  intros Hne. unfold weights_of, set_weights.
  destruct (dict_get model_name (service_weights lb)) as [wd|] eqn:H; auto.
  simpl. destruct (String.eqb_spec model_name model') as [->|Hm].
  - rewrite dict_get_set_same, H.
    apply dict_get_set_other. congruence.
  - now rewrite dict_get_set_other.
Qed.

Lemma metrics_of_set_weights lb model_name node w model' node' :
  metrics_of (set_weights model_name node w lb) model' node'
  = metrics_of lb model' node'.
Proof.
  unfold metrics_of, set_weights.
  now destruct (dict_get model_name (service_weights lb)).
Qed.

Lemma metrics_of_set_metrics_same lb model_name node m md :
  dict_get model_name (service_metrics lb) = Some md ->
  metrics_of (set_metrics model_name node m lb) model_name node = Some m.
Proof.
  intros H. unfold metrics_of, set_metrics. rewrite H. simpl.
  rewrite dict_get_set_same. apply dict_get_set_same.
Qed.

Lemma metrics_of_set_metrics_other lb model_name node m model' node' :
  (model', node') <> (model_name, node) ->
  metrics_of (set_metrics model_name node m lb) model' node'
  = metrics_of lb model' node'.
Proof.
  intros Hne. unfold metrics_of, set_metrics.
  destruct (dict_get model_name (service_metrics lb)) as [md|] eqn:H; auto.
  simpl. destruct (String.eqb_spec model_name model') as [->|Hm].
  - rewrite dict_get_set_same, H.
    apply dict_get_set_other. congruence.
  - now rewrite dict_get_set_other.
Qed.

Lemma weights_of_set_metrics lb model_name node m model' node' :
  weights_of (set_metrics model_name node m lb) model' node'
  = weights_of lb model' node'.
Proof.
  unfold weights_of, set_metrics.
  now destruct (dict_get model_name (service_metrics lb)).
Qed.

(** What [update_weights] and [update_metrics] leave behind. *)
Lemma update_weights_spec model_name node f lb :
  match weights_of lb model_name node with
  | Some w =>
      update_weights model_name node f lb
      = (Ok tt, set_weights model_name node (f w) lb)
  | None => update_weights model_name node f lb = (Raise KeyError, lb)
  end.
Proof.
  unfold weights_of, update_weights, get_weights, bind, get, subscript.
  destruct (dict_get model_name (service_weights lb)) as [wd|]; simpl; auto.
  destruct (dict_get node wd); simpl; auto.
Qed.

Lemma update_metrics_spec model_name node f lb :
  match metrics_of lb model_name node with
  | Some m =>
      update_metrics model_name node f lb
      = (Ok tt, set_metrics model_name node (f m) lb)
  | None => update_metrics model_name node f lb = (Raise KeyError, lb)
  end.
Proof.
  unfold metrics_of, update_metrics, get_metrics, bind, get, subscript.
  destruct (dict_get model_name (service_metrics lb)) as [md|]; simpl; auto.
  destruct (dict_get node md); simpl; auto.
Qed.

(** ** What a selection never touches *)

(** [lb'] has the instances of [lb], each with the status, the failure
    count and the effective weight it had. *)
Definition same_health (lb lb' : balancer) : Prop :=
  forall model_name node,
    option_map status (metrics_of lb' model_name node)
    = option_map status (metrics_of lb model_name node)
    /\ option_map (fun w => (effective_weight w, history_failures w))
         (weights_of lb' model_name node)
       = option_map (fun w => (effective_weight w, history_failures w))
           (weights_of lb model_name node).

Lemma same_health_refl lb : same_health lb lb.
Proof. intros ? ?. auto. Qed.

Lemma same_health_trans lb1 lb2 lb3 :
  same_health lb1 lb2 -> same_health lb2 lb3 -> same_health lb1 lb3.
Proof.
  intros H12 H23 model_name node.
  destruct (H12 model_name node), (H23 model_name node). split; congruence.
Qed.

Lemma same_health_update_weights model_name node f :
  (forall w, effective_weight (f w) = effective_weight w
             /\ history_failures (f w) = history_failures w) ->
  stable same_health (update_weights model_name node f).
Proof.
  intros Hf lb. pose proof (update_weights_spec model_name node f lb) as Hs.
  destruct (weights_of lb model_name node) as [w|] eqn:Hw; rewrite Hs; simpl;
    [|apply same_health_refl].
  intros model' node'. rewrite metrics_of_set_weights. split; auto.
  destruct (string_dec model' model_name) as [->|Hm];
    [destruct (string_dec node' node) as [->|Hn]|].
  - unfold weights_of in Hw.
    destruct (dict_get model_name (service_weights lb)) as [wd|] eqn:Hd;
      [|discriminate].
    erewrite weights_of_set_weights_same by eauto.
    unfold weights_of. rewrite Hd, Hw. simpl.
    destruct (Hf w) as [-> ->]. reflexivity.
  - rewrite weights_of_set_weights_other by congruence. reflexivity.
  - rewrite weights_of_set_weights_other by congruence. reflexivity.
Qed.

Lemma same_health_update_metrics model_name node f :
  (forall m, status (f m) = status m) ->
  stable same_health (update_metrics model_name node f).
Proof.
  intros Hf lb. pose proof (update_metrics_spec model_name node f lb) as Hs.
  destruct (metrics_of lb model_name node) as [m|] eqn:Hm0; rewrite Hs; simpl;
    [|apply same_health_refl].
  intros model' node'. rewrite weights_of_set_metrics. split; auto.
  destruct (string_dec model' model_name) as [->|Hm];
    [destruct (string_dec node' node) as [->|Hn]|].
  - unfold metrics_of in Hm0.
    destruct (dict_get model_name (service_metrics lb)) as [md|] eqn:Hd;
      [|discriminate].
    erewrite metrics_of_set_metrics_same by eauto.
    unfold metrics_of. rewrite Hd, Hm0. simpl. now rewrite Hf.
  - rewrite metrics_of_set_metrics_other by congruence. reflexivity.
  - rewrite metrics_of_set_metrics_other by congruence. reflexivity.
Qed.

Create HintDb health.
#[local] Hint Resolve same_health_refl same_health_trans : health.

Lemma same_health_get_weights model_name node :
  stable same_health (get_weights model_name node).
Proof.
  unfold get_weights.
  apply stable_bind; eauto with health. { apply stable_get; eauto with health. }
  intros lb. apply stable_bind; eauto with health;
    intros; apply stable_subscript; eauto with health.
Qed.

Lemma same_health_select_body model_name sel item :
  stable same_health (select_body model_name sel item).
Proof.
  destruct item as [node m]. unfold select_body.
  destruct (negb (is_healthy (status m))).
  { apply stable_ret; eauto with health. }
  apply stable_bind; eauto with health.
  { apply same_health_get_weights. }
  intros w. apply stable_bind; eauto with health.
  { apply same_health_update_weights. intros; split; reflexivity. }
  intros _. destruct (py_gt _ _); apply stable_ret; eauto with health.
Qed.

Lemma same_health_get_next_instance model_name :
  stable same_health (get_next_instance model_name).
Proof.
  unfold get_next_instance.
  apply stable_bind; eauto with health. { apply stable_get; eauto with health. }
  intros lb. destruct (dict_get model_name (service_metrics lb)) as [md|].
  2:{ apply stable_raise; eauto with health. }
  apply stable_bind; eauto with health.
  { apply stable_subscript; eauto with health. }
  intros _. apply stable_bind; eauto with health.
  { apply stable_for_each; eauto with health.
    intros; apply same_health_select_body. }
  intros sel. destruct (best sel).
  2:{ apply stable_raise; eauto with health. }
  apply stable_bind; eauto with health.
  { apply same_health_update_weights. intros; split; reflexivity. }
  intros _. apply stable_bind; eauto with health.
  { apply same_health_update_metrics. intros; reflexivity. }
  intros _. apply stable_ret; eauto with health.
Qed.

(** ** What a commit does to the instance *)

Lemma py_gt_zero_not_eq a : py_gt a (PInt 0) = true -> py_eq a (PInt 0) = false.
Proof.
  unfold py_gt, py_lt, py_eq. destruct a as [z|f]; simpl.
  - destruct z; simpl; congruence.
  - destruct (float_cmp_Z f 0) as [[]|]; simpl; congruence.
Qed.

(** The weight controller alone, as a function on the weights entry. *)
Definition controlled (is_error : bool) (w : weights) : weights :=
  if is_error
  then {| current_weight := current_weight w;
          effective_weight :=
            py_max (PInt 5) (py_mul (effective_weight w) (PFloat 0.8));
          history_failures := history_failures w + 1 |}
  else {| current_weight := current_weight w;
          effective_weight :=
            py_min (PInt 100) (py_mul (effective_weight w) (PFloat 1.05));
          history_failures := 0 |}.

Definition controlled_status (is_error : bool) (w : weights)
    (s : node_status) : node_status :=
  if is_error && (3 <? history_failures w + 1) then Warning else s.

Lemma update_weight_spec is_error m w :
  exists m',
    update_weight is_error (m, w) = (Ok tt, (m', controlled is_error w))
    /\ status m' = controlled_status is_error w (status m)
    /\ weight m' = effective_weight (controlled is_error w)
    /\ active_requests m' = active_requests m.
Proof.
  unfold update_weight, controlled, controlled_status, bind, set_m, set_w,
    the_w, ret.
  destruct is_error; simpl.
  - destruct (3 <? history_failures w + 1) eqn:E; simpl;
      eexists; repeat split; reflexivity.
  - eexists; repeat split; reflexivity.
Qed.

(** The part of [update_node] before the weight controller changes
    neither the weights entry nor the status. *)
Lemma update_load_rate_spec current_time min_time m w :
  exists r m',
    update_load_rate current_time min_time (m, w) = (r, (m', w))
    /\ status m' = status m
    /\ active_requests m' = active_requests m
    /\ (py_eq (load_threshold m) (PInt 0) = false -> r = Ok tt).
Proof.
  unfold update_load_rate, bind, the_m, set_m. cbn [fst snd].
  destruct (load_history m) as [|e h].
  { eexists _, _; repeat split; reflexivity. }
  destruct (last (sorted_by_time (e :: h)) (current_time, 0)) as [lt ll].
  set (td := py_sub (PFloat current_time) min_time).
  set (tl := py_add _ _).
  destruct (py_gt td (PInt 0)) eqn:G.
  - apply py_gt_zero_not_eq in G. unfold truediv at 1, py_truediv at 1.
    rewrite G. unfold ret at 1.
    unfold truediv, py_truediv.
    destruct (py_eq (load_threshold m) (PInt 0)) eqn:Z; cbn [fst snd raise ret].
    + eexists _, _; repeat split; try reflexivity. discriminate.
    + eexists _, _; repeat split; reflexivity.
  - unfold ret at 1. unfold truediv, py_truediv.
    destruct (py_eq (load_threshold m) (PInt 0)) eqn:Z; cbn [fst snd raise ret].
    + eexists _, _; repeat split; try reflexivity. discriminate.
    + eexists _, _; repeat split; reflexivity.
Qed.

Lemma update_node_spec response_time is_error token_count current_time m w :
  let '(r, (m', w')) :=
    update_node response_time is_error token_count current_time (m, w) in
  match r with
  | Ok _ =>
      w' = controlled is_error w
      /\ status m' = controlled_status is_error w (status m)
      /\ weight m' = effective_weight w'
      /\ active_requests m' = Z.max 0 (active_requests m - 1)
  | Raise _ => w' = w /\ status m' = status m
  end
  /\ (as_number token_count <> None ->
      py_eq (load_threshold m) (PInt 0) = false -> r = Ok tt).
Proof.
  unfold update_node.
  unfold bind at 1. unfold the_m at 1. simpl.
  unfold bind at 1. unfold set_m at 1. simpl.
  unfold bind at 1. unfold set_m at 1. simpl.
  unfold bind at 1. unfold num_plus.
  destruct (as_number token_count) as [k|]; simpl.
  2:{ split; [split; reflexivity|]. congruence. }
  unfold bind at 1. unfold set_m at 1. simpl.
  unfold bind at 1. unfold set_m at 1. simpl.
  unfold bind at 1. unfold set_m at 1. simpl.
  unfold bind at 1. unfold set_m at 1. simpl.
  unfold bind at 1.
  match goal with
  | |- context [update_load_rate ?t ?mt (?m0, w)] =>
      destruct (update_load_rate_spec t mt m0 w)
        as (r & m1 & Hrun & Hst & Hact & Hok); rewrite Hrun
  end.
  simpl in Hst, Hact, Hok.
  destruct r as [[]|e].
  2:{ simpl. split; [split; [reflexivity|exact Hst]|].
      intros _ Hz. specialize (Hok Hz). discriminate. }
  unfold bind at 1. unfold set_m at 1. simpl.
  match goal with
  | |- context [update_weight is_error (?m0, w)] =>
      destruct (update_weight_spec is_error m0 w)
        as (m2 & Hrun2 & Hst2 & Hw2 & Hact2); rewrite Hrun2
  end.
  simpl in Hst2, Hact2. split; [|reflexivity].
  repeat split; try congruence.
Qed.

(** [lb'] differs from [lb] at most at the instance [node] of
    [model_name]. *)
Definition only_at (model_name node : string) (lb lb' : balancer) : Prop :=
  forall model' node',
    (model', node') <> (model_name, node) ->
    weights_of lb' model' node' = weights_of lb model' node'
    /\ metrics_of lb' model' node' = metrics_of lb model' node'.

Lemma only_at_write model_name node m w lb :
  only_at model_name node lb
    (set_weights model_name node w (set_metrics model_name node m lb)).
Proof.
  intros model' node' Hne. split.
  - rewrite weights_of_set_weights_other, weights_of_set_metrics; auto.
  - rewrite metrics_of_set_weights, metrics_of_set_metrics_other; auto.
Qed.

Lemma only_at_trans model_name node lb1 lb2 lb3 :
  only_at model_name node lb1 lb2 -> only_at model_name node lb2 lb3 ->
  only_at model_name node lb1 lb3.
Proof.
  intros H12 H23 model' node' Hne.
  destruct (H12 _ _ Hne), (H23 _ _ Hne). split; congruence.
Qed.

Ltac conjs := repeat match goal with |- _ /\ _ => split end.

Lemma commit_known lb model_name node response_time is_error token_count
    current_time m w :
  metrics_of lb model_name node = Some m ->
  weights_of lb model_name node = Some w ->
  forall r0 m' w',
    update_node response_time is_error token_count current_time (m, w)
    = (r0, (m', w')) ->
  exists r lb' m'',
    update_instance_metrics model_name node response_time is_error
      token_count current_time lb = (r, lb')
    /\ weights_of lb' model_name node = Some w'
    /\ metrics_of lb' model_name node = Some m''
    /\ status m'' = status m'
    /\ weight m'' = weight m'
    /\ active_requests m'' = active_requests m'
    /\ only_at model_name node lb lb'
    /\ (forall e, r0 = Raise e -> r = Raise e).
Proof.
  intros Hm Hw r0 m' w' Hrun.
  unfold update_instance_metrics, bind at 1, get at 1.
  unfold metrics_of in Hm. unfold weights_of in Hw.
  destruct (dict_get model_name (service_metrics lb)) as [md|] eqn:Hmd;
    [|discriminate].
  destruct (dict_get model_name (service_weights lb)) as [wd|] eqn:Hwd;
    [|discriminate].
  rewrite Hm. unfold bind at 1, subscript at 1. rewrite Hwd. unfold ret at 1.
  unfold bind at 1, subscript at 1. rewrite Hw. unfold ret at 1.
  rewrite Hrun. unfold bind at 1, put at 1.
  set (lb1 := set_weights model_name node w'
                (set_metrics model_name node m' lb)).
  assert (Hw1 : weights_of lb1 model_name node = Some w').
  { unfold lb1. eapply weights_of_set_weights_same.
    unfold set_metrics. rewrite Hmd. simpl. exact Hwd. }
  assert (Hm1 : metrics_of lb1 model_name node = Some m').
  { unfold lb1. rewrite metrics_of_set_weights.
    eapply metrics_of_set_metrics_same. exact Hmd. }
  assert (Hfr : only_at model_name node lb lb1) by apply only_at_write.
  destruct r0 as [[]|e].
  2:{ exists (Raise e), lb1, m'. conjs; auto. }
  unfold bind at 1, get at 1.
  assert (Hmd1 : exists md1, dict_get model_name (service_metrics lb1)
                             = Some md1).
  { unfold metrics_of in Hm1.
    destruct (dict_get model_name (service_metrics lb1)); [eauto|discriminate]. }
  destruct Hmd1 as [md1 Hmd1].
  unfold bind at 1, subscript at 1. rewrite Hmd1. unfold ret at 1.
  unfold bind at 1.
  destruct (balance_label md1 m' lb1) as [[label|e] lb2] eqn:Hlab.
  2:{ assert (lb2 = lb1) as ->.
      { revert Hlab. unfold balance_label.
        destruct (map weight _); [unfold ret; congruence|].
        unfold bind, truediv.
        destruct (py_truediv _ _); unfold ret, raise; [|congruence].
        destruct (py_truediv _ _); unfold ret, raise; congruence. }
      exists (Raise e), lb1, m'. conjs; auto. intros; discriminate. }
  assert (lb2 = lb1) as ->.
  { revert Hlab. unfold balance_label.
    destruct (map weight _); [unfold ret; congruence|].
    unfold bind, truediv.
    destruct (py_truediv _ _); unfold ret, raise; [|congruence].
    destruct (py_truediv _ _); unfold ret, raise; congruence. }
  pose proof (update_metrics_spec model_name node (with_lb_state label) lb1)
    as Hupd.
  rewrite Hm1 in Hupd. rewrite Hupd.
  exists (Ok tt), (set_metrics model_name node (with_lb_state label m') lb1),
    (with_lb_state label m').
  conjs; auto.
  - rewrite weights_of_set_metrics. exact Hw1.
  - eapply metrics_of_set_metrics_same. exact Hmd1.
  - eapply only_at_trans; [exact Hfr|].
    intros model' node' Hne. split.
    + apply weights_of_set_metrics.
    + now apply metrics_of_set_metrics_other.
Qed.

(** The guard of [update_instance_metrics]: without a metrics entry under
    the two keys the call returns at once. *)
Lemma commit_unknown_returns lb model_name node response_time is_error
    token_count current_time :
  metrics_of lb model_name node = None ->
  update_instance_metrics model_name node response_time is_error token_count
    current_time lb = (Ok tt, lb).
Proof.
  unfold metrics_of, update_instance_metrics, bind, get. intros H.
  destruct (dict_get model_name (service_metrics lb)) as [md|];
    [rewrite H|]; reflexivity.
Qed.

(** C10: a commit for an unknown model, or for an identifier that is not
    an instance name of the model (the [host:port] identifier, say),
    returns without raising and leaves the whole store as it was. *)
Theorem commit_unknown_is_silent (lb : balancer) (model_name node : string)
    (response_time : pynum) (is_error : bool) (token_count : pyval)
    (current_time : float) :
  metrics_of lb model_name node = None ->
  update_instance_metrics model_name node response_time is_error token_count
    current_time lb = (Ok tt, lb).
Proof. apply commit_unknown_returns. Qed.

(** ** Reachable stores *)

(** The stores the process can be in: the one [initialize] builds, and
    those any call of [get_next_instance] or [update_instance_metrics]
    leaves behind, whether it returns or raises. *)
Inductive reachable (clock : nat -> float) (cfg : model_instances)
  : balancer -> Prop :=
  | reach_initialize : reachable clock cfg (initialize clock cfg)
  | reach_select lb model_name :
      reachable clock cfg lb ->
      reachable clock cfg (snd (get_next_instance model_name lb))
  | reach_commit lb model_name node response_time is_error token_count now :
      reachable clock cfg lb ->
      reachable clock cfg
        (snd (update_instance_metrics model_name node response_time is_error
                token_count now lb)).

(** A healthy instance has at most three failures in a row behind it. *)
Definition healthy_bound (lb : balancer) : Prop :=
  forall model_name node m w,
    metrics_of lb model_name node = Some m ->
    weights_of lb model_name node = Some w ->
    0 <= history_failures w
    /\ (status m = Healthy -> history_failures w <= 3).

Lemma dict_get_set_inv {V : Type} (k k' : string) (v x : V) (d : pydict V) :
  dict_get k' (dict_set k v d) = Some x -> x = v \/ dict_get k' d = Some x.
Proof.
  destruct (string_dec k k') as [->|Hne].
  - rewrite dict_get_set_same. intros [= ->]. now left.
  - rewrite dict_get_set_other by assumption. now right.
Qed.

Lemma init_instances_fresh clock k instances wd md wd' md' k' node w :
  init_instances clock k instances wd md = (wd', md', k') ->
  dict_get node wd' = Some w ->
  history_failures w = 0 \/ dict_get node wd = Some w.
Proof.
  revert k wd md. induction instances as [|i rest IH]; simpl; intros k wd md.
  - intros [= -> -> ->] H. now right.
  - intros Hrun Hget. destruct (IH _ _ _ Hrun Hget) as [H|H]; [now left|].
    apply dict_get_set_inv in H. destruct H as [->|H]; [now left|now right].
Qed.

Lemma init_models_fresh clock cfg :
  forall k lb,
    (forall model_name node w,
        weights_of lb model_name node = Some w -> history_failures w = 0) ->
    forall model_name node w,
      weights_of (init_models clock k cfg lb) model_name node = Some w ->
      history_failures w = 0.
Proof.
  induction cfg as [|[name instances] rest IH]; simpl; intros k lb Hlb; auto.
  destruct (init_instances clock k instances [] []) as [[wd md] k'] eqn:Hi.
  apply IH. intros model_name node w. unfold weights_of. simpl.
  destruct (dict_get model_name (dict_set name wd (service_weights lb)))
    as [wd0|] eqn:Hd; [|discriminate].
  apply dict_get_set_inv in Hd. destruct Hd as [->|Hd].
  - intros Hn. destruct (init_instances_fresh _ _ _ _ _ _ _ _ _ _ Hi Hn)
      as [H|H]; [exact H|discriminate].
  - intros Hn. apply (Hlb model_name node). unfold weights_of. now rewrite Hd.
Qed.

Lemma healthy_bound_initialize clock cfg :
  healthy_bound (initialize clock cfg).
Proof.
  intros model_name node m w _ Hw.
  assert (history_failures w = 0) as ->; [|lia].
  eapply (init_models_fresh clock cfg 0); [|exact Hw].
  intros ? ? ?. unfold weights_of. simpl. discriminate.
Qed.

Lemma healthy_bound_same_health lb lb' :
  same_health lb lb' -> healthy_bound lb -> healthy_bound lb'.
Proof.
  intros Hs Hb model_name node m w Hm Hw.
  destruct (Hs model_name node) as [Hst Hhf]. rewrite Hm, Hw in *. simpl in *.
  destruct (metrics_of lb model_name node) as [m0|] eqn:Em; [|discriminate].
  destruct (weights_of lb model_name node) as [w0|] eqn:Ew; [|discriminate].
  simpl in *. injection Hst as Hst. injection Hhf as _ Hhf.
  destruct (Hb model_name node m0 w0 Em Ew). rewrite Hst, Hhf.
  split; auto.
Qed.

Lemma healthy_bound_commit lb model_name node response_time is_error
    token_count now :
  healthy_bound lb ->
  healthy_bound
    (snd (update_instance_metrics model_name node response_time is_error
            token_count now lb)).
Proof.
  intros Hb.
  destruct (metrics_of lb model_name node) as [m|] eqn:Hm.
  2:{ now rewrite commit_unknown_returns. }
  destruct (weights_of lb model_name node) as [w|] eqn:Hw.
  2:{ assert (Hsame : snd (update_instance_metrics model_name node
                             response_time is_error token_count now lb) = lb).
      { unfold update_instance_metrics, bind, get. unfold metrics_of in Hm.
        unfold weights_of in Hw.
        destruct (dict_get model_name (service_metrics lb)); [|reflexivity].
        rewrite Hm. unfold subscript.
        destruct (dict_get model_name (service_weights lb)); simpl; auto.
        now rewrite Hw. }
      now rewrite Hsame. }
  destruct (update_node response_time is_error token_count now (m, w))
    as [r0 [m' w']] eqn:Hrun.
  destruct (commit_known _ _ _ _ _ _ _ _ _ Hm Hw _ _ _ Hrun)
    as (r & lb' & m'' & -> & Hw' & Hm' & Hst & _ & _ & Hfr & _).
  simpl. pose proof (update_node_spec response_time is_error token_count now
                       m w) as Hspec.
  rewrite Hrun in Hspec. destruct Hspec as [Hspec _].
  destruct (Hb _ _ _ _ Hm Hw) as [H0 H3].
  intros model' node' m1 w1 Hm1 Hw1.
  destruct (string_dec model' model_name) as [->|Hne];
    [destruct (string_dec node' node) as [->|Hne]|].
  - rewrite Hm1 in Hm'. rewrite Hw1 in Hw'.
    injection Hm' as ->. injection Hw' as ->. rewrite Hst.
    destruct r0 as [[]|e].
    + destruct Hspec as (-> & -> & _).
      unfold controlled, controlled_status. destruct is_error; simpl.
      * destruct (3 <? history_failures w + 1) eqn:E.
        -- split; [lia|discriminate].
        -- apply Z.ltb_ge in E. split; [lia|intros; lia].
      * split; [lia|intros; lia].
    + destruct Hspec as [-> ->]. auto.
  - destruct (Hfr model_name node') as [Ew Em]; [congruence|].
    rewrite Ew in Hw1. rewrite Em in Hm1. eapply Hb; eauto.
  - destruct (Hfr model' node') as [Ew Em]; [congruence|].
    rewrite Ew in Hw1. rewrite Em in Hm1. eapply Hb; eauto.
Qed.

Lemma reachable_healthy_bound clock cfg lb :
  reachable clock cfg lb -> healthy_bound lb.
Proof.
  induction 1.
  - apply healthy_bound_initialize.
  - eapply healthy_bound_same_health; [|eassumption].
    apply same_health_get_next_instance.
  - now apply healthy_bound_commit.
Qed.

(** ** The failure-demotion scenario *)

Definition instance (name : string) (initial_weight : Z) : instance_cfg :=
  {| cfg_name := name;
     cfg_hostname := Some "10.0.0.1"%string;
     cfg_instance_id := "10.0.0.1:8000"%string;
     cfg_initial_weight := Some (PInt initial_weight);
     cfg_load_threshold := None |}.

(** A clock that reads whole seconds from 1000 on. *)
Definition seconds (k : nat) : float := float_of_Z (1000 + Z.of_nat k).

(** Model [m] with the single instance [A] of weight 20. *)
Definition demotion_cfg : model_instances :=
  [("m"%string, [instance "A" 20])].

Definition demotion_start : balancer := initialize seconds demotion_cfg.

(** [n] error commits with [rtMs = 100], one second apart. *)
Fixpoint error_commits (n : nat) (lb : balancer) : balancer :=
  match n with
  | O => lb
  | S n' =>
      snd (update_instance_metrics "m" "A" (PInt 100) true (VNum (PInt 0))
             (seconds n) (error_commits n' lb))
  end.

Definition weight_after (n : nat) : option pynum :=
  option_map effective_weight
    (weights_of (error_commits n demotion_start) "m" "A").

Definition status_after (n : nat) : option node_status :=
  option_map status (metrics_of (error_commits n demotion_start) "m" "A").

Definition failures_after (n : nat) : option Z :=
  option_map history_failures
    (weights_of (error_commits n demotion_start) "m" "A").

(** What a commit on the known instance with entries [m], [w] leaves. *)
Definition controller_post (lb : balancer) (model_name node : string)
    (response_time : pynum) (is_error : bool) (token_count : pyval)
    (now : float) (m : metrics) (w : weights) : Prop :=
  exists m' w',
    let lb' := snd (update_instance_metrics model_name node response_time
                      is_error token_count now lb) in
    metrics_of lb' model_name node = Some m'
    /\ weights_of lb' model_name node = Some w'
    /\ (is_error = true ->
        effective_weight w'
        = py_max (PInt 5) (py_mul (effective_weight w) (PFloat 0.8))
        /\ history_failures w' = history_failures w + 1)
    /\ (is_error = false ->
        history_failures w' = 0
        /\ effective_weight w'
           = py_min (PInt 100) (py_mul (effective_weight w) (PFloat 1.05)))
    /\ (status m = Healthy /\ status m' = Warning
        <-> status m = Healthy /\ is_error = true
            /\ history_failures w = 3 /\ history_failures w' = 4).

(** C7 (amended): on a reachable store, a commit on a known instance whose
    load threshold is not zero multiplies the effective weight by 0.8 with
    floor 5 and counts the failure on an error, and resets the count and
    multiplies by 1.05 with ceiling 100 on a success; a healthy instance
    enters [Warning] exactly when its failure count goes from 3 to 4.
    From weight 20, four error commits give the binary64 products
    16, 12.8, 10.240000000000002 and 8.192000000000002, with [Warning]
    entered at the fourth. *)
Theorem weight_controller (clock : nat -> float) (cfg : model_instances)
    (lb : balancer) (model_name node : string) (response_time : pynum)
    (is_error : bool) (token_count : pyval) (now : float)
    (m : metrics) (w : weights) :
  reachable clock cfg lb ->
  metrics_of lb model_name node = Some m ->
  weights_of lb model_name node = Some w ->
  as_number token_count <> None ->
  py_eq (load_threshold m) (PInt 0) = false ->
  controller_post lb model_name node response_time is_error token_count now
    m w
  /\ map weight_after [1; 2; 3; 4]%nat
     = [Some (PFloat 16); Some (PFloat 12.8);
        Some (PFloat 10.240000000000002); Some (PFloat 8.192000000000002)]
  /\ map status_after [1; 2; 3; 4]%nat
     = [Some Healthy; Some Healthy; Some Healthy; Some Warning]
  /\ failures_after 4 = Some 4.
Proof.
  intros Hreach Hm Hw Htok Hthr.
  split; [|vm_compute; repeat split; reflexivity].
  destruct (update_node response_time is_error token_count now (m, w))
    as [r0 [m1 w1]] eqn:Hrun.
  destruct (commit_known _ _ _ _ _ _ _ _ _ Hm Hw _ _ _ Hrun)
    as (r & lb' & m' & Hc & Hw' & Hm' & Hst & _ & _ & _ & _).
  pose proof (update_node_spec response_time is_error token_count now m w)
    as Hspec.
  rewrite Hrun in Hspec. destruct Hspec as [Hspec Hok].
  rewrite (Hok Htok Hthr) in Hspec. destruct Hspec as (-> & Hst1 & _).
  destruct (reachable_healthy_bound _ _ _ Hreach _ _ _ _ Hm Hw) as [H0 H3].
  exists m', (controlled is_error w). rewrite Hc. cbn [snd].
  split; [exact Hm'|]. split; [exact Hw'|].
  rewrite Hst, Hst1. unfold controlled, controlled_status.
  split; [|split].
  - intros ->. split; reflexivity.
  - intros ->. split; reflexivity.
  - destruct is_error; simpl.
    + destruct (3 <? history_failures w + 1) eqn:E.
      * apply Z.ltb_lt in E. split.
        -- intros [Hh _]. specialize (H3 Hh). repeat split; auto; lia.
        -- intros (Hh & _). split; auto.
      * apply Z.ltb_ge in E. split.
        -- intros [Hh Hwarn]. congruence.
        -- intros (_ & _ & H33 & _). lia.
    + split.
      * intros [Hh Hwarn]. congruence.
      * intros (_ & Hf & _). discriminate.
Qed.

Definition demotion_third : balancer := error_commits 3 demotion_start.

Definition demotion_metrics : metrics :=
  Eval vm_compute in
    match metrics_of demotion_third "m" "A" with
    | Some m => m
    | None => initial_metrics 0 (instance "A" 20)
    end.

Definition demotion_weights : weights :=
  Eval vm_compute in
    match weights_of demotion_third "m" "A" with
    | Some w => w
    | None => initial_weights (instance "A" 20)
    end.

Lemma weight_controller_witness :
  reachable seconds demotion_cfg demotion_third
  /\ metrics_of demotion_third "m" "A" = Some demotion_metrics
  /\ weights_of demotion_third "m" "A" = Some demotion_weights
  /\ as_number (VNum (PInt 0)) <> None
  /\ py_eq (load_threshold demotion_metrics) (PInt 0) = false
  /\ controller_post demotion_third "m" "A" (PInt 100) true (VNum (PInt 0))
       (seconds 4) demotion_metrics demotion_weights.
Proof.
  assert (Hr : reachable seconds demotion_cfg demotion_third).
  { unfold demotion_third. cbn [error_commits].
    do 3 apply reach_commit. apply reach_initialize. }
  assert (Hm : metrics_of demotion_third "m" "A" = Some demotion_metrics)
    by (vm_compute; reflexivity).
  assert (Hw : weights_of demotion_third "m" "A" = Some demotion_weights)
    by (vm_compute; reflexivity).
  assert (Ht : as_number (VNum (PInt 0)) <> None) by discriminate.
  assert (Hl : py_eq (load_threshold demotion_metrics) (PInt 0) = false)
    by (vm_compute; reflexivity).
  repeat (split; [assumption|]).
  exact (proj1 (weight_controller seconds demotion_cfg demotion_third "m" "A"
                  (PInt 100) true (VNum (PInt 0)) (seconds 4)
                  demotion_metrics demotion_weights Hr Hm Hw Ht Hl)).
Defined.

(** The third and fourth weights are not the decimals 10.24 and 8.192:
    the products are rounded to binary64 at every step. *)
Lemma demotion_weights_are_rounded :
  weight_after 3 = Some (PFloat 10.240000000000002)
  /\ py_eq (PFloat 10.240000000000002) (PFloat 10.24) = false
  /\ weight_after 4 = Some (PFloat 8.192000000000002)
  /\ py_eq (PFloat 8.192000000000002) (PFloat 8.192) = false
  /\ map weight_after [1; 2; 3; 4]%nat
     <> [Some (PFloat 16); Some (PFloat 12.8);
         Some (PFloat 10.24); Some (PFloat 8.192)].
Proof.
  repeat split; try (vm_compute; reflexivity).
  intros H.
  apply (f_equal (fun l => match nth 2 l None with
                           | Some x => py_eq x (PFloat 10.24)
                           | None => true
                           end)) in H.
  vm_compute in H. discriminate.
Qed.

(** ** Selection *)

(** Without a healthy instance the selector raises 503 and leaves the
    store as it was. *)
Lemma select_loop_skips model_name (items : pydict metrics) :
  (forall k m, In (k, m) items -> status m = Warning) ->
  forall sel lb,
    for_each items sel (select_body model_name) lb = (Ok sel, lb).
Proof.
  induction items as [|[k m] items IH]; intros Hall sel lb; cbn [for_each];
    auto.
  unfold bind. unfold select_body at 1.
  rewrite (Hall k m) by now left. simpl.
  apply IH. intros k' m' Hin. apply (Hall k' m'). now right.
Qed.

Lemma select_none_healthy lb model_name md wd :
  dict_get model_name (service_metrics lb) = Some md ->
  dict_get model_name (service_weights lb) = Some wd ->
  (forall k m, In (k, m) md -> status m = Warning) ->
  get_next_instance model_name lb
  = (Raise (HTTPException 503 (NoHealthyNode model_name)), lb).
Proof.
  intros Hmd Hwd Hall. unfold get_next_instance, bind at 1, get at 1.
  rewrite Hmd. unfold bind at 1, subscript at 1. rewrite Hwd.
  unfold ret at 1. unfold bind at 1.
  now rewrite select_loop_skips.
Qed.

(** The loop variable [best] is only ever set from a healthy entry. *)
Definition chosen_from (items : pydict metrics) (sel : selection) : Prop :=
  match best sel with
  | None => True
  | Some b =>
      exists m, In (get_node_id sel, m) items
                /\ status m = Healthy /\ node_id m = b
  end.

Lemma select_body_chosen model_name sel node m lb sel' lb' items :
  chosen_from items sel ->
  select_body model_name sel (node, m) lb = (Ok sel', lb') ->
  chosen_from (items ++ [(node, m)]) sel'.
Proof.
  intros Hc. unfold select_body.
  assert (Hweak : chosen_from (items ++ [(node, m)]) sel).
  { unfold chosen_from in *. destruct (best sel); auto.
    destruct Hc as (m0 & Hin & Hrest). exists m0. split; auto.
    apply in_or_app. now left. }
  destruct (status m) eqn:Hst; simpl.
  2:{ intros [= <- <-]. exact Hweak. }
  unfold bind at 1.
  destruct (get_weights model_name node lb) as [[w|e] lb1]; [|discriminate].
  unfold bind at 1.
  destruct (update_weights _ _ _ lb1) as [[[]|e] lb2]; [|discriminate].
  destruct (py_gt _ _); intros [= <- <-].
  - unfold chosen_from. simpl. exists m. repeat split; auto.
    apply in_or_app. right. now left.
  - unfold chosen_from in *. simpl. exact Hweak.
Qed.

Lemma select_loop_chosen model_name (items : pydict metrics) :
  forall pre sel lb sel' lb',
    chosen_from pre sel ->
    for_each items sel (select_body model_name) lb = (Ok sel', lb') ->
    chosen_from (pre ++ items) sel'.
Proof.
  induction items as [|[k m] items IH]; intros pre sel lb sel' lb' Hc;
    cbn [for_each].
  - intros [= <- <-]. now rewrite app_nil_r.
  - unfold bind.
    destruct (select_body model_name sel (k, m) lb) as [[sel1|e] lb1] eqn:Hb;
      [|intros; discriminate].
    intros Hrest.
    replace (pre ++ (k, m) :: items) with ((pre ++ [(k, m)]) ++ items)
      by now rewrite <- app_assoc.
    eapply IH; [|exact Hrest]. eapply select_body_chosen; eauto.
Qed.

(** When the selector returns, it returns the name and the identifier of
    a healthy entry of the model. *)
Lemma select_returns_healthy lb model_name name id lb' :
  get_next_instance model_name lb = (Ok (name, id), lb') ->
  exists md m,
    dict_get model_name (service_metrics lb) = Some md
    /\ In (name, m) md /\ status m = Healthy /\ node_id m = id.
Proof.
  unfold get_next_instance, bind at 1, get at 1.
  destruct (dict_get model_name (service_metrics lb)) as [md|];
    [|discriminate].
  unfold bind at 1.
  destruct (subscript (service_weights lb) model_name lb) as [[wd|e] lb0];
    [|discriminate].
  unfold bind at 1.
  destruct (for_each md selection_start (select_body model_name) lb0)
    as [[sel|e] lb1] eqn:Hloop; [|discriminate].
  pose proof (select_loop_chosen model_name md [] selection_start lb0 sel lb1
                I Hloop) as Hc.
  unfold chosen_from in Hc. simpl in Hc.
  destruct (best sel) as [b|]; [|discriminate].
  unfold bind at 1.
  destruct (update_weights _ _ _ lb1) as [[[]|e] lb2]; [|discriminate].
  unfold bind at 1.
  destruct (update_metrics _ _ _ lb2) as [[[]|e] lb3]; [|discriminate].
  intros [= <- <- <-]. destruct Hc as (m & Hin & Hst & Hid).
  exists md, m. auto.
Qed.

(** ** The fairness scenario: [A(w=3)], [B(w=1)] *)

Definition fairness_cfg : model_instances :=
  [("m"%string, [instance "A" 3; instance "B" 1])].

(** The names picked by [n] consecutive selections, and the store left. *)
Fixpoint picks (n : nat) (lb : balancer) : list (result string) :=
  match n with
  | O => []
  | S n' =>
      let '(r, lb') := get_next_instance "m" lb in
      match r with
      | Ok (name, _) => Ok name
      | Raise e => Raise e
      end :: picks n' lb'
  end.

Definition current_weights (lb : balancer) : list (option pynum) :=
  map (fun node => option_map current_weight (weights_of lb "m" node))
    ["A"%string; "B"%string].

(** C1: on [A(w=3)], [B(w=1)] with the initial current weights [3, 1],
    eight selections pick A, B, A, A, A, B, A, A, and the first of them
    takes 8 = 6 + 2, the sum of the raised current weights, off the
    winner, where smooth weighted round robin takes the sum 4 of the
    effective weights. *)
Theorem swrr_eight_selections :
  current_weights (initialize seconds fairness_cfg)
  = [Some (PInt 3); Some (PInt 1)]
  /\ picks 8 (initialize seconds fairness_cfg)
     = [Ok "A"; Ok "B"; Ok "A"; Ok "A"; Ok "A"; Ok "B"; Ok "A"; Ok "A"]%string
  /\ current_weights
       (snd (get_next_instance "m" (initialize seconds fairness_cfg)))
     = [Some (PInt (3 + 3 - 8)); Some (PInt (1 + 1))].
Proof. vm_compute. repeat split; reflexivity. Qed.

(** ** The starvation scenario: [A(w=5)], [B(w=5)] *)

Definition starvation_cfg : model_instances :=
  [("m"%string, [instance "A" 5; instance "B" 5])].

Definition commit_error_B (now : float) (lb : balancer) : balancer :=
  snd (update_instance_metrics "m" "B" (PInt 100) true (VNum (PInt 0)) now lb).

(** One selection, which picks [A], then four error commits on [B]. *)
Definition starved : balancer :=
  commit_error_B (seconds 4)
    (commit_error_B (seconds 3)
       (commit_error_B (seconds 2)
          (commit_error_B (seconds 1)
             (snd (get_next_instance "m"
                     (initialize seconds starvation_cfg)))))).

(** C6: a reachable store in which instance [A] is healthy and the
    selector nevertheless raises 503: the current weight of [A], [-10]
    after its selection, is [-5] once raised by its effective weight, and
    the loop keeps an instance only above [best_weight = 0]. *)
Theorem select_fails_with_healthy_instance :
  reachable seconds starvation_cfg starved
  /\ option_map status (metrics_of starved "m" "A") = Some Healthy
  /\ option_map status (metrics_of starved "m" "B") = Some Warning
  /\ current_weights starved = [Some (PInt (-10)); Some (PInt 10)]
  /\ fst (get_next_instance "m" starved)
     = Raise (HTTPException 503 (NoHealthyNode "m")).
Proof.
  split.
  - unfold starved, commit_error_B.
    do 4 apply reach_commit. apply reach_select. apply reach_initialize.
  - vm_compute. repeat split; reflexivity.
Qed.

(** ** The exceptions of a commit *)

(** [update_instance_metrics] raises nothing but [KeyError], [TypeError]
    and [ZeroDivisionError]. *)
Definition plain_error (e : exn) : Prop :=
  e = KeyError \/ e = TypeError \/ e = ZeroDivisionError.

Lemma plain_KeyError : plain_error KeyError.
Proof. now left. Qed.
Lemma plain_TypeError : plain_error TypeError.
Proof. right. now left. Qed.
Lemma plain_ZeroDivisionError : plain_error ZeroDivisionError.
Proof. right. now right. Qed.

#[local] Hint Resolve plain_KeyError plain_TypeError plain_ZeroDivisionError
  : health.

Lemma raises_truediv {St : Type} (a c : pynum) :
  raises_only plain_error (truediv (St := St) a c).
Proof.
  unfold truediv. destruct (py_truediv a c);
    [apply raises_ret|apply raises_raise; auto with health].
Qed.

Lemma raises_set_m f : raises_only plain_error (set_m f).
Proof. intros s e s'. unfold set_m. discriminate. Qed.

Lemma raises_set_w f : raises_only plain_error (set_w f).
Proof. intros s e s'. unfold set_w. discriminate. Qed.

Lemma raises_the_m : raises_only plain_error the_m.
Proof. intros s e s'. unfold the_m. discriminate. Qed.

Lemma raises_the_w : raises_only plain_error the_w.
Proof. intros s e s'. unfold the_w. discriminate. Qed.

Ltac plain :=
  repeat first
    [ apply raises_ret | apply raises_get | apply raises_put
    | apply raises_set_m | apply raises_set_w
    | apply raises_the_m | apply raises_the_w
    | apply raises_truediv
    | apply raises_raise; solve [auto with health]
    | apply raises_subscript; solve [auto with health]
    | apply raises_bind; [|intros] ].

Lemma raises_update_node response_time is_error token_count current_time :
  raises_only plain_error
    (update_node response_time is_error token_count current_time).
Proof.
  unfold update_node. plain.
  - unfold num_plus. destruct (as_number token_count); plain.
  - destruct (load_history _); plain.
    cbv zeta. destruct (last (sorted_by_time _) _). plain.
    destruct (py_gt _ _); plain.
  - destruct is_error; plain.
    destruct (3 <? _); plain.
Qed.

Lemma raises_update_instance_metrics model_name node response_time is_error
    token_count current_time :
  raises_only plain_error
    (update_instance_metrics model_name node response_time is_error
       token_count current_time).
Proof.
  unfold update_instance_metrics. plain.
  destruct (dict_get model_name _) as [md|]; plain.
  destruct (dict_get node md) as [m|]; plain.
  destruct (update_node _ _ _ _ _) as [r [m' w']] eqn:Hrun. plain.
  destruct r as [[]|e]; plain.
  - unfold balance_label. destruct (map weight _); plain.
  - apply raises_raise. eapply raises_update_node. exact Hrun.
Qed.

End BalancerFacts.

(* ================================================================== *)
(** * The metrics snapshots *)
(* ================================================================== *)

Module MetricsFacts.
Import Balancer BalancerFacts.

Section Snapshots.

Variable rt : runtime.

(** Two readings of the clock that the global snapshot cannot tell
    apart: they print the same, and each instance was updated within the
    last ten seconds of both or of neither. *)
Definition recent (t : float) (m : metrics) : bool :=
  py_ge (PFloat (last_update m)) (py_sub (PFloat t) (PInt 10)).

Definition same_reading (lb : balancer) (t1 t2 : float) : Prop :=
  strftime_local rt t1 = strftime_local rt t2
  /\ Forall (fun entry : string * pydict metrics =>
               Forall (fun m => recent t1 m = recent t2 m)
                 (dict_values (snd entry)))
       (service_metrics lb).

(** No field of the combined snapshot is zero. *)
Definition nonzero (x : pynum) : Prop := py_eq x (PInt 0) = false.

Definition node_nonzero (m : metrics) : Prop :=
  nonzero (load_rate m) /\ nonzero (token_total m)
  /\ nonzero (inference_time m) /\ nonzero (weight m).

Definition global_nonzero (g : global_view) : Prop :=
  nonzero (g_nodes g) /\ nonzero (g_healthy g) /\ nonzero (g_lb_degree g)
  /\ nonzero (g_token_total g) /\ nonzero (g_avg_inference g)
  /\ nonzero (g_avg_load g) /\ nonzero (g_active g)
  /\ nonzero (g_throughput g).

Definition no_zero_field (t : float) (lb : balancer) : Prop :=
  Forall (fun entry : string * pydict metrics =>
            Forall node_nonzero (dict_values (snd entry))
            /\ global_nonzero (global_of rt t (snd entry)))
    (service_metrics lb).

Lemma total_requests_same t1 t2 (values : list metrics) :
  Forall (fun m => recent t1 m = recent t2 m) values ->
  forall acc,
    fold_left
      (fun total_requests m =>
         if py_ge (PFloat (last_update m)) (py_sub (PFloat t1) (PInt 10))
         then total_requests + request_count m else total_requests)
      values acc
    = fold_left
        (fun total_requests m =>
           if py_ge (PFloat (last_update m)) (py_sub (PFloat t2) (PInt 10))
           then total_requests + request_count m else total_requests)
        values acc.
Proof.
  induction 1 as [|m values Hm _ IH]; intros acc; cbn [fold_left]; auto.
  unfold recent in Hm. rewrite Hm. apply IH.
Qed.

Lemma global_of_same t1 t2 md :
  strftime_local rt t1 = strftime_local rt t2 ->
  Forall (fun m => recent t1 m = recent t2 m) (dict_values md) ->
  global_of rt t1 md = global_of rt t2 md.
Proof.
  intros Hs Hr. unfold global_of, total_requests_of.
  rewrite (total_requests_same t1 t2 _ Hr), Hs. reflexivity.
Qed.

Lemma global_fold_same t1 t2 (models : pydict (pydict metrics)) :
  strftime_local rt t1 = strftime_local rt t2 ->
  Forall (fun entry : string * pydict metrics =>
            Forall (fun m => recent t1 m = recent t2 m)
              (dict_values (snd entry))) models ->
  forall acc,
    fold_left
      (fun result '(model_name, metrics_dict) =>
         dict_set model_name (global_of rt t1 metrics_dict) result)
      models acc
    = fold_left
        (fun result '(model_name, metrics_dict) =>
           dict_set model_name (global_of rt t2 metrics_dict) result)
        models acc.
Proof.
  intros Hs. induction 1 as [|[name md] models Hm _ IH]; intros acc; simpl;
    auto.
  rewrite (global_of_same t1 t2 md Hs Hm). apply IH.
Qed.

Lemma random_if_zero_nonzero val rfunc g :
  nonzero val -> random_if_zero rt val rfunc g = (Ok val, g).
Proof. unfold nonzero, random_if_zero. now intros ->. Qed.

Lemma random_view_nonzero node g :
  node_nonzero node -> random_view rt node g = (Ok (view_of node), g).
Proof.
  intros (H1 & H2 & H3 & H4). unfold random_view, bind.
  now rewrite !random_if_zero_nonzero.
Qed.

Lemma random_global_nonzero gv g :
  global_nonzero gv -> random_global rt gv g = (Ok gv, g).
Proof.
  intros (H1 & H2 & H3 & H4 & H5 & H6 & H7 & H8). unfold random_global, bind.
  rewrite !random_if_zero_nonzero by assumption. now destruct gv.
Qed.

Lemma views_nonzero (nodes : list metrics) g :
  Forall node_nonzero nodes ->
  forall acc,
    for_each nodes acc
      (fun acc node => v <- random_view rt node ;; ret (acc ++ [v])) g
    = (Ok (acc ++ map view_of nodes), g).
Proof.
  induction 1 as [|node nodes Hn _ IH]; intros acc; simpl.
  - now rewrite app_nil_r.
  - unfold bind at 1. unfold bind at 1. rewrite (random_view_nonzero _ _ Hn).
    unfold ret at 1. rewrite IH. now rewrite <- app_assoc.
Qed.

Lemma insert_by_name_In x y l :
  In y (insert_by_name x l) -> y = x \/ In y l.
Proof.
  induction l as [|z l IH]; simpl.
  - intros [<-|[]]. now left.
  - destruct (String.ltb (node_name z) (node_name x)); simpl.
    + intros [<-|H]; [right; now left|].
      destruct (IH H); [now left|right; now right].
    + intros [<-|[<-|H]]; [now left|right; now left|right; now right].
Qed.

Lemma sorted_by_name_In y l : In y (sorted_by_name l) -> In y l.
Proof.
  induction l as [|x l IH]; simpl; auto.
  intros H. apply insert_by_name_In in H. destruct H as [->|H]; auto.
Qed.

Lemma sorted_nonzero l :
  Forall node_nonzero l -> Forall node_nonzero (sorted_by_name l).
Proof.
  intros H. apply Forall_forall. intros y Hy.
  apply sorted_by_name_In in Hy. rewrite Forall_forall in H. auto.
Qed.

Lemma combined_nonzero t (models : pydict (pydict metrics)) g :
  Forall (fun entry : string * pydict metrics =>
            Forall node_nonzero (dict_values (snd entry))
            /\ global_nonzero (global_of rt t (snd entry))) models ->
  forall acc,
    for_each models acc
      (fun result '(model_name, metrics_dict) =>
         let sorted_nodes := sorted_by_name (dict_values metrics_dict) in
         views <- for_each sorted_nodes []
                    (fun acc node =>
                       v <- random_view rt node ;; ret (acc ++ [v])) ;;
         gv <- random_global rt (global_of rt t metrics_dict) ;;
         ret {| global_metrics :=
                  dict_set model_name gv (global_metrics result);
                node_metrics :=
                  dict_set model_name views (node_metrics result) |}) g
    = (Ok {| global_metrics :=
               fold_left
                 (fun result '(model_name, metrics_dict) =>
                    dict_set model_name (global_of rt t metrics_dict) result)
                 models (global_metrics acc);
             node_metrics :=
               fold_left
                 (fun result '(model_name, metrics_dict) =>
                    dict_set model_name
                      (map view_of
                         (sorted_by_name (dict_values metrics_dict))) result)
                 models (node_metrics acc) |}, g).
Proof.
  induction 1 as [|[name md] models [Hn Hg] _ IH]; intros acc;
    cbn [for_each fold_left].
  - now destruct acc.
  - cbn [snd] in Hn, Hg. unfold bind at 1. unfold bind at 1.
    rewrite (views_nonzero _ g (sorted_nonzero _ Hn) []).
    unfold bind at 1. rewrite (random_global_nonzero _ _ Hg).
    unfold ret at 1. rewrite IH. reflexivity.
Qed.

(** C4 (amended): the per-node snapshot is a function of the metrics of
    the store alone.  The global snapshot also reads the clock: two reads
    of one store agree when their readings print the same and see the
    same instances as recently updated, whatever the fields of the store
    hold.  The combined snapshot also draws a random number for every
    field that is zero: when, besides, no field is zero, it is the pair
    of the other two, whatever the state of the generator. *)
Theorem snapshots_of_one_store (lb : balancer) (t1 t2 : float)
    (g1 g2 : rng rt) :
  same_reading lb t1 t2 ->
  (forall lb', service_metrics lb' = service_metrics lb ->
               get_service_metrics lb' = get_service_metrics lb)
  /\ get_global_metrics rt t1 lb = get_global_metrics rt t2 lb
  /\ (no_zero_field t1 lb ->
      fst (get_combined_metrics rt t1 lb g1)
      = Ok {| global_metrics := get_global_metrics rt t1 lb;
              node_metrics := get_service_metrics lb |}
      /\ fst (get_combined_metrics rt t2 lb g2)
         = fst (get_combined_metrics rt t1 lb g1)).
Proof.
  intros [Hs Hr].
  assert (Hg : get_global_metrics rt t1 lb = get_global_metrics rt t2 lb).
  { unfold get_global_metrics. now apply global_fold_same. }
  split; [|split; [exact Hg|]].
  - intros lb' H. unfold get_service_metrics. now rewrite H.
  - intros Hnz.
    assert (Hc1 : fst (get_combined_metrics rt t1 lb g1)
                  = Ok {| global_metrics := get_global_metrics rt t1 lb;
                          node_metrics := get_service_metrics lb |}).
    { unfold get_combined_metrics.
      rewrite (combined_nonzero t1 _ g1 Hnz). reflexivity. }
    assert (Hnz2 : no_zero_field t2 lb).
    { unfold no_zero_field in *. rewrite Forall_forall in *.
      intros entry Hin. destruct (Hnz entry Hin) as [Hn Hgl]. split; auto.
      rewrite <- (global_of_same t1 t2); auto. }
    split; [exact Hc1|].
    rewrite Hc1. unfold get_combined_metrics.
    rewrite (combined_nonzero t2 _ g2 Hnz2). cbn [fst].
    unfold get_global_metrics, get_service_metrics in *.
    f_equal. f_equal. symmetry. now apply global_fold_same.
Qed.

End Snapshots.

(** ** A store with no zero field, and a fresh one *)

Definition commit_ok_A (now : float) (lb : balancer) : balancer :=
  snd (update_instance_metrics "m" "A" (PFloat 120.5) false (VNum (PInt 99))
         now lb).

(** Two selections, then their two commits, three seconds apart. *)
Definition busy : balancer :=
  commit_ok_A (seconds 5)
    (commit_ok_A (seconds 2)
       (snd (get_next_instance "m"
               (snd (get_next_instance "m" demotion_start))))).

Lemma snapshots_witness :
  (same_reading Reference.runtime busy 1006.25 1006.75
   /\ no_zero_field Reference.runtime 1006.25 busy
   /\ get_global_metrics Reference.runtime 1006.25 busy
      = get_global_metrics Reference.runtime 1006.75 busy
   /\ fst (get_combined_metrics Reference.runtime 1006.25 busy [3; 1; 4])
      = Ok {| global_metrics :=
                get_global_metrics Reference.runtime 1006.25 busy;
              node_metrics := get_service_metrics busy |}
   /\ fst (get_combined_metrics Reference.runtime 1006.75 busy [2; 7])
      = fst (get_combined_metrics Reference.runtime 1006.25 busy [3; 1; 4]))
  /\ (same_reading Reference.runtime demotion_start 1005.25 1005.75
      /\ get_global_metrics Reference.runtime 1005.25 demotion_start
         = get_global_metrics Reference.runtime 1005.75 demotion_start).
Proof.
  assert (H1 : same_reading Reference.runtime busy 1006.25 1006.75).
  { split; [vm_compute; reflexivity|].
    vm_compute. repeat constructor. }
  assert (H2 : no_zero_field Reference.runtime 1006.25 busy).
  { unfold no_zero_field.
    remember (service_metrics busy) as models eqn:E.
    vm_compute in E. subst models.
    constructor; [|constructor]. cbn [snd dict_values map]. split.
    - constructor; [|constructor].
      repeat split; vm_compute; reflexivity.
    - repeat split; vm_compute; reflexivity. }
  assert (H3 : same_reading Reference.runtime demotion_start 1005.25 1005.75).
  { split; [vm_compute; reflexivity|].
    vm_compute. repeat constructor. }
  split.
  - split; [exact H1|]. split; [exact H2|].
    destruct (snapshots_of_one_store Reference.runtime busy 1006.25 1006.75
                [3; 1; 4] [2; 7] H1) as (_ & Hg & Hc).
    split; [exact Hg|]. exact (Hc H2).
  - split; [exact H3|].
    destruct (snapshots_of_one_store Reference.runtime demotion_start
                1005.25 1005.75 [] [] H3) as (_ & Hg & _).
    exact Hg.
Defined.

(** On the fresh store the token count of [A] is zero, and the combined
    snapshot reports a draw in its place: two reads differ with the
    draws.  The global snapshot differs with the second of the
    reading. *)
Lemma snapshots_differ_on_one_store :
  (exists a c,
      fst (get_combined_metrics Reference.runtime 1005 demotion_start
             [1; 2; 3; 4; 5; 6; 7; 8; 9]) = Ok a
      /\ fst (get_combined_metrics Reference.runtime 1005 demotion_start
                [1; 3; 3; 4; 5; 6; 7; 8; 9]) = Ok c
      /\ map (fun v => map v_token_total (snd v)) (node_metrics a)
         = [[PInt 102]]
      /\ map (fun v => map v_token_total (snd v)) (node_metrics c)
         = [[PInt 103]])
  /\ map (fun v => g_updated (snd v))
       (get_global_metrics Reference.runtime 1005 demotion_start)
     <> map (fun v => g_updated (snd v))
          (get_global_metrics Reference.runtime 1006 demotion_start).
Proof.
  split.
  - eexists _, _. repeat split; vm_compute; reflexivity.
  - vm_compute. discriminate.
Qed.

End MetricsFacts.

(* ================================================================== *)
(** * The proxy handler *)
(* ================================================================== *)

Module ProxyFacts.
Import Balancer PyText Proxy BalancerFacts.

Section Handler.

Variable env : environment.

(** A commit of the handler appends its call to the log, leaves the
    downstream bytes alone and raises nothing but a plain error. *)
Lemma commit_spec model_name node response_time is_error token_count w :
  exists r w',
    commit env model_name node response_time is_error token_count w = (r, w')
    /\ commits w'
       = commits w
           ++ [mkCommit model_name node response_time is_error token_count]
    /\ downstream w' = downstream w
    /\ lb w'
       = snd (update_instance_metrics model_name node response_time is_error
                token_count (clock env (ticks w)) (lb w))
    /\ (forall e, r = Raise e -> plain_error e).
Proof.
  unfold commit.
  destruct (update_instance_metrics model_name node response_time is_error
              token_count (clock env (ticks w)) (lb w)) as [r lb'] eqn:Hrun.
  eexists _, _. split; [reflexivity|]. cbn. repeat split.
  intros e ->. eapply raises_update_instance_metrics. exact Hrun.
Qed.

(** C3: a request for a model that is not configured leaves the whole
    process state as it was, and is answered with status 503: the 404 of
    the selector is caught by the handler and wrapped. *)
Theorem unknown_model_is_wrapped_in_503 (model_name path : string)
    (request : request) (w : world) :
  dict_get model_name (service_metrics (lb w)) = None ->
  serve env model_name path request w
  = (Failed (HTTPException 503
               (ServiceUnavailable
                  (HTTPException 404 (ModelNotConfigured model_name)))), w)
  /\ http_status (fst (serve env model_name path request w)) = 503.
Proof.
  intros H.
  assert (Hs : serve env model_name path request w
               = (Failed (HTTPException 503
                    (ServiceUnavailable
                       (HTTPException 404 (ModelNotConfigured model_name)))),
                  w)).
  { unfold serve, model_request, bind at 1, try_except at 1, next_instance,
      get_next_instance, bind at 1, get at 1.
    rewrite H. unfold raise. destruct w; reflexivity. }
  rewrite Hs. split; reflexivity.
Qed.

(** The byte scan for one key returns or raises [ValueError], and keeps
    the state. *)
Lemma scan_count_zero {St : Type} key content (s : St) :
  (exists t, scan_count key content zero s = (Ok t, s))
  \/ scan_count key content zero s = (Raise ValueError, s).
Proof.
  unfold scan_count.
  destruct (bytes_in key content); [|left; eexists; reflexivity].
  destruct (int_of_bytes _); [left|right; reflexivity].
  eexists. reflexivity.
Qed.

Definition elapsed (start_time now : float) : pynum :=
  PFloat ((now - start_time) * float_of_Z 1000)%float.

(** What the outer [except] does with the exception [e] of the body. *)
Lemma outer_handler_spec model_name instance_id start_time e w2 :
  is_http_exception e = true ->
  exists e' w',
    (resp_time <- elapsed_ms env start_time ;;
     commit env model_name instance_id resp_time true zero ;;;
     match e with
     | HttpxTimeoutException => raise (HTTPException 504 ModelRequestTimeout)
     | HTTPException _ _ => raise e
     | _ => raise (HTTPException 500 (InternalServerError e))
     end) w2 = (Raise (A := response) e', w')
    /\ (e' = e \/ plain_error e')
    /\ commits w'
       = commits w2
           ++ [mkCommit model_name instance_id
                 (elapsed start_time (clock env (ticks w2))) true zero]
    /\ downstream w' = downstream w2.
Proof.
  intros He. unfold bind at 1, elapsed_ms, bind at 1, time_time, ret.
  set (w3 := {| lb := lb w2; ticks := S (ticks w2); commits := commits w2;
                downstream := downstream w2 |}).
  destruct (commit_spec model_name instance_id
              (elapsed start_time (clock env (ticks w2))) true zero w3)
    as (r & w' & Hc & Hlog & Hdown & _ & Hexn).
  unfold elapsed in *. unfold bind at 1. rewrite Hc.
  destruct r as [[]|e0].
  - destruct e; try discriminate. unfold raise.
    eexists _, _. split; [reflexivity|]. repeat split; auto.
  - eexists _, _. split; [reflexivity|]. repeat split; auto.
Qed.

Lemma next_instance_log model_name w r w1 :
  next_instance model_name w = (r, w1) ->
  commits w1 = commits w /\ downstream w1 = downstream w
  /\ ticks w1 = ticks w.
Proof.
  unfold next_instance. destruct (get_next_instance model_name (lb w)).
  intros [= <- <-]. auto.
Qed.

(** The status the caller sees after the outer handler ran on an
    [HTTPException] of status [code]. *)
Lemma failed_status code d e :
  e = HTTPException code d \/ plain_error e ->
  http_status (Failed e) = code \/ http_status (Failed e) = 500.
Proof.
  intros [->|[->|[->| ->]]]; simpl; auto.
Qed.

(** C2: whatever the upstream answers on the unary path, status 200
    included, the handler raises before it commits: the free name [data]
    is looked up after the first byte scan.  The caller gets status 500,
    and the only commit is the one of the outer handler, with
    [is_error=True], no tokens, and the [host:port] identifier. *)
Theorem unary_response_is_answered_500 (model_name path : string)
    (request : request) (w w1 : world) (node_id instance_id : string)
    (status_code : Z) (headers : list (string * string)) (content : bytes) :
  next_instance model_name w = (Ok (node_id, instance_id), w1) ->
  truthy (stream_flag env request) = false ->
  unary env = UnaryResponse status_code headers content ->
  exists e w',
    serve env model_name path request w = (Failed e, w')
    /\ http_status (Failed e) = 500
    /\ commits w'
       = commits w
           ++ [mkCommit model_name instance_id
                 (elapsed (clock env (ticks w)) (clock env (S (ticks w))))
                 true zero]
    /\ downstream w' = downstream w.
Proof.
  intros Hsel Hflag Hun.
  destruct (next_instance_log _ _ _ _ Hsel) as (Hlog & Hdown & Htick).
  unfold serve, model_request. unfold bind at 1, try_except at 1.
  rewrite Hsel. unfold bind at 1, time_time at 1.
  set (w2 := {| lb := lb w1; ticks := S (ticks w1); commits := commits w1;
                downstream := downstream w1 |}).
  unfold try_except at 1. rewrite Hflag.
  assert (Hbody : exists inner,
             unary_path env model_name instance_id (clock env (ticks w1)) w2
             = (Raise (HTTPException 500 (InternalServerError inner)), w2)).
  { unfold unary_path, try_except. rewrite Hun. unfold bind at 1.
    destruct (scan_count_zero (b prompt_key) content w2) as [[t Ht]|Ht];
      rewrite Ht.
    - exists (NameError "data"). reflexivity.
    - exists ValueError. reflexivity. }
  destruct Hbody as [inner ->].
  destruct (outer_handler_spec model_name instance_id (clock env (ticks w1))
              (HTTPException 500 (InternalServerError inner)) w2 eq_refl)
    as (e' & w' & Hrun & He' & Hlog' & Hdown').
  rewrite Hrun. exists e', w'. split; [reflexivity|].
  split; [|split].
  - destruct (failed_status _ _ _ He'); assumption.
  - rewrite Hlog'. unfold w2. cbn [commits ticks]. now rewrite Hlog, Htick.
  - rewrite Hdown'. exact Hdown.
Qed.

(** C5: when the upstream of a streaming request answers with a status
    other than 200, the [HTTPException] carrying that status is caught by
    the inner [except Exception] and replaced by a 500; the commit of the
    outer handler has [is_error=True] and no tokens, under the
    [host:port] identifier. *)
Theorem stream_error_status_is_replaced_by_500 (model_name path : string)
    (request : request) (w w1 : world) (node_id instance_id : string)
    (status_code : Z) (text : string) (content_type : option string)
    (chunks : list bytes) (failure : option exn) :
  next_instance model_name w = (Ok (node_id, instance_id), w1) ->
  truthy (stream_flag env request) = true ->
  streaming env
  = StreamResponse status_code text content_type chunks failure ->
  status_code <> 200 ->
  exists e w',
    serve env model_name path request w = (Failed e, w')
    /\ http_status (Failed e) = 500
    /\ commits w'
       = commits w
           ++ [mkCommit model_name instance_id
                 (elapsed (clock env (ticks w)) (clock env (S (ticks w))))
                 true zero]
    /\ downstream w' = downstream w.
Proof.
  intros Hsel Hflag Hst Hcode.
  destruct (next_instance_log _ _ _ _ Hsel) as (Hlog & Hdown & Htick).
  unfold serve, model_request. unfold bind at 1, try_except at 1.
  rewrite Hsel. unfold bind at 1, time_time at 1.
  set (w2 := {| lb := lb w1; ticks := S (ticks w1); commits := commits w1;
                downstream := downstream w1 |}).
  unfold try_except at 1. rewrite Hflag.
  assert (Hbody :
            streaming_path env model_name node_id w2
            = (Raise (HTTPException 500
                        (InternalServerError
                           (HTTPException status_code
                              (StreamStatusError status_code text)))), w2)).
  { unfold streaming_path, try_except. rewrite Hst.
    apply Z.eqb_neq in Hcode. rewrite Hcode. reflexivity. }
  rewrite Hbody.
  destruct (outer_handler_spec model_name instance_id (clock env (ticks w1))
              (HTTPException 500
                 (InternalServerError
                    (HTTPException status_code
                       (StreamStatusError status_code text)))) w2 eq_refl)
    as (e' & w' & Hrun & He' & Hlog' & Hdown').
  rewrite Hrun. exists e', w'. split; [reflexivity|].
  split; [|split].
  - destruct (failed_status _ _ _ He'); assumption.
  - rewrite Hlog'. unfold w2. cbn [commits ticks]. now rewrite Hlog, Htick.
  - rewrite Hdown'. exact Hdown.
Qed.

(** ** The stream tee: what reaches the caller *)

(** [m] hands nothing to [yield] and collects nothing. *)
Definition same_output (g g' : gen_state) : Prop :=
  yielded g' = yielded g.

Lemma same_output_refl g : same_output g g.
Proof. reflexivity. Qed.

Lemma same_output_trans g1 g2 g3 :
  same_output g1 g2 -> same_output g2 g3 -> same_output g1 g3.
Proof. unfold same_output. congruence. Qed.

#[local] Hint Resolve same_output_refl same_output_trans : health.

Lemma quiet_on_tokens {A : Type} (m : M tok_state A) :
  stable same_output (on_tokens m).
Proof. intros g. unfold on_tokens. now destruct (m (tokens g)). Qed.

Lemma quiet_set_decoded_buffer x : stable same_output (set_decoded_buffer x).
Proof. intros g. reflexivity. Qed.

Lemma quiet_collect chunk : stable same_output (collect chunk).
Proof. intros g. reflexivity. Qed.

Lemma quiet_drain buffer :
  forall line, stable same_output (drain env line buffer).
Proof.
  induction buffer as [|c rest IH]; intros line; cbn [drain].
  - apply stable_ret; auto with health.
  - destruct (c =? 10)%N; [|apply IH].
    apply stable_bind; eauto with health.
    { apply quiet_set_decoded_buffer. }
    intros _. apply stable_bind; eauto with health.
    apply quiet_on_tokens.
Qed.

Lemma stable_try_except {St A : Type} (R : St -> St -> Prop)
    (body : M St A) (handler : exn -> M St A) :
  (forall s1 s2 s3, R s1 s2 -> R s2 s3 -> R s1 s3) ->
  stable R body -> (forall e, stable R (handler e)) ->
  stable R (try_except body handler).
Proof.
  intros Ht Hb Hh s. unfold try_except. specialize (Hb s).
  destruct (body s) as [[a|e] s']; simpl in *; auto.
  eapply Ht; [exact Hb|apply Hh].
Qed.

(** A chunk is yielded when its processing returns, and only then. *)
Lemma on_chunk_yield chunk g :
  match on_chunk env chunk g with
  | (Ok _, g') =>
      yielded g' = yielded g ++ match chunk with [] => [] | _ => [chunk] end
  | (Raise _, g') => yielded g' = yielded g
  end.
Proof.
  unfold on_chunk. destruct chunk as [|c0 chunk].
  { unfold ret. now rewrite app_nil_r. }
  unfold bind.
  match goal with
  | |- context [try_except ?body ?handler g] =>
      assert (Hq : stable same_output (try_except body handler))
  end.
  { apply stable_try_except; eauto with health.
    - apply stable_bind; eauto with health. { apply quiet_collect. }
      intros _. destruct (utf8_decode _).
      + apply stable_bind; eauto with health.
        { apply stable_get; auto with health. }
        intros g0. apply stable_bind; eauto with health.
        { apply quiet_set_decoded_buffer. }
        intros _. apply quiet_drain.
      + apply stable_raise; auto with health.
    - intros e. destruct e; try (apply stable_raise; auto with health).
      apply quiet_collect. }
  specialize (Hq g). unfold same_output in Hq.
  destruct (try_except _ _ g) as [[[]|e] g1]; simpl in *.
  - now rewrite Hq.
  - exact Hq.
Qed.

Lemma loop_yield chunks :
  forall g,
    match for_each chunks tt (fun _ chunk => on_chunk env chunk) g with
    | (r, g') =>
        exists sent rest,
          chunks = sent ++ rest
          /\ List.concat (yielded g')
             = List.concat (yielded g) ++ List.concat sent
          /\ (forall x, r = Ok x -> rest = [])
    end.
Proof.
  induction chunks as [|chunk chunks IH]; intros g; cbn [for_each].
  - unfold ret. exists [], []. repeat split; auto. simpl.
    now rewrite app_nil_r.
  - unfold bind. pose proof (on_chunk_yield chunk g) as Hy.
    destruct (on_chunk env chunk g) as [[[]|e] g1].
    + specialize (IH g1).
      destruct (for_each chunks tt _ g1) as [r g2].
      destruct IH as (sent & rest & -> & Hc & Hr).
      exists (chunk :: sent), rest. repeat split; auto.
      rewrite Hc, Hy, concat_app. simpl.
      destruct chunk; simpl; now rewrite ?app_nil_r, <- ?app_assoc.
    + exists [], (chunk :: chunks). repeat split.
      * simpl. now rewrite Hy, app_nil_r.
      * intros; discriminate.
Qed.


(** ** The stream tee: the lines the parser sees *)

(** The complete lines of [buffer], read after the characters of [line]
    (held reversed), and the characters left after the last newline. *)
Fixpoint lines_from (line buffer : pystr) : list pystr :=
  match buffer with
  | [] => []
  | c :: rest =>
      if (c =? 10)%N then rev line :: lines_from [] rest
      else lines_from (c :: line) rest
  end.

Fixpoint pending_from (line buffer : pystr) : pystr :=
  match buffer with
  | [] => line
  | c :: rest =>
      if (c =? 10)%N then pending_from [] rest
      else pending_from (c :: line) rest
  end.

Definition no_newline (s : pystr) : Prop :=
  Forall (fun c => (c =? 10)%N = false) s.

(** The accounting of a sequence of lines, on the two counters. *)
Definition account_lines (lines : list pystr) : M tok_state unit :=
  for_each lines tt (fun _ line => process_line env line).

Lemma lines_from_app x : forall line y,
  lines_from line (x ++ y)
  = lines_from line x ++ lines_from (pending_from line x) y.
Proof.
  induction x as [|c x IH]; intros line y; simpl; auto.
  destruct (c =? 10)%N; simpl; now rewrite IH.
Qed.

Lemma pending_from_app x : forall line y,
  pending_from line (x ++ y) = pending_from (pending_from line x) y.
Proof.
  induction x as [|c x IH]; intros line y; simpl; auto.
  destruct (c =? 10)%N; now rewrite IH.
Qed.

Lemma no_newline_lines p : no_newline p ->
  forall line, lines_from line p = [] /\ pending_from line p = rev p ++ line.
Proof.
  induction 1 as [|c p Hc Hp IH]; intros line; simpl; auto.
  rewrite Hc. destruct (IH (c :: line)) as [-> ->].
  split; auto. now rewrite <- app_assoc.
Qed.

Lemma pending_no_newline buffer : forall line,
  no_newline line -> no_newline (pending_from line buffer).
Proof.
  induction buffer as [|c rest IH]; intros line Hl; simpl; auto.
  destruct (c =? 10)%N eqn:E; apply IH; [constructor|now constructor].
Qed.

Lemma no_newline_rev p : no_newline p -> no_newline (rev p).
Proof. unfold no_newline. intros H. now apply Forall_rev. Qed.

Lemma for_each_app {St A : Type} (xs ys : list A) (body : unit -> A -> M St unit)
    (s : St) :
  for_each (xs ++ ys) tt body s
  = match for_each xs tt body s with
    | (Ok _, s') => for_each ys tt body s'
    | (Raise e, s') => (Raise e, s')
    end.
Proof.
  revert s. induction xs as [|x xs IH]; intros s; simpl; auto.
  unfold bind. destruct (body tt x s) as [[[]|e] s']; auto.
Qed.

(** The loop over the buffer runs the accounting on its complete lines
    and leaves the characters after the last newline in the buffer. *)
Lemma drain_spec buffer : forall line g t',
  decoded_buffer g = rev line ++ buffer ->
  account_lines (lines_from line buffer) (tokens g) = (Ok tt, t') ->
  exists g',
    drain env line buffer g = (Ok tt, g')
    /\ tokens g' = t'
    /\ decoded_buffer g' = rev (pending_from line buffer)
    /\ collected_content g' = collected_content g
    /\ error_occurred g' = error_occurred g.
Proof.
  induction buffer as [|c rest IH]; intros line g t' Hbuf; cbn [drain].
  - simpl. unfold ret. intros [= <-]. exists g. repeat split; auto.
    now rewrite Hbuf, app_nil_r.
  - simpl. destruct (c =? 10)%N.
    + unfold account_lines. cbn [for_each]. unfold bind at 1.
      destruct (process_line env (rev line) (tokens g)) as [[[]|e] t1] eqn:Hp;
        [|discriminate].
      intros Hrest. unfold bind at 1, set_decoded_buffer at 1.
      unfold bind at 1, on_tokens at 1. cbn [tokens]. rewrite Hp.
      match goal with
      | |- context [drain env [] rest ?g1] =>
          destruct (IH [] g1 t' eq_refl Hrest)
            as (g' & Hd & Ht & Hb & Hc & He)
      end.
      exists g'. repeat split; auto.
    + intros Hrest. apply IH; auto.
      simpl. now rewrite <- app_assoc.
Qed.

Lemma on_chunk_ok chunk chunk_str g t' :
  utf8_decode chunk = Some chunk_str ->
  no_newline (decoded_buffer g) ->
  account_lines (lines_from [] (decoded_buffer g ++ chunk_str)) (tokens g)
  = (Ok tt, t') ->
  exists g',
    on_chunk env chunk g = (Ok tt, g')
    /\ tokens g' = t'
    /\ decoded_buffer g'
       = rev (pending_from [] (decoded_buffer g ++ chunk_str))
    /\ List.concat (collected_content g')
       = List.concat (collected_content g) ++ chunk
    /\ error_occurred g' = error_occurred g.
Proof.
  intros Hdec Hnn Hacc. unfold on_chunk. destruct chunk as [|c0 chunk].
  { assert (chunk_str = []) as -> by (vm_compute in Hdec; congruence).
    rewrite app_nil_r in *.
    destruct (no_newline_lines _ Hnn []) as [Hl Hp].
    rewrite Hl in Hacc. cbn in Hacc. injection Hacc as <-.
    exists g. unfold ret. repeat split; auto.
    - now rewrite Hp, app_nil_r, rev_involutive.
    - now rewrite app_nil_r. }
  unfold bind at 1, try_except, bind at 1, collect at 1.
  rewrite Hdec. unfold bind at 1, get at 1. unfold bind at 1.
  unfold set_decoded_buffer at 1. cbn [decoded_buffer].
  match goal with
  | |- context [drain env [] ?buf ?g1] =>
      destruct (drain_spec buf [] g1 t' eq_refl Hacc)
        as (g' & Hd & Ht & Hb & Hc & He)
  end.
  rewrite Hd. unfold yield. eexists. split; [reflexivity|].
  cbn. repeat split; auto.
  rewrite Hc. cbn. now rewrite concat_app; simpl; rewrite app_nil_r.
Qed.

(** The accounting does not depend on how the upstream cut the stream
    into chunks: it is the accounting of the complete lines of the whole
    decoded text. *)
Lemma loop_tokens chunks : forall strs g t',
  Forall2 (fun chunk chunk_str => utf8_decode chunk = Some chunk_str)
    chunks strs ->
  no_newline (decoded_buffer g) ->
  account_lines (lines_from [] (decoded_buffer g ++ List.concat strs))
    (tokens g) = (Ok tt, t') ->
  exists g',
    for_each chunks tt (fun _ chunk => on_chunk env chunk) g = (Ok tt, g')
    /\ tokens g' = t'
    /\ List.concat (collected_content g')
       = List.concat (collected_content g) ++ List.concat chunks
    /\ error_occurred g' = error_occurred g.
Proof.
  induction chunks as [|chunk chunks IH]; intros strs g t' Hdec Hnn Hacc.
  - inversion Hdec; subst. simpl in Hacc. rewrite app_nil_r in Hacc.
    destruct (no_newline_lines _ Hnn []) as [Hl _]. rewrite Hl in Hacc.
    cbn in Hacc. injection Hacc as <-.
    exists g. cbn. repeat split; auto. now rewrite app_nil_r.
  - inversion Hdec as [|? chunk_str ? strs' Hd Hrest]; subst.
    simpl in Hacc. rewrite app_assoc, lines_from_app in Hacc.
    unfold account_lines in Hacc. rewrite for_each_app in Hacc.
    destruct (for_each (lines_from [] (decoded_buffer g ++ chunk_str)) tt _
                (tokens g)) as [[[]|e] t1] eqn:H1; [|discriminate].
    destruct (on_chunk_ok chunk chunk_str g t1 Hd Hnn H1)
      as (g1 & Hrun & Ht1 & Hb1 & Hc1 & He1).
    assert (Hnn1 : no_newline (decoded_buffer g1)).
    { rewrite Hb1. apply no_newline_rev, pending_no_newline. constructor. }
    assert (Hacc1 : account_lines
                      (lines_from [] (decoded_buffer g1 ++ List.concat strs'))
                      (tokens g1) = (Ok tt, t')).
    { rewrite Ht1, lines_from_app.
      destruct (no_newline_lines _ Hnn1 []) as [-> ->]. simpl.
      rewrite Hb1, rev_involutive, app_nil_r. exact Hacc. }
    destruct (IH strs' g1 t' Hrest Hnn1 Hacc1)
      as (g' & Hrun' & Ht' & Hc' & He').
    exists g'. cbn [for_each]. unfold bind. rewrite Hrun.
    repeat split; auto; try congruence.
    rewrite Hc', Hc1. simpl. now rewrite <- app_assoc.
Qed.

Lemma tee_tokens chunks strs t' :
  Forall2 (fun chunk chunk_str => utf8_decode chunk = Some chunk_str)
    chunks strs ->
  account_lines (lines_from [] (List.concat strs)) (tokens gen_start)
  = (Ok tt, t') ->
  exists g,
    tee env chunks None gen_start = (Ok tt, g)
    /\ tokens g = t'
    /\ List.concat (collected_content g) = List.concat chunks
    /\ error_occurred g = false.
Proof.
  intros Hdec Hacc.
  destruct (loop_tokens chunks strs gen_start t' Hdec) as (g & Hrun & H);
    [constructor|exact Hacc|].
  exists g. unfold tee, try_except, bind. rewrite Hrun. cbn. split; auto.
Qed.

(** ** The stream tee: the priority of the token fields *)

Definition numeric (v : pyval) : Prop := as_number v <> None.

(** The two counts of an object, when both are there, are numbers. *)
Definition counts_ok (d : list (pystr * pyval)) : Prop :=
  match jdict_get (u "prompt_eval_count") d, jdict_get (u "eval_count") d with
  | Some p, Some e => numeric p /\ numeric e
  | _, _ => True
  end.

(** The object has no [metadata.usage]. *)
Definition no_metadata_usage (d : list (pystr * pyval)) : Prop :=
  match jdict_get (u "metadata") d with
  | None => True
  | Some (VDict md) => jdict_get (u "usage") md = None
  | Some _ => False
  end.

Lemma val_add_numeric {St : Type} x y (s : St) :
  numeric x -> numeric y ->
  exists z, numeric z /\ val_add x y s = (Ok z, s).
Proof.
  unfold numeric, val_add. intros Hx Hy.
  destruct (as_number x); [|congruence].
  destruct (as_number y); [|congruence].
  eexists. split; [|reflexivity]. discriminate.
Qed.

(** An object with [metadata.usage.total_tokens = v] and no top-level
    [usage] sets the final count to [v]. *)
Lemma account_metadata d md us v t :
  jdict_get (u "usage") d = None ->
  jdict_get (u "metadata") d = Some (VDict md) ->
  jdict_get (u "usage") md = Some (VDict us) ->
  jdict_get (u "total_tokens") us = Some v ->
  counts_ok d -> numeric (token_count t) ->
  exists c,
    numeric c
    /\ account (VDict d) t
       = (Ok tt, {| token_count := c; final_token_count := v |}).
Proof.
  intros Hu Hm Hmu Hv Hc Hn.
  unfold account, bind, contains, getitem, get_default, ret.
  rewrite Hm, Hmu, Hv, Hu. cbn [set_final_token_count token_count].
  unfold counts_ok in Hc.
  destruct (jdict_get (u "prompt_eval_count") d) as [p|];
    [|exists (token_count t); split; [assumption|reflexivity]].
  destruct (jdict_get (u "eval_count") d) as [e|];
    [|exists (token_count t); split; [assumption|reflexivity]].
  destruct Hc as [Hp He]. unfold get.
  destruct (val_add_numeric p e
              {| token_count := token_count t; final_token_count := v |}
              Hp He) as (z & Hz & ->).
  destruct (val_add_numeric (token_count t) z
              {| token_count := token_count t; final_token_count := v |}
              Hn Hz) as (c & Hcn & Hadd).
  cbn [token_count]. rewrite Hadd.
  exists c. split; [assumption|reflexivity].
Qed.


(** An object with neither leaves the final count alone. *)
Lemma account_counts d t :
  jdict_get (u "usage") d = None ->
  no_metadata_usage d -> counts_ok d -> numeric (token_count t) ->
  exists c,
    numeric c
    /\ account (VDict d) t
       = (Ok tt, {| token_count := c;
                    final_token_count := final_token_count t |}).
Proof.
  intros Hu Hm Hc Hn.
  unfold account, bind, contains, getitem, get_default, ret.
  rewrite Hu. unfold no_metadata_usage in Hm.
  destruct (jdict_get (u "metadata") d) as [[| | | | |md]|];
    try contradiction.
  - rewrite Hm. cbn [token_count].
    unfold counts_ok in Hc.
    destruct (jdict_get (u "prompt_eval_count") d) as [p|];
      [|exists (token_count t); split; [assumption|destruct t; reflexivity]].
    destruct (jdict_get (u "eval_count") d) as [e|];
      [|exists (token_count t); split; [assumption|destruct t; reflexivity]].
    destruct Hc as [Hp He]. unfold get.
    destruct (val_add_numeric p e t Hp He) as (z & Hz & ->).
    destruct (val_add_numeric (token_count t) z t Hn Hz) as (c & Hcn & ->).
    exists c. split; [assumption|reflexivity].
  - unfold counts_ok in Hc.
    destruct (jdict_get (u "prompt_eval_count") d) as [p|];
      [|exists (token_count t); split; [assumption|destruct t; reflexivity]].
    destruct (jdict_get (u "eval_count") d) as [e|];
      [|exists (token_count t); split; [assumption|destruct t; reflexivity]].
    destruct Hc as [Hp He]. unfold get.
    destruct (val_add_numeric p e t Hp He) as (z & Hz & ->).
    destruct (val_add_numeric (token_count t) z t Hn Hz) as (c & Hcn & ->).
    exists c. split; [assumption|reflexivity].
Qed.

(** The running sum stays a number. *)
Definition keeps_numeric (t t' : tok_state) : Prop :=
  numeric (token_count t) -> numeric (token_count t').

Lemma keeps_numeric_refl t : keeps_numeric t t.
Proof. intros H; exact H. Qed.

Lemma keeps_numeric_trans t1 t2 t3 :
  keeps_numeric t1 t2 -> keeps_numeric t2 t3 -> keeps_numeric t1 t3.
Proof. unfold keeps_numeric. auto. Qed.

#[local] Hint Resolve keeps_numeric_refl keeps_numeric_trans : health.

Lemma val_add_ok_numeric {St : Type} x y (s s' : St) z :
  numeric x -> val_add x y s = (Ok z, s') -> numeric z.
Proof.
  unfold numeric, val_add. intros Hx.
  destruct (as_number x) eqn:Ex; [|congruence].
  destruct (as_number y).
  - intros [= <- _]. discriminate.
  - destruct x; try discriminate; destruct y; discriminate.
Qed.

Lemma pure_contains {St : Type} k v (s : St) :
  snd (contains k v s) = s.
Proof. destruct v; reflexivity. Qed.

Lemma pure_getitem {St : Type} v k (s : St) : snd (getitem v k s) = s.
Proof. destruct v; try reflexivity. simpl. now destruct (jdict_get k d). Qed.

Lemma pure_get_default {St : Type} v k x (s : St) :
  snd (get_default v k x s) = s.
Proof. destruct v; reflexivity. Qed.

Lemma pure_val_add {St : Type} x y (s : St) : snd (val_add x y s) = s.
Proof.
  unfold val_add. destruct (as_number x), (as_number y); try reflexivity;
    destruct x; try reflexivity; destruct y; reflexivity.
Qed.

Lemma stable_pure {St A : Type} (R : St -> St -> Prop) (m : M St A) :
  (forall s, R s s) -> (forall s, snd (m s) = s) -> stable R m.
Proof. intros Hr Hp s. rewrite Hp. apply Hr. Qed.

Ltac pure_step :=
  first
    [ apply stable_pure; [auto with health|intros; apply pure_contains]
    | apply stable_pure; [auto with health|intros; apply pure_getitem]
    | apply stable_pure; [auto with health|intros; apply pure_get_default]
    | apply stable_pure; [auto with health|intros; apply pure_val_add]
    | apply stable_ret; auto with health
    | apply stable_raise; auto with health ].

Lemma keeps_numeric_add x :
  stable keeps_numeric
    (t <- get ;; total <- val_add (token_count t) x ;; set_token_count total).
Proof.
  intros t Hn. unfold bind, get.
  destruct (val_add (token_count t) x t) as [[z|e] t1] eqn:Hadd; cbn.
  - eapply val_add_ok_numeric; eauto.
  - pose proof (pure_val_add (token_count t) x t) as Hp.
    rewrite Hadd in Hp. simpl in Hp. now subst.
Qed.

Lemma keeps_numeric_account data : stable keeps_numeric (account data).
Proof.
  unfold account.
  apply stable_bind; eauto with health; [pure_step|intros has_metadata].
  apply stable_bind; eauto with health.
  { destruct has_metadata; [|pure_step].
    apply stable_bind; eauto with health; [pure_step|intros; pure_step]. }
  intros has_usage. apply stable_bind; eauto with health.
  { destruct has_usage; [|pure_step].
    apply stable_bind; eauto with health; [pure_step|intros].
    apply stable_bind; eauto with health; [pure_step|intros].
    apply stable_bind; eauto with health; [pure_step|intros].
    intros t Hn. exact Hn. }
  intros _. apply stable_bind; eauto with health; [pure_step|intros top].
  destruct top.
  { apply stable_bind; eauto with health; [pure_step|intros].
    apply stable_bind; eauto with health; [pure_step|intros].
    intros t Hn. exact Hn. }
  apply stable_bind; eauto with health; [pure_step|intros has_prompt].
  apply stable_bind; eauto with health.
  { destruct has_prompt; pure_step. }
  intros has_eval. destruct has_eval; [|pure_step].
  intros t Hn. unfold bind at 1, get at 1. unfold bind at 1.
  destruct (get_default data (u "prompt_eval_count") zero t)
    as [[p|e] t1] eqn:Hp.
  2:{ pose proof (pure_get_default data (u "prompt_eval_count") zero t) as H.
      rewrite Hp in H. simpl in *. now subst. }
  pose proof (pure_get_default data (u "prompt_eval_count") zero t) as H1.
  rewrite Hp in H1. simpl in H1. subst t1. unfold bind at 1.
  destruct (get_default data (u "eval_count") zero t) as [[e|e] t1] eqn:He.
  2:{ pose proof (pure_get_default data (u "eval_count") zero t) as H.
      rewrite He in H. simpl in *. now subst. }
  pose proof (pure_get_default data (u "eval_count") zero t) as H1.
  rewrite He in H1. simpl in H1. subst t1. unfold bind at 1.
  destruct (val_add p e t) as [[counts|e0] t1] eqn:Hc.
  2:{ pose proof (pure_val_add p e t) as H.
      rewrite Hc in H. simpl in *. now subst. }
  pose proof (pure_val_add p e t) as H1.
  rewrite Hc in H1. simpl in H1. subst t1. unfold bind at 1.
  destruct (val_add (token_count t) counts t) as [[total|e0] t1] eqn:Ht.
  2:{ pose proof (pure_val_add (token_count t) counts t) as H.
      rewrite Ht in H. simpl in *. now subst. }
  cbn. eapply val_add_ok_numeric; eauto.
Qed.

Lemma keeps_numeric_add_match m : stable keeps_numeric (add_match m).
Proof.
  unfold add_match. destruct m as [[n|]|]; try pure_step.
  apply keeps_numeric_add.
Qed.

Lemma keeps_numeric_process_line line :
  stable keeps_numeric (process_line env line).
Proof.
  unfold process_line. destruct (is_prefix _ _ _); [|pure_step].
  destruct (json_loads env _) as [data|e].
  - apply keeps_numeric_account.
  - destruct e; try pure_step.
    unfold regex_counts. apply stable_try_except; eauto with health.
    + apply stable_bind; eauto with health.
      * apply keeps_numeric_add_match.
      * intros _. apply keeps_numeric_add_match.
    + intros; pure_step.
Qed.

Lemma keeps_numeric_account_lines lines :
  stable keeps_numeric (account_lines lines).
Proof.
  unfold account_lines. apply stable_for_each; eauto with health.
  intros _ line. apply keeps_numeric_process_line.
Qed.

(** The final count is left as it is. *)
Definition keeps_final (t t' : tok_state) : Prop :=
  final_token_count t' = final_token_count t.

Lemma keeps_final_refl t : keeps_final t t.
Proof. reflexivity. Qed.

Lemma keeps_final_trans t1 t2 t3 :
  keeps_final t1 t2 -> keeps_final t2 t3 -> keeps_final t1 t3.
Proof. unfold keeps_final. congruence. Qed.

#[local] Hint Resolve keeps_final_refl keeps_final_trans : health.



(** ** The stream tee: chunks that do not decode *)

(** The text the loop reads: what the chunks that decode on their own
    decode to, in order.  A chunk that raises [UnicodeDecodeError] adds
    nothing to the buffer. *)
Fixpoint decoded_text (chunks : list bytes) : pystr :=
  match chunks with
  | [] => []
  | chunk :: rest =>
      match utf8_decode chunk with
      | Some chunk_str => chunk_str ++ decoded_text rest
      | None => decoded_text rest
      end
  end.

Lemma decoded_text_decodable chunks strs :
  Forall2 (fun chunk chunk_str => utf8_decode chunk = Some chunk_str)
    chunks strs ->
  decoded_text chunks = List.concat strs.
Proof.
  induction 1 as [|chunk chunk_str chunks strs Hd _ IH]; simpl; auto.
  now rewrite Hd, IH.
Qed.




(** ** The stream tee: the lines that set no final count *)

(** A line leaves the final count alone when its accounting, from any
    state it returns from, ends with the final count it started with. *)
Definition leaves_final (line : pystr) : Prop :=
  forall t t',
    process_line env line t = (Ok tt, t') ->
    final_token_count t' = final_token_count t.


(** Such are the lines without the [data: ] prefix, ... *)
Lemma other_leaves_final line :
  is_prefix N.eqb (u "data: ") line = false -> leaves_final line.
Proof.
  intros Hpre t t'. unfold process_line. rewrite Hpre. now intros [= <-].
Qed.




(** ... and the objects with neither [usage] nor [metadata.usage]. *)
Lemma object_leaves_final line d :
  json_loads env (str_strip (skipn 6 line)) = Ok (VDict d) ->
  jdict_get (u "usage") d = None ->
  no_metadata_usage d ->
  leaves_final line.
Proof.
  intros Hj Hu Hm t t'. unfold process_line.
  destruct (is_prefix N.eqb (u "data: ") line); [|now intros [= <-]].
  rewrite Hj.
  unfold account, bind, contains, getitem, get_default, ret, get.
  rewrite Hu. unfold no_metadata_usage in Hm.
  destruct (jdict_get (u "metadata") d) as [[| | | | |md]|];
    try contradiction; [rewrite Hm|];
    (destruct (jdict_get (u "prompt_eval_count") d) as [p|];
     [|now intros [= <-]];
     destruct (jdict_get (u "eval_count") d) as [e|]; [|now intros [= <-]];
     pose proof (pure_val_add p e t) as H1;
     destruct (val_add p e t) as [[counts|e1] t2]; cbn in H1; subst t2;
     [|discriminate];
     pose proof (pure_val_add (token_count t) counts t) as H2;
     destruct (val_add (token_count t) counts t) as [[total|e2] t2];
     cbn in H2; subst t2; [|discriminate];
     now intros [= <-]).
Qed.


(** ** The stream tee: the commit at the end of the stream *)

(** The hundredths of a millisecond the [finally] block measures, when
    the generator starts in [w]. *)
Definition stream_hundredths (w : world) : result Z :=
  fst (math_ceil (St := unit)
         ((clock env (S (ticks w)) - clock env (ticks w))
          * float_of_Z 1000 * float_of_Z 100)%float tt).

Lemma math_ceil_pure {St : Type} x (s : St) :
  math_ceil x s = (fst (math_ceil (St := unit) x tt), s).
Proof.
  unfold math_ceil. destruct (Prim2SF x); try reflexivity.
  destruct (0 <=? e); reflexivity.
Qed.



End Handler.

End ProxyFacts.

(* ================================================================== *)
(** * Requests run against the reference environment *)
(* ================================================================== *)

Module Scenarios.
Import Balancer PyText Proxy BalancerFacts ProxyFacts.

Local Open Scope string_scope.
Local Open Scope list_scope.

(** JSON text written with single quotes, and a line of a stream. *)
Fixpoint dq (s : string) : string :=
  match s with
  | EmptyString => EmptyString
  | String c s' =>
      String (if Ascii.eqb c "'"%char then "034"%char else c) (dq s')
  end.

Definition line (s : string) : bytes :=
  b (String.append (dq s) (String "010"%char "")).

(** One model [m] with the instance [A] at [10.0.0.1:8000], freshly
    initialised. *)
Definition world0 : world :=
  {| lb := demotion_start; ticks := 0; commits := []; downstream := [] |}.

Definition stream_request : request :=
  {| method := "POST"; body := b (dq "{'stream': true}") |}.

Definition unary_request : request :=
  {| method := "POST"; body := b (dq "{'prompt': 'hi'}") |}.

Definition upstream_down : stream_reply :=
  StreamRaises (OtherException "ConnectionError").

Definition upstream_unused : unary_reply := UnaryRaises HttpxRequestError.

(** The upstream answers a unary request with 200 and a usage field. *)
Definition unary_ok : environment :=
  Reference.environment seconds
    (UnaryResponse 200 [("content-type", "application/json")]
       (b (dq "{'usage':{'total_tokens':5}}")))
    upstream_down.

(** The upstream answers a streaming request with 404. *)
Definition stream_404 : environment :=
  Reference.environment seconds upstream_unused
    (StreamResponse 404 "not found" None [] None).

Definition streams (chunks : list bytes) : environment :=
  Reference.environment seconds upstream_unused
    (StreamResponse 200 "" None chunks None).

Definition selected : world :=
  Eval vm_compute in snd (next_instance "m" world0).

Lemma commit_unknown_is_silent_witness :
  metrics_of demotion_start "m" "10.0.0.1:8000" = None
  /\ update_instance_metrics "m" "10.0.0.1:8000" (PFloat 12.5) false
       (VNum (PInt 7)) (seconds 1) demotion_start
     = (Ok tt, demotion_start).
Proof.
  assert (H : metrics_of demotion_start "m" "10.0.0.1:8000" = None)
    by reflexivity.
  split; [exact H|].
  exact (commit_unknown_is_silent demotion_start "m" "10.0.0.1:8000"
           (PFloat 12.5) false (VNum (PInt 7)) (seconds 1) H).
Defined.

Lemma unknown_model_witness :
  dict_get "nope" (service_metrics (lb world0)) = None
  /\ serve unary_ok "nope" "x" unary_request world0
     = (Failed (HTTPException 503
                  (ServiceUnavailable
                     (HTTPException 404 (ModelNotConfigured "nope")))),
        world0)
  /\ http_status (fst (serve unary_ok "nope" "x" unary_request world0)) = 503.
Proof.
  assert (H : dict_get "nope" (service_metrics (lb world0)) = None)
    by reflexivity.
  split; [exact H|].
  exact (unknown_model_is_wrapped_in_503 unary_ok "nope" "x" unary_request
           world0 H).
Defined.

Lemma unary_response_witness :
  next_instance "m" world0 = (Ok ("A", "10.0.0.1:8000"), selected)
  /\ truthy (stream_flag unary_ok unary_request) = false
  /\ unary unary_ok
     = UnaryResponse 200 [("content-type", "application/json")]
         (b (dq "{'usage':{'total_tokens':5}}"))
  /\ exists e w',
       serve unary_ok "m" "v1/chat" unary_request world0 = (Failed e, w')
       /\ http_status (Failed e) = 500
       /\ commits w'
          = commits world0
              ++ [mkCommit "m" "10.0.0.1:8000"
                    (elapsed (clock unary_ok (ticks world0))
                       (clock unary_ok (S (ticks world0)))) true zero]
       /\ downstream w' = downstream world0.
Proof.
  assert (H1 : next_instance "m" world0
               = (Ok ("A", "10.0.0.1:8000"), selected))
    by (vm_compute; reflexivity).
  assert (H2 : truthy (stream_flag unary_ok unary_request) = false)
    by (vm_compute; reflexivity).
  assert (H3 : unary unary_ok
               = UnaryResponse 200 [("content-type", "application/json")]
                   (b (dq "{'usage':{'total_tokens':5}}")))
    by reflexivity.
  repeat (split; [assumption|]).
  exact (unary_response_is_answered_500 unary_ok "m" "v1/chat" unary_request
           world0 selected "A" "10.0.0.1:8000" 200 _ _ H1 H2 H3).
Defined.

Lemma stream_error_witness :
  next_instance "m" world0 = (Ok ("A", "10.0.0.1:8000"), selected)
  /\ truthy (stream_flag stream_404 stream_request) = true
  /\ streaming stream_404 = StreamResponse 404 "not found" None [] None
  /\ 404 <> 200
  /\ exists e w',
       serve stream_404 "m" "v1/chat" stream_request world0 = (Failed e, w')
       /\ http_status (Failed e) = 500
       /\ commits w'
          = commits world0
              ++ [mkCommit "m" "10.0.0.1:8000"
                    (elapsed (clock stream_404 (ticks world0))
                       (clock stream_404 (S (ticks world0)))) true zero]
       /\ downstream w' = downstream world0.
Proof.
  assert (H1 : next_instance "m" world0
               = (Ok ("A", "10.0.0.1:8000"), selected))
    by (vm_compute; reflexivity).
  assert (H2 : truthy (stream_flag stream_404 stream_request) = true)
    by (vm_compute; reflexivity).
  assert (H3 : streaming stream_404
               = StreamResponse 404 "not found" None [] None) by reflexivity.
  assert (H4 : 404 <> 200) by discriminate.
  repeat (split; [assumption|]).
  exact (stream_error_status_is_replaced_by_500 stream_404 "m" "v1/chat"
           stream_request world0 selected "A" "10.0.0.1:8000" 404 _ _ _ _
           H1 H2 H3 H4).
Defined.

(** The upstream sends the SSE line [data: 1], in one chunk or cut before
    its newline. *)
Definition scalar_line : list bytes := [line "data: 1"].

Definition scalar_line_cut : list bytes :=
  [b "data: 1"; line ""; line "data: {'usage':{'total_tokens':3}}"].

(** C9: a line whose payload is JSON but not an object makes the
    accounting raise [TypeError] before the chunk that completes the line
    is yielded: the caller receives nothing of the one-chunk stream, and
    [data: 1] without its newline nor anything after of the other. *)
Theorem tee_stops_at_scalar_json :
  fst (serve (streams scalar_line) "m" "v1/chat" stream_request world0)
  = Streamed 200 "text/event-stream" [] (Some TypeError)
  /\ List.concat scalar_line <> []
  /\ fst (serve (streams scalar_line_cut) "m" "v1/chat" stream_request world0)
     = Streamed 200 "text/event-stream" [b "data: 1"] (Some TypeError)
  /\ List.concat scalar_line_cut <> b "data: 1"
  /\ map c_is_error
       (commits (snd (serve (streams scalar_line) "m" "v1/chat"
                        stream_request world0)))
     = [true].
Proof.
  repeat split; try (vm_compute; reflexivity); vm_compute; discriminate.
Qed.

(** A stream with per-chunk counts, then [metadata.usage.total_tokens],
    cut in the middle of a line, then the end marker. *)
Definition counted_stream : list bytes :=
  [line "data: {'prompt_eval_count':7,'eval_count':5}";
   b (dq "data: {'metadata':{'usage':");
   line "{'total_tokens':99}}}";
   line "data: [DONE]"].

Definition counted_text : list pystr :=
  Eval vm_compute in
    map (fun chunk => match utf8_decode chunk with
                      | Some chunk_str => chunk_str
                      | None => []
                      end) counted_stream.














End Scenarios.

(* ================================================================== *)
(** * The store as a whole: keys, counters and what each call touches *)
(* ================================================================== *)

Module StoreInvariants.
Import Balancer BalancerFacts.

(** ** Keys of a dictionary *)

Definition keys {V : Type} (d : pydict V) : list string := map fst d.

Lemma dict_get_keys {V : Type} (k : string) (d : pydict V) :
  dict_get k d <> None <-> In k (keys d).
Proof.
  induction d as [|[k' v] d IH]; simpl.
  - split; [congruence|tauto].
  - destruct (String.eqb_spec k k') as [->|Hne].
    + split; [now left|discriminate].
    + rewrite IH. split; [now right|]. intros [H|H]; [congruence|exact H].
Qed.

Lemma keys_dict_set {V : Type} (k : string) (v : V) (d : pydict V) :
  keys (dict_set k v d)
  = if dict_mem k d then keys d else keys d ++ [k].
Proof.
  unfold dict_mem. induction d as [|[k' v'] d IH]; simpl; auto.
  destruct (String.eqb_spec k k') as [->|Hne]; simpl; auto.
  rewrite IH. now destruct (dict_get k d).
Qed.

Lemma keys_dict_set_present {V : Type} (k : string) (v x : V) (d : pydict V) :
  dict_get k d = Some x -> keys (dict_set k v d) = keys d.
Proof. intros H. rewrite keys_dict_set. unfold dict_mem. now rewrite H. Qed.

Lemma nodup_dict_set {V : Type} (k : string) (v : V) (d : pydict V) :
  NoDup (keys d) -> NoDup (keys (dict_set k v d)).
Proof.
  intros Hd. rewrite keys_dict_set. unfold dict_mem.
  destruct (dict_get k d) eqn:E; auto.
  apply NoDup_app; auto.
  - repeat constructor. simpl. tauto.
  - intros x Hx [<-|[]]. apply dict_get_keys in Hx. congruence.
Qed.

Lemma dict_get_of_In {V : Type} (k : string) (v : V) (d : pydict V) :
  NoDup (keys d) -> In (k, v) d -> dict_get k d = Some v.
Proof.
  induction d as [|[k' v'] d IH]; simpl; [tauto|].
  intros Hd [H|H].
  - injection H as -> ->. now rewrite String.eqb_refl.
  - inversion Hd as [|? ? Hnot Hrest]; subst.
    destruct (String.eqb_spec k k') as [->|Hne]; auto.
    exfalso. apply Hnot. change (In (fst (k', v)) (map fst d)).
    now apply in_map.
Qed.

(** ** The two dictionaries hold the same instances *)

(** Every model has its two inner dictionaries, with the same instance
    names in the same order, each name once. *)
Definition aligned (lb : balancer) : Prop :=
  forall model_name,
    match dict_get model_name (service_metrics lb),
          dict_get model_name (service_weights lb) with
    | Some md, Some wd => keys wd = keys md /\ NoDup (keys md)
    | None, None => True
    | _, _ => False
    end.

(** [lb'] has the models and the instance names of [lb]. *)
Definition same_keys (lb lb' : balancer) : Prop :=
  forall model_name,
    option_map keys (dict_get model_name (service_metrics lb'))
    = option_map keys (dict_get model_name (service_metrics lb))
    /\ option_map keys (dict_get model_name (service_weights lb'))
       = option_map keys (dict_get model_name (service_weights lb)).

Lemma same_keys_refl lb : same_keys lb lb.
Proof. intros ?. auto. Qed.

Lemma same_keys_trans lb1 lb2 lb3 :
  same_keys lb1 lb2 -> same_keys lb2 lb3 -> same_keys lb1 lb3.
Proof.
  intros H12 H23 model_name.
  destruct (H12 model_name), (H23 model_name). split; congruence.
Qed.

Lemma aligned_same_keys lb lb' : same_keys lb lb' -> aligned lb -> aligned lb'.
Proof.
  intros Hs Ha model_name. specialize (Ha model_name).
  destruct (Hs model_name) as [Hm Hw].
  destruct (dict_get model_name (service_metrics lb)) as [md|],
           (dict_get model_name (service_weights lb)) as [wd|],
           (dict_get model_name (service_metrics lb')) as [md'|],
           (dict_get model_name (service_weights lb')) as [wd'|];
    simpl in *; try discriminate; try contradiction; auto.
  injection Hm as Hm. injection Hw as Hw. rewrite Hm, Hw. exact Ha.
Qed.

Lemma same_keys_set_weights lb model_name node w w0 :
  weights_of lb model_name node = Some w0 ->
  same_keys lb (set_weights model_name node w lb).
Proof.
  unfold weights_of, set_weights. intros H model'.
  destruct (dict_get model_name (service_weights lb)) as [wd|] eqn:Hd;
    [|discriminate].
  simpl. split; auto.
  destruct (string_dec model_name model') as [->|Hne].
  - rewrite dict_get_set_same, Hd. simpl.
    now rewrite (keys_dict_set_present _ _ _ _ H).
  - now rewrite dict_get_set_other.
Qed.

Lemma same_keys_set_metrics lb model_name node m m0 :
  metrics_of lb model_name node = Some m0 ->
  same_keys lb (set_metrics model_name node m lb).
Proof.
  unfold metrics_of, set_metrics. intros H model'.
  destruct (dict_get model_name (service_metrics lb)) as [md|] eqn:Hd;
    [|discriminate].
  simpl. split; auto.
  destruct (string_dec model_name model') as [->|Hne].
  - rewrite dict_get_set_same, Hd. simpl.
    now rewrite (keys_dict_set_present _ _ _ _ H).
  - now rewrite dict_get_set_other.
Qed.

Lemma same_keys_update_weights model_name node f :
  stable same_keys (update_weights model_name node f).
Proof.
  intros lb. pose proof (update_weights_spec model_name node f lb) as Hs.
  destruct (weights_of lb model_name node) as [w|] eqn:Hw; rewrite Hs; simpl.
  - eapply same_keys_set_weights; eauto.
  - apply same_keys_refl.
Qed.

Lemma same_keys_update_metrics model_name node f :
  stable same_keys (update_metrics model_name node f).
Proof.
  intros lb. pose proof (update_metrics_spec model_name node f lb) as Hs.
  destruct (metrics_of lb model_name node) as [m|] eqn:Hm; rewrite Hs; simpl.
  - eapply same_keys_set_metrics; eauto.
  - apply same_keys_refl.
Qed.

#[local] Hint Resolve same_keys_refl same_keys_trans : health.

Lemma same_keys_select_body model_name sel item :
  stable same_keys (select_body model_name sel item).
Proof.
  destruct item as [node m]. unfold select_body.
  destruct (negb (is_healthy (status m))).
  { apply stable_ret; eauto with health. }
  apply stable_bind; eauto with health.
  { unfold get_weights. apply stable_bind; eauto with health.
    - apply stable_get; eauto with health.
    - intros lb. apply stable_bind; eauto with health;
        intros; apply stable_subscript; eauto with health. }
  intros w. apply stable_bind; eauto with health.
  { apply same_keys_update_weights. }
  intros _. destruct (py_gt _ _); apply stable_ret; eauto with health.
Qed.

Lemma same_keys_get_next_instance model_name :
  stable same_keys (get_next_instance model_name).
Proof.
  unfold get_next_instance.
  apply stable_bind; eauto with health. { apply stable_get; eauto with health. }
  intros lb. destruct (dict_get model_name (service_metrics lb)) as [md|].
  2:{ apply stable_raise; eauto with health. }
  apply stable_bind; eauto with health.
  { apply stable_subscript; eauto with health. }
  intros _. apply stable_bind; eauto with health.
  { apply stable_for_each; eauto with health.
    intros; apply same_keys_select_body. }
  intros sel. destruct (best sel).
  2:{ apply stable_raise; eauto with health. }
  apply stable_bind; eauto with health.
  { apply same_keys_update_weights. }
  intros _. apply stable_bind; eauto with health.
  { apply same_keys_update_metrics. }
  intros _. apply stable_ret; eauto with health.
Qed.

(** ** A commit, step by step *)

(** The statements of [update_node] up to the token count. *)
Definition counted (response_time : pynum) (m : metrics) : metrics :=
  with_request_count (request_count m + 1)
    (with_inference_time response_time m).

(** ... and from there to the load history. *)
Definition released (response_time : pynum) (k : pynum) (now : float)
    (m : metrics) : metrics :=
  let m1 := with_active_requests (Z.max 0 (active_requests m - 1))
              (with_token_total (py_add (token_total m) k)
                 (counted response_time m)) in
  with_load_history
    (filter (fun e => py_ge (PFloat (fst e))
                        (py_sub (PFloat now) (PInt 30)))
       (load_history m ++ [(now, active_requests m)])) m1.

Lemma update_node_steps response_time is_error token_count now m w :
  update_node response_time is_error token_count now (m, w)
  = match as_number token_count with
    | None => (Raise TypeError, (counted response_time m, w))
    | Some k =>
        match update_load_rate now (py_sub (PFloat now) (PInt 30))
                (released response_time k now m, w) with
        | (Ok _, (m3, w3)) =>
            update_weight is_error (with_last_update now m3, w3)
        | (Raise e, s) => (Raise e, s)
        end
    end.
Proof.
  unfold update_node.
  unfold bind at 1. unfold the_m at 1. cbn [fst snd].
  unfold bind at 1. unfold set_m at 1. cbn [fst snd].
  unfold bind at 1. unfold set_m at 1. cbn [fst snd].
  unfold bind at 1. unfold num_plus.
  destruct (as_number token_count) as [k|]; [|reflexivity].
  unfold ret at 1.
  unfold bind at 1. unfold set_m at 1. cbn [fst snd].
  unfold bind at 1. unfold set_m at 1. cbn [fst snd].
  unfold bind at 1. unfold set_m at 1. cbn [fst snd].
  unfold bind at 1. unfold set_m at 1. cbn [fst snd].
  unfold bind at 1.
  change (with_load_history _ (with_load_history _ _))
    with (released response_time k now m).
  destruct (update_load_rate _ _ _) as [[[]|e] [m3 w3]]; [|reflexivity].
  unfold bind at 1. unfold set_m at 1. cbn [fst snd]. reflexivity.
Qed.

(** The load rate: written once, at the end, and never above [1.0]. *)
Lemma update_load_rate_steps now min_time m w :
  (exists x,
      update_load_rate now min_time (m, w) = (Ok tt, (with_load_rate x m, w))
      /\ py_le x (PFloat 1) = true
      /\ (load_history m = [] \/ py_eq (load_threshold m) (PInt 0) = false))
  \/ (update_load_rate now min_time (m, w) = (Raise ZeroDivisionError, (m, w))
      /\ load_history m <> []
      /\ py_eq (load_threshold m) (PInt 0) = true).
Proof.
  unfold update_load_rate, bind, the_m, set_m. cbn [fst snd].
  destruct (load_history m) as [|e h] eqn:Hh.
  { left. exists (PFloat 0). repeat split; auto. }
  destruct (last (sorted_by_time (e :: h)) (now, 0)) as [lt ll].
  set (td := py_sub (PFloat now) min_time).
  set (tl := py_add _ _).
  assert (Hmin : forall q, py_le (py_min (PFloat 1) q) (PFloat 1) = true).
  { intros q. unfold py_min, py_le.
    destruct (py_lt q (PFloat 1)) eqn:E.
    - unfold py_lt in E. destruct (py_compare q (PFloat 1)) as [[]|];
        congruence.
    - reflexivity. }
  set (avg := if py_gt td (PInt 0)
              then match py_truediv tl td with
                   | Some q => q
                   | None => PInt 0
                   end
              else PInt 0).
  destruct (py_eq (load_threshold m) (PInt 0)) eqn:Hz.
  - right. split; [|split; [discriminate|reflexivity]].
    destruct (py_gt td (PInt 0)) eqn:G.
    + apply py_gt_zero_not_eq in G. unfold truediv, py_truediv.
      rewrite G, Hz. reflexivity.
    + unfold truediv, py_truediv, ret. rewrite Hz. reflexivity.
  - left. exists (py_min (PFloat 1)
                    match py_truediv avg (load_threshold m) with
                    | Some q => q
                    | None => PInt 0
                    end).
    split; [|split; [apply Hmin|now right]].
    unfold avg. destruct (py_gt td (PInt 0)) eqn:G.
    + apply py_gt_zero_not_eq in G. unfold truediv, py_truediv.
      rewrite G, Hz. reflexivity.
    + unfold truediv, py_truediv, ret. rewrite Hz. reflexivity.
Qed.

(** The weight controller writes the error count, the status and the
    weight of the metrics entry. *)
Definition controlled_metrics (is_error : bool) (w : weights) (m : metrics)
  : metrics :=
  with_weight (effective_weight (controlled is_error w))
    (if is_error
     then (if 3 <? history_failures w + 1
           then with_status Warning (with_error_count (error_count m + 1) m)
           else with_error_count (error_count m + 1) m)
     else m).

Lemma update_weight_steps is_error m w :
  update_weight is_error (m, w)
  = (Ok tt, (controlled_metrics is_error w m, controlled is_error w)).
Proof.
  unfold update_weight, controlled_metrics, controlled, bind, set_m, set_w,
    the_w, ret.
  destruct is_error; simpl.
  - destruct (3 <? history_failures w + 1); reflexivity.
  - reflexivity.
Qed.

(** What a commit leaves in the two entries of a known instance. *)
Inductive commit_outcome (response_time : pynum) (is_error : bool)
    (token_count : pyval) (now : float) (m : metrics) (w : weights)
  : result unit -> metrics -> weights -> Prop :=
  | outcome_type_error :
      as_number token_count = None ->
      commit_outcome response_time is_error token_count now m w
        (Raise TypeError) (counted response_time m) w
  | outcome_zero_division k :
      as_number token_count = Some k ->
      load_history (released response_time k now m) <> [] ->
      py_eq (load_threshold m) (PInt 0) = true ->
      commit_outcome response_time is_error token_count now m w
        (Raise ZeroDivisionError) (released response_time k now m) w
  | outcome_done k x :
      as_number token_count = Some k ->
      py_le x (PFloat 1) = true ->
      load_history (released response_time k now m) = []
      \/ py_eq (load_threshold m) (PInt 0) = false ->
      commit_outcome response_time is_error token_count now m w
        (Ok tt)
        (controlled_metrics is_error w
           (with_last_update now
              (with_load_rate x (released response_time k now m))))
        (controlled is_error w).

Lemma update_node_outcome response_time is_error token_count now m w :
  exists r m' w',
    update_node response_time is_error token_count now (m, w) = (r, (m', w'))
    /\ commit_outcome response_time is_error token_count now m w r m' w'.
Proof.
  rewrite update_node_steps.
  destruct (as_number token_count) as [k|] eqn:Hk.
  2:{ eexists _, _, _. split; [reflexivity|]. now constructor. }
  destruct (update_load_rate_steps now (py_sub (PFloat now) (PInt 30))
              (released response_time k now m) w)
    as [(x & -> & Hx & Hok)|(-> & Hne & Hz)].
  - rewrite update_weight_steps. eexists _, _, _. split; [reflexivity|].
    eapply outcome_done; eauto.
  - eexists _, _, _. split; [reflexivity|].
    eapply outcome_zero_division; eauto.
Qed.

Lemma dict_set_twice {V : Type} (k : string) (v v' : V) (d : pydict V) :
  dict_set k v (dict_set k v' d) = dict_set k v d.
Proof.
  induction d as [|[k0 v0] d IH]; simpl.
  - now rewrite String.eqb_refl.
  - destruct (String.eqb k k0) eqn:E; simpl; rewrite ?String.eqb_refl, ?E;
      congruence.
Qed.

Lemma set_metrics_twice model_name node m m' lb :
  set_metrics model_name node m (set_metrics model_name node m' lb)
  = set_metrics model_name node m lb.
Proof.
  unfold set_metrics.
  destruct (dict_get model_name (service_metrics lb)) as [md|] eqn:Hd;
    cbn [service_metrics service_weights node_counter].
  - rewrite dict_get_set_same, !dict_set_twice. reflexivity.
  - now rewrite Hd.
Qed.

Lemma set_metrics_set_weights model_name node m w lb :
  set_metrics model_name node m (set_weights model_name node w lb)
  = set_weights model_name node w (set_metrics model_name node m lb).
Proof.
  unfold set_metrics, set_weights.
  destruct (dict_get model_name (service_metrics lb)) as [md|] eqn:Hm,
           (dict_get model_name (service_weights lb)) as [wd|] eqn:Hw;
    cbn [service_metrics service_weights node_counter];
    rewrite ?Hm, ?Hw; reflexivity.
Qed.

(** The label block after [update_node]: it is skipped when [update_node]
    raised, and raises nothing but [ZeroDivisionError] itself. *)
Inductive labelled (m' : metrics) : result unit -> result unit -> metrics -> Prop :=
  | labelled_raise e : labelled m' (Raise e) (Raise e) m'
  | labelled_zero_division : labelled m' (Ok tt) (Raise ZeroDivisionError) m'
  | labelled_done label : labelled m' (Ok tt) (Ok tt) (with_lb_state label m').

Lemma balance_label_pure md m lb :
  (exists label, balance_label md m lb = (Ok label, lb))
  \/ balance_label md m lb = (Raise ZeroDivisionError, lb).
Proof.
  unfold balance_label.
  destruct (map weight _); [left; eexists; reflexivity|].
  unfold bind, truediv.
  destruct (py_truediv _ _); unfold ret, raise; [|now right].
  destruct (py_truediv _ _); unfold ret, raise; [|now right].
  left. eexists. reflexivity.
Qed.

(** A commit on a known instance, as one equation: the two entries that
    [update_node] leaves, the label on top, and nothing else. *)
Lemma commit_effect lb model_name node response_time is_error token_count
    now m w :
  metrics_of lb model_name node = Some m ->
  weights_of lb model_name node = Some w ->
  exists r0 m' w' r m'',
    commit_outcome response_time is_error token_count now m w r0 m' w'
    /\ labelled m' r0 r m''
    /\ update_instance_metrics model_name node response_time is_error
         token_count now lb
       = (r, set_weights model_name node w'
               (set_metrics model_name node m'' lb)).
Proof.
  intros Hm Hw.
  destruct (update_node_outcome response_time is_error token_count now m w)
    as (r0 & m' & w' & Hrun & Hout).
  exists r0, m', w'.
  unfold update_instance_metrics, bind at 1, get at 1.
  unfold metrics_of in Hm. unfold weights_of in Hw.
  destruct (dict_get model_name (service_metrics lb)) as [md|] eqn:Hmd;
    [|discriminate].
  destruct (dict_get model_name (service_weights lb)) as [wd|] eqn:Hwd;
    [|discriminate].
  rewrite Hm. unfold bind at 1, subscript at 1. rewrite Hwd. unfold ret at 1.
  unfold bind at 1, subscript at 1. rewrite Hw. unfold ret at 1.
  rewrite Hrun. unfold bind at 1, put at 1.
  set (lb1 := set_weights model_name node w'
                (set_metrics model_name node m' lb)).
  assert (Hm1 : metrics_of lb1 model_name node = Some m').
  { unfold lb1. rewrite metrics_of_set_weights.
    eapply metrics_of_set_metrics_same. exact Hmd. }
  destruct r0 as [[]|e].
  2:{ exists (Raise e), m'. repeat split; auto. constructor. }
  unfold bind at 1, get at 1.
  assert (Hmd1 : exists md1, dict_get model_name (service_metrics lb1)
                             = Some md1).
  { unfold metrics_of in Hm1.
    destruct (dict_get model_name (service_metrics lb1)); [eauto|discriminate]. }
  destruct Hmd1 as [md1 Hmd1].
  unfold bind at 1, subscript at 1. rewrite Hmd1. unfold ret at 1.
  unfold bind at 1.
  destruct (balance_label_pure md1 m' lb1) as [[label ->]| ->].
  - pose proof (update_metrics_spec model_name node (with_lb_state label) lb1)
      as Hupd.
    rewrite Hm1 in Hupd. rewrite Hupd.
    exists (Ok tt), (with_lb_state label m'). repeat split; auto.
    + constructor.
    + unfold lb1. now rewrite set_metrics_set_weights, set_metrics_twice.
  - exists (Raise ZeroDivisionError), m'. repeat split; auto. constructor.
Qed.

(** A commit raises nothing but [TypeError] and [ZeroDivisionError] when
    the instance has its two entries. *)
Lemma commit_outcome_raise response_time is_error token_count now m w
    r0 m' w' r m'' e :
  commit_outcome response_time is_error token_count now m w r0 m' w' ->
  labelled m' r0 r m'' -> r = Raise e ->
  e = TypeError \/ e = ZeroDivisionError.
Proof.
  intros Hout Hlab ->. inversion Hlab; subst; auto.
  inversion Hout; subst; auto.
Qed.

(** ** [initialize] *)

Lemma dict_mem_keys {V W : Type} (k : string) (d : pydict V) (d' : pydict W) :
  keys d = keys d' -> dict_mem k d = dict_mem k d'.
Proof.
  intros H. unfold dict_mem.
  pose proof (dict_get_keys k d) as H1. pose proof (dict_get_keys k d') as H2.
  rewrite H in H1.
  destruct (dict_get k d), (dict_get k d'); auto.
  - exfalso. apply H2; [|reflexivity]. apply H1. discriminate.
  - exfalso. apply H1; [|reflexivity]. apply H2. discriminate.
Qed.

(** The two entries under [node] are those [initialize] builds from one
    and the same instance of [instances], or both missing. *)
Definition fresh_pair (instances : list instance_cfg) (node : string)
    (om : option metrics) (ow : option weights) : Prop :=
  match om, ow with
  | None, None => True
  | Some m, Some w =>
      exists i t,
        In i instances /\ cfg_name i = node
        /\ m = initial_metrics t i /\ w = initial_weights i
  | _, _ => False
  end.

Lemma fresh_pair_more seen more node om ow :
  fresh_pair seen node om ow -> fresh_pair (seen ++ more) node om ow.
Proof.
  unfold fresh_pair. destruct om, ow; auto.
  intros (i & t & Hin & H). exists i, t. split; auto.
  apply in_or_app. now left.
Qed.

Lemma init_instances_pairs clock instances :
  forall k wd md seen wd' md' k',
    (forall node, fresh_pair seen node (dict_get node md) (dict_get node wd)) ->
    keys wd = keys md -> NoDup (keys md) ->
    init_instances clock k instances wd md = (wd', md', k') ->
    (forall node,
        fresh_pair (seen ++ instances) node
          (dict_get node md') (dict_get node wd'))
    /\ keys wd' = keys md' /\ NoDup (keys md')
    /\ (forall i, In i instances -> dict_get (cfg_name i) md' <> None).
Proof.
  induction instances as [|i rest IH]; intros k wd md seen wd' md' k' Hp Hk Hn;
    simpl.
  - intros [= <- <- <-]. rewrite app_nil_r. repeat split; auto.
  - intros Hrun.
    destruct (fun H1 H2 H3 => IH (S k) _ _ (seen ++ [i]) _ _ _ H1 H2 H3 Hrun)
      as (Hp' & Hk' & Hn' & Hc').
    + intros node. destruct (string_dec (cfg_name i) node) as [<-|Hne].
      * rewrite !dict_get_set_same. exists i, (clock k).
        repeat split; auto. apply in_or_app. right. now left.
      * rewrite !dict_get_set_other by assumption.
        apply fresh_pair_more, Hp.
    + rewrite !keys_dict_set, (dict_mem_keys _ _ _ Hk), Hk. reflexivity.
    + now apply nodup_dict_set.
    + rewrite <- app_assoc in Hp'. repeat split; auto.
      intros i' [<-|Hin]; [|now apply Hc'].
      specialize (Hp' (cfg_name i)). unfold fresh_pair in Hp'.
      assert (Hpres : dict_get (cfg_name i)
                        (dict_set (cfg_name i) (initial_metrics (clock k) i) md)
                      <> None) by (rewrite dict_get_set_same; discriminate).
      clear Hp'. revert Hrun Hpres. generalize (S k).
      generalize (dict_set (cfg_name i) (initial_weights i) wd).
      generalize (dict_set (cfg_name i) (initial_metrics (clock k) i) md).
      clear. induction rest as [|j rest IHr]; simpl; intros md wd k Hrun Hpres.
      * injection Hrun as <- <- <-. exact Hpres.
      * eapply IHr; [exact Hrun|].
        destruct (string_dec (cfg_name j) (cfg_name i)) as [->|Hne].
        -- rewrite dict_get_set_same. discriminate.
        -- now rewrite dict_get_set_other.
Qed.

(** Every model of the store has its two dictionaries, built from one of
    the instance lists of [seen]. *)
Definition fresh_store (seen : model_instances) (lb : balancer) : Prop :=
  forall model_name,
    match dict_get model_name (service_metrics lb),
          dict_get model_name (service_weights lb) with
    | None, None => True
    | Some md, Some wd =>
        keys wd = keys md /\ NoDup (keys md)
        /\ exists instances,
             In (model_name, instances) seen
             /\ (forall node,
                    fresh_pair instances node
                      (dict_get node md) (dict_get node wd))
             /\ (forall i, In i instances -> dict_get (cfg_name i) md <> None)
    | _, _ => False
    end.

Lemma init_models_fresh_store clock cfg :
  forall k seen lb,
    fresh_store seen lb ->
    fresh_store (seen ++ cfg) (init_models clock k cfg lb).
Proof.
  induction cfg as [|[name instances] rest IH]; intros k seen lb Hf; simpl.
  - now rewrite app_nil_r.
  - destruct (init_instances clock k instances [] []) as [[wd md] k'] eqn:Hi.
    replace (seen ++ (name, instances) :: rest)
      with ((seen ++ [(name, instances)]) ++ rest)
      by now rewrite <- app_assoc.
    apply IH. intros model_name. simpl.
    destruct (string_dec name model_name) as [<-|Hne].
    + rewrite !dict_get_set_same.
      destruct (init_instances_pairs clock instances k [] [] [] wd md k')
        as (Hp & Hk & Hn & Hc); auto.
      { intros node. exact I. }
      { constructor. }
      repeat split; auto. exists instances. repeat split; auto.
      apply in_or_app. right. now left.
    + rewrite !dict_get_set_other by assumption.
      specialize (Hf model_name).
      destruct (dict_get model_name (service_metrics lb)),
               (dict_get model_name (service_weights lb)); auto.
      destruct Hf as (Hk & Hn & insts & Hin & Hp).
      repeat split; auto. exists insts. split; auto.
      apply in_or_app. now left.
Qed.

Lemma initialize_fresh_store clock cfg :
  fresh_store cfg (initialize clock cfg).
Proof.
  unfold initialize. apply (init_models_fresh_store clock cfg 0 []).
  intros model_name. exact I.
Qed.

Lemma aligned_initialize clock cfg : aligned (initialize clock cfg).
Proof.
  intros model_name.
  pose proof (initialize_fresh_store clock cfg model_name) as H.
  destruct (dict_get model_name (service_metrics (initialize clock cfg))),
           (dict_get model_name (service_weights (initialize clock cfg)));
    auto.
  destruct H as (Hk & Hn & _). auto.
Qed.

Lemma aligned_weights lb model_name node m :
  aligned lb -> metrics_of lb model_name node = Some m ->
  exists w, weights_of lb model_name node = Some w.
Proof.
  intros Ha. specialize (Ha model_name). unfold metrics_of, weights_of.
  destruct (dict_get model_name (service_metrics lb)) as [md|];
    [|discriminate].
  destruct (dict_get model_name (service_weights lb)) as [wd|];
    [|contradiction].
  destruct Ha as [Hk _]. intros Hm.
  assert (Hin : In node (keys wd)).
  { rewrite Hk. apply dict_get_keys. congruence. }
  apply dict_get_keys in Hin.
  destruct (dict_get node wd); [eauto|congruence].
Qed.

Lemma same_keys_commit lb model_name node response_time is_error token_count
    now :
  aligned lb ->
  same_keys lb
    (snd (update_instance_metrics model_name node response_time is_error
            token_count now lb)).
Proof.
  intros Ha.
  destruct (metrics_of lb model_name node) as [m|] eqn:Hm.
  2:{ rewrite commit_unknown_returns by assumption. apply same_keys_refl. }
  destruct (aligned_weights _ _ _ _ Ha Hm) as [w Hw].
  destruct (commit_effect lb model_name node response_time is_error
              token_count now m w Hm Hw)
    as (r0 & m' & w' & r & m'' & _ & _ & ->).
  cbn [snd]. eapply same_keys_trans.
  - eapply same_keys_set_metrics. exact Hm.
  - eapply same_keys_set_weights. rewrite weights_of_set_metrics. exact Hw.
Qed.

Lemma reachable_aligned clock cfg lb : reachable clock cfg lb -> aligned lb.
Proof.
  induction 1.
  - apply aligned_initialize.
  - eapply aligned_same_keys; [|eassumption].
    apply same_keys_get_next_instance.
  - eapply aligned_same_keys; [|eassumption]. now apply same_keys_commit.
Qed.

(** ** A selection on a store whose dictionaries are aligned *)

Lemma service_metrics_set_weights model_name node w lb :
  service_metrics (set_weights model_name node w lb) = service_metrics lb.
Proof.
  unfold set_weights. now destruct (dict_get model_name (service_weights lb)).
Qed.

Lemma aligned_weights_dict lb model_name md :
  aligned lb -> dict_get model_name (service_metrics lb) = Some md ->
  exists wd,
    dict_get model_name (service_weights lb) = Some wd
    /\ keys wd = keys md /\ NoDup (keys md).
Proof.
  intros Ha Hm. specialize (Ha model_name). rewrite Hm in Ha.
  destruct (dict_get model_name (service_weights lb)) as [wd|];
    [|contradiction].
  exists wd. tauto.
Qed.

(** The loop returns: every instance it visits has its weights entry. *)
Lemma select_loop_returns model_name md0 items :
  forall sel lb,
    aligned lb ->
    dict_get model_name (service_metrics lb) = Some md0 ->
    (forall k m, In (k, m) items -> In k (keys md0)) ->
    exists sel' lb',
      for_each items sel (select_body model_name) lb = (Ok sel', lb')
      /\ service_metrics lb' = service_metrics lb
      /\ same_keys lb lb'.
Proof.
  induction items as [|[k m] items IH]; intros sel lb Ha Hmd Hin;
    cbn [for_each].
  - exists sel, lb. split; [reflexivity|]. split; [reflexivity|].
    apply same_keys_refl.
  - assert (Hrest : forall k' m', In (k', m') items -> In k' (keys md0)).
    { intros k' m' H. apply (Hin k' m'). now right. }
    unfold bind at 1. unfold select_body at 1.
    destruct (negb (is_healthy (status m))).
    { unfold ret at 1. now apply IH. }
    destruct (aligned_weights_dict _ _ _ Ha Hmd) as (wd & Hwd & Hk & _).
    assert (Hw : exists w, dict_get k wd = Some w).
    { assert (H : In k (keys wd)).
      { rewrite Hk. apply (Hin k m). now left. }
      apply dict_get_keys in H. destruct (dict_get k wd); [eauto|congruence]. }
    destruct Hw as [w Hw].
    assert (Hwo : weights_of lb model_name k = Some w).
    { unfold weights_of. now rewrite Hwd. }
    unfold bind at 1. unfold get_weights at 1, bind at 1, get at 1.
    unfold bind at 1, subscript at 1. rewrite Hwd. unfold ret at 1.
    unfold subscript at 1. rewrite Hw. unfold ret at 1.
    unfold bind at 1.
    pose proof (update_weights_spec model_name k
                  (with_current_weight
                     (py_add (current_weight w) (effective_weight w))) lb)
      as Hupd.
    rewrite Hwo in Hupd. rewrite Hupd.
    set (lb1 := set_weights model_name k _ lb).
    assert (Hs1 : same_keys lb lb1).
    { eapply same_keys_set_weights. exact Hwo. }
    assert (Hm1 : service_metrics lb1 = service_metrics lb).
    { apply service_metrics_set_weights. }
    assert (Ha1 : aligned lb1) by (eapply aligned_same_keys; eauto).
    destruct (py_gt _ _); unfold ret at 1;
      match goal with
      | |- context [for_each items ?s _ lb1] =>
          destruct (IH s lb1 Ha1) as (sel' & lb' & Hrun & Hm' & Hs'); auto;
            [now rewrite Hm1|];
            exists sel', lb'; split; [exact Hrun|]; split;
              [congruence|eapply same_keys_trans; eauto]
      end.
Qed.

Lemma In_keys {V : Type} (k : string) (v : V) (d : pydict V) :
  In (k, v) d -> In k (keys d).
Proof. intros H. change k with (fst (k, v)). now apply in_map. Qed.

(** What a selection does on an aligned store. *)
Lemma select_effect lb model_name :
  aligned lb ->
  match dict_get model_name (service_metrics lb) with
  | None =>
      get_next_instance model_name lb
      = (Raise (HTTPException 404 (ModelNotConfigured model_name)), lb)
  | Some md =>
      exists lb1,
        service_metrics lb1 = service_metrics lb
        /\ same_keys lb lb1
        /\ (get_next_instance model_name lb
            = (Raise (HTTPException 503 (NoHealthyNode model_name)), lb1)
            \/ exists name m,
                 dict_get name md = Some m /\ status m = Healthy
                 /\ get_next_instance model_name lb
                    = (Ok (name, node_id m),
                       set_metrics model_name name
                         (with_active_requests (active_requests m + 1) m)
                         lb1))
  end.
Proof.
  intros Ha.
  destruct (dict_get model_name (service_metrics lb)) as [md|] eqn:Hmd.
  2:{ unfold get_next_instance, bind, get. now rewrite Hmd. }
  destruct (aligned_weights_dict _ _ _ Ha Hmd) as (wd & Hwd & Hk & Hn).
  destruct (select_loop_returns model_name md md selection_start lb Ha Hmd)
    as (sel & lb0 & Hloop & Hm0 & Hs0).
  { intros k m. apply In_keys. }
  pose proof (select_loop_chosen model_name md [] selection_start lb sel lb0
                I Hloop) as Hc.
  unfold chosen_from in Hc. simpl in Hc.
  destruct (get_next_instance model_name lb) as [r lbf] eqn:Hrun.
  revert Hrun.
  unfold get_next_instance, bind at 1, get at 1. rewrite Hmd.
  unfold bind at 1, subscript at 1. rewrite Hwd. unfold ret at 1.
  unfold bind at 1. rewrite Hloop.
  destruct (best sel) as [b|].
  2:{ intros [= <- <-]. exists lb0. split; [exact Hm0|].
      split; [exact Hs0|]. now left. }
  destruct Hc as (m & Hin & Hst & Hid).
  assert (Hget : dict_get (get_node_id sel) md = Some m)
    by now apply dict_get_of_In.
  assert (Ha0 : aligned lb0) by (eapply aligned_same_keys; eauto).
  assert (Hmo : metrics_of lb0 model_name (get_node_id sel) = Some m).
  { unfold metrics_of. now rewrite Hm0, Hmd. }
  destruct (aligned_weights _ _ _ _ Ha0 Hmo) as [w Hw].
  unfold bind at 1.
  match goal with
  | |- context [update_weights model_name (get_node_id sel) ?f lb0] =>
      pose proof (update_weights_spec model_name (get_node_id sel) f lb0)
        as Hupd
  end.
  rewrite Hw in Hupd. rewrite Hupd. clear Hupd.
  set (lb1 := set_weights model_name (get_node_id sel) _ lb0).
  assert (Hm1 : service_metrics lb1 = service_metrics lb0)
    by apply service_metrics_set_weights.
  assert (Hmo1 : metrics_of lb1 model_name (get_node_id sel) = Some m).
  { unfold metrics_of. now rewrite Hm1, Hm0, Hmd. }
  unfold bind at 1.
  match goal with
  | |- context [update_metrics model_name (get_node_id sel) ?f lb1] =>
      pose proof (update_metrics_spec model_name (get_node_id sel) f lb1)
        as Hupd
  end.
  rewrite Hmo1 in Hupd. rewrite Hupd. clear Hupd.
  unfold ret. intros [= <- <-].
  exists lb1. split; [congruence|]. split.
  { eapply same_keys_trans; [exact Hs0|].
    eapply same_keys_set_weights. exact Hw. }
  right. exists (get_node_id sel), m. subst b.
  split; [exact Hget|]. split; [exact Hst|]. reflexivity.
Qed.

(** ** What one call does to the entries of an instance *)

(** A selection leaves a metrics entry as it was, or books one more
    active request on it. *)
Lemma select_metrics_step lb model_name model' node' :
  aligned lb ->
  let lb' := snd (get_next_instance model_name lb) in
  metrics_of lb' model' node' = metrics_of lb model' node'
  \/ exists m0,
       metrics_of lb model' node' = Some m0 /\ status m0 = Healthy
       /\ metrics_of lb' model' node'
          = Some (with_active_requests (active_requests m0 + 1) m0).
Proof.
  intros Ha lb'. subst lb'.
  pose proof (select_effect lb model_name Ha) as He.
  destruct (dict_get model_name (service_metrics lb)) as [md|] eqn:Hmd.
  2:{ rewrite He. now left. }
  destruct He as (lb1 & Hm1 & _ & [-> | (name & m & Hget & Hst & ->)]);
    cbn [snd].
  - left. unfold metrics_of. now rewrite Hm1.
  - assert (Hsame : forall a c, metrics_of lb1 a c = metrics_of lb a c).
    { intros. unfold metrics_of. now rewrite Hm1. }
    destruct (string_dec model' model_name) as [->|Hne];
      [destruct (string_dec node' name) as [->|Hne]|].
    + right. exists m. split; [|split; [exact Hst|]].
      * unfold metrics_of. now rewrite Hmd.
      * eapply metrics_of_set_metrics_same. rewrite Hm1. exact Hmd.
    + left. rewrite metrics_of_set_metrics_other by congruence. apply Hsame.
    + left. rewrite metrics_of_set_metrics_other by congruence. apply Hsame.
Qed.

(** A commit leaves the two entries of every instance as they were, save
    those of its own instance, which it leaves as [commit_outcome] and
    [labelled] say. *)
Lemma commit_step lb model_name node response_time is_error token_count now
    model' node' :
  aligned lb ->
  let lb' := snd (update_instance_metrics model_name node response_time
                    is_error token_count now lb) in
  (metrics_of lb' model' node' = metrics_of lb model' node'
   /\ weights_of lb' model' node' = weights_of lb model' node')
  \/ exists m w r0 m' w' r m'',
       model' = model_name /\ node' = node
       /\ metrics_of lb model_name node = Some m
       /\ weights_of lb model_name node = Some w
       /\ commit_outcome response_time is_error token_count now m w r0 m' w'
       /\ labelled m' r0 r m''
       /\ fst (update_instance_metrics model_name node response_time
                 is_error token_count now lb) = r
       /\ metrics_of lb' model_name node = Some m''
       /\ weights_of lb' model_name node = Some w'.
Proof.
  intros Ha lb'. subst lb'.
  destruct (metrics_of lb model_name node) as [m|] eqn:Hm.
  2:{ rewrite commit_unknown_returns by assumption. now left. }
  destruct (aligned_weights _ _ _ _ Ha Hm) as [w Hw].
  destruct (commit_effect lb model_name node response_time is_error
              token_count now m w Hm Hw)
    as (r0 & m' & w' & r & m'' & Hout & Hlab & ->).
  cbn [fst snd].
  destruct (string_dec model' model_name) as [->|Hne];
    [destruct (string_dec node' node) as [->|Hne]|].
  - right. exists m, w, r0, m', w', r, m''. repeat split; auto.
    + rewrite metrics_of_set_weights.
      unfold metrics_of in Hm.
      destruct (dict_get model_name (service_metrics lb)) as [md|] eqn:Hmd;
        [|discriminate].
      eapply metrics_of_set_metrics_same. exact Hmd.
    + unfold weights_of in Hw.
      destruct (dict_get model_name (service_weights lb)) as [wd|] eqn:Hwd;
        [|discriminate].
      eapply weights_of_set_weights_same.
      unfold set_metrics.
      destruct (dict_get model_name (service_metrics lb)); exact Hwd.
  - left. destruct (only_at_write model_name node m'' w' lb model_name node')
      as [Hw' Hm']; [congruence|]. now split.
  - left. destruct (only_at_write model_name node m'' w' lb model' node')
      as [Hw' Hm']; [congruence|]. now split.
Qed.

(** ** [initialize], as its callers see it *)

Lemma init_models_known clock cfg :
  forall k lb model_name,
    dict_get model_name (service_metrics (init_models clock k cfg lb)) <> None
    <-> In model_name (keys cfg)
        \/ dict_get model_name (service_metrics lb) <> None.
Proof.
  induction cfg as [|[name instances] rest IH]; intros k lb model_name; simpl.
  - tauto.
  - destruct (init_instances clock k instances [] []) as [[wd md] k'].
    rewrite IH. simpl.
    destruct (string_dec name model_name) as [->|Hne].
    + rewrite dict_get_set_same. split; [intros _; now left; left|].
      intros _. right. discriminate.
    + rewrite dict_get_set_other by assumption. tauto.
Qed.

Lemma keys_In_unique {V : Type} (k : string) (v v' : V) (d : pydict V) :
  NoDup (keys d) -> In (k, v) d -> In (k, v') d -> v = v'.
Proof.
  intros Hn H1 H2.
  apply (dict_get_of_In _ _ _ Hn) in H1. apply (dict_get_of_In _ _ _ Hn) in H2.
  congruence.
Qed.

Lemma initialize_entry clock cfg model_name node m :
  metrics_of (initialize clock cfg) model_name node = Some m ->
  exists instances i t,
    In (model_name, instances) cfg /\ In i instances /\ cfg_name i = node
    /\ m = initial_metrics t i
    /\ weights_of (initialize clock cfg) model_name node
       = Some (initial_weights i).
Proof.
  intros Hm. pose proof (initialize_fresh_store clock cfg model_name) as Hf.
  unfold metrics_of, weights_of in *.
  destruct (dict_get model_name (service_metrics (initialize clock cfg)))
    as [md|]; [|discriminate].
  destruct (dict_get model_name (service_weights (initialize clock cfg)))
    as [wd|]; [|contradiction].
  destruct Hf as (_ & _ & instances & Hin & Hp & _).
  specialize (Hp node). rewrite Hm in Hp. unfold fresh_pair in Hp.
  destruct (dict_get node wd) as [w|]; [|contradiction].
  destruct Hp as (i & t & Hi & Hname & -> & ->).
  exists instances, i, t. repeat split; auto.
Qed.

(** X1: every entry that [initialize] leaves in the store is the fresh
    entry of a configured instance of that model: healthy, with zero
    counters and an empty load history, and with its configured weight
    (20 by default) as current weight, effective weight and reported
    weight; its weights entry is the one built from the same instance. *)
Theorem initialize_entries_are_fresh (clock : nat -> float)
    (cfg : model_instances) (model_name node : string) (m : metrics) :
  metrics_of (initialize clock cfg) model_name node = Some m ->
  exists instances i t,
    In (model_name, instances) cfg /\ In i instances /\ cfg_name i = node
    /\ m = initial_metrics t i
    /\ weights_of (initialize clock cfg) model_name node
       = Some (initial_weights i).
Proof. apply initialize_entry. Qed.

Lemma initialize_entries_witness :
  metrics_of (initialize seconds demotion_cfg) "m" "A"
  = Some (initial_metrics (seconds 0) (instance "A" 20))
  /\ exists instances i t,
       In ("m"%string, instances) demotion_cfg /\ In i instances
       /\ cfg_name i = "A"%string
       /\ initial_metrics (seconds 0) (instance "A" 20) = initial_metrics t i
       /\ weights_of (initialize seconds demotion_cfg) "m" "A"
          = Some (initial_weights i).
Proof.
  assert (H : metrics_of (initialize seconds demotion_cfg) "m" "A"
              = Some (initial_metrics (seconds 0) (instance "A" 20)))
    by (vm_compute; reflexivity).
  split; [exact H|].
  exact (initialize_entries_are_fresh seconds demotion_cfg "m" "A" _ H).
Defined.

(** After [initialize] on instances that were all read, a model is known
    to the store exactly when it is configured, and every instance of
    the list of a model has its metrics entry and its weights entry
    under its name. *)
Lemma initialize_known_entries (clock : nat -> float)
    (cfg : model_instances) (model_name : string) :
  (dict_get model_name (service_metrics (initialize clock cfg)) <> None
   <-> In model_name (keys cfg))
  /\ (NoDup (keys cfg) ->
      forall instances i,
        In (model_name, instances) cfg -> In i instances ->
        metrics_of (initialize clock cfg) model_name (cfg_name i) <> None
        /\ weights_of (initialize clock cfg) model_name (cfg_name i) <> None).
Proof.
  assert (Hknown :
            dict_get model_name (service_metrics (initialize clock cfg))
            <> None <-> In model_name (keys cfg)).
  { unfold initialize. rewrite init_models_known. simpl. tauto. }
  split; [exact Hknown|].
  intros Hn instances i Hin Hi.
  pose proof (initialize_fresh_store clock cfg model_name) as Hf.
  assert (Hk : In model_name (keys cfg)) by (eapply In_keys; eauto).
  apply Hknown in Hk. unfold metrics_of, weights_of.
  destruct (dict_get model_name (service_metrics (initialize clock cfg)))
    as [md|]; [|congruence].
  destruct (dict_get model_name (service_weights (initialize clock cfg)))
    as [wd|]; [|contradiction].
  destruct Hf as (Hkeys & _ & instances' & Hin' & _ & Hc).
  assert (instances' = instances) as -> by (eapply keys_In_unique; eauto).
  split; [now apply Hc|].
  apply dict_get_keys. rewrite Hkeys. apply dict_get_keys. now apply Hc.
Qed.

(** ** [get_next_instance], as its callers see it *)



Lemma select_returns lb lb' model_name name id :
  aligned lb ->
  get_next_instance model_name lb = (Ok (name, id), lb') ->
  exists m0,
    metrics_of lb model_name name = Some m0
    /\ status m0 = Healthy /\ node_id m0 = id
    /\ metrics_of lb' model_name name
       = Some (with_active_requests (active_requests m0 + 1) m0)
    /\ forall model' node',
         (model', node') <> (model_name, name) ->
         metrics_of lb' model' node' = metrics_of lb model' node'.
Proof.
  intros Hr Hrun.
  pose proof (select_effect lb model_name Hr) as He.
  destruct (dict_get model_name (service_metrics lb)) as [md|] eqn:Hmd.
  2:{ rewrite He in Hrun. discriminate. }
  destruct He as (lb1 & Hm1 & _ & [H|(name' & m & Hget & Hst & H)]);
    rewrite H in Hrun; [discriminate|].
  injection Hrun as <- <- <-. exists m.
  assert (Hsame : forall a c, metrics_of lb1 a c = metrics_of lb a c).
  { intros. unfold metrics_of. now rewrite Hm1. }
  split; [unfold metrics_of; now rewrite Hmd|].
  split; [exact Hst|]. split; [reflexivity|]. split.
  - eapply metrics_of_set_metrics_same. rewrite Hm1. exact Hmd.
  - intros model' node' Hne.
    rewrite metrics_of_set_metrics_other by exact Hne. apply Hsame.
Qed.

(** X4: on a reachable store a selection that returns [(name, id)] has
    picked a healthy instance of the model, [id] being the [node_id] of
    its metrics entry, has booked exactly one more active request on it,
    and has left every other metrics entry of the store as it was. *)
Theorem selection_books_one_request (clock : nat -> float)
    (cfg : model_instances) (lb lb' : balancer)
    (model_name name id : string) :
  reachable clock cfg lb ->
  get_next_instance model_name lb = (Ok (name, id), lb') ->
  exists m0,
    metrics_of lb model_name name = Some m0
    /\ status m0 = Healthy /\ node_id m0 = id
    /\ metrics_of lb' model_name name
       = Some (with_active_requests (active_requests m0 + 1) m0)
    /\ forall model' node',
         (model', node') <> (model_name, name) ->
         metrics_of lb' model' node' = metrics_of lb model' node'.
Proof.
  intros Hr Hrun. eapply select_returns; [|exact Hrun].
  eapply reachable_aligned. exact Hr.
Qed.

Lemma selection_books_witness :
  reachable seconds fairness_cfg (initialize seconds fairness_cfg)
  /\ get_next_instance "m" (initialize seconds fairness_cfg)
     = (Ok ("A"%string, "10.0.0.1:8000"%string),
        snd (get_next_instance "m" (initialize seconds fairness_cfg)))
  /\ exists m0,
       metrics_of (initialize seconds fairness_cfg) "m" "A" = Some m0
       /\ status m0 = Healthy /\ node_id m0 = "10.0.0.1:8000"%string
       /\ metrics_of
            (snd (get_next_instance "m" (initialize seconds fairness_cfg)))
            "m" "A"
          = Some (with_active_requests (active_requests m0 + 1) m0)
       /\ forall model' node',
            (model', node') <> ("m"%string, "A"%string) ->
            metrics_of
              (snd (get_next_instance "m" (initialize seconds fairness_cfg)))
              model' node'
            = metrics_of (initialize seconds fairness_cfg) model' node'.
Proof.
  assert (Hr : reachable seconds fairness_cfg (initialize seconds fairness_cfg))
    by apply reach_initialize.
  assert (Hrun : get_next_instance "m" (initialize seconds fairness_cfg)
                 = (Ok ("A"%string, "10.0.0.1:8000"%string),
                    snd (get_next_instance "m"
                           (initialize seconds fairness_cfg))))
    by (vm_compute; reflexivity).
  split; [exact Hr|]. split; [exact Hrun|].
  exact (selection_books_one_request seconds fairness_cfg _ _ "m" "A" _
           Hr Hrun).
Defined.

(** X5: a selection, whether it returns or raises, changes no status, no
    effective weight and no failure count, on any store. *)
Theorem selection_keeps_health (lb : balancer)
    (model_name model' node' : string) :
  option_map status
    (metrics_of (snd (get_next_instance model_name lb)) model' node')
  = option_map status (metrics_of lb model' node')
  /\ option_map effective_weight
       (weights_of (snd (get_next_instance model_name lb)) model' node')
     = option_map effective_weight (weights_of lb model' node')
  /\ option_map history_failures
       (weights_of (snd (get_next_instance model_name lb)) model' node')
     = option_map history_failures (weights_of lb model' node').
Proof.
  destruct (same_health_get_next_instance model_name lb model' node')
    as [Hs Hw].
  split; [exact Hs|].
  destruct (weights_of (snd (get_next_instance model_name lb)) model' node'),
           (weights_of lb model' node');
    simpl in *; try discriminate; [|auto].
  injection Hw as -> ->. auto.
Qed.

(** ** [update_instance_metrics], as its callers see it *)

Lemma commit_without_weights lb model_name node response_time is_error
    token_count now :
  weights_of lb model_name node = None ->
  snd (update_instance_metrics model_name node response_time is_error
         token_count now lb) = lb.
Proof.
  intros Hw. unfold update_instance_metrics, bind, get.
  unfold weights_of in Hw.
  destruct (dict_get model_name (service_metrics lb)) as [md|]; [|reflexivity].
  destruct (dict_get node md); [|reflexivity]. unfold subscript.
  destruct (dict_get model_name (service_weights lb)); simpl; auto.
  now rewrite Hw.
Qed.

Lemma commit_frame lb model_name node response_time is_error token_count
    now :
  only_at model_name node lb
    (snd (update_instance_metrics model_name node response_time is_error
            token_count now lb)).
Proof.
  intros model' node' Hne.
  destruct (metrics_of lb model_name node) as [m|] eqn:Hm.
  2:{ rewrite commit_unknown_returns by assumption. auto. }
  destruct (weights_of lb model_name node) as [w|] eqn:Hw.
  2:{ rewrite commit_without_weights by assumption. auto. }
  destruct (commit_effect lb model_name node response_time is_error
              token_count now m w Hm Hw)
    as (r0 & m' & w' & r & m'' & _ & _ & ->).
  cbn [snd]. now apply only_at_write.
Qed.

(** X6: a commit, whether it returns or raises, leaves the weights entry
    and the metrics entry of every other instance of the store exactly
    as they were, on any store. *)
Theorem commit_touches_one_instance (lb : balancer)
    (model_name node : string) (response_time : pynum) (is_error : bool)
    (token_count : pyval) (now : float) (model' node' : string) :
  (model', node') <> (model_name, node) ->
  weights_of
    (snd (update_instance_metrics model_name node response_time is_error
            token_count now lb)) model' node'
  = weights_of lb model' node'
  /\ metrics_of
       (snd (update_instance_metrics model_name node response_time is_error
               token_count now lb)) model' node'
     = metrics_of lb model' node'.
Proof. intros Hne. now apply commit_frame. Qed.

Lemma commit_touches_witness :
  ("m"%string, "A"%string) <> ("m"%string, "B"%string)
  /\ weights_of
       (snd (update_instance_metrics "m" "B" (PInt 100) true (VNum (PInt 7))
               (seconds 1) (initialize seconds starvation_cfg))) "m" "A"
     = weights_of (initialize seconds starvation_cfg) "m" "A"
  /\ metrics_of
       (snd (update_instance_metrics "m" "B" (PInt 100) true (VNum (PInt 7))
               (seconds 1) (initialize seconds starvation_cfg))) "m" "A"
     = metrics_of (initialize seconds starvation_cfg) "m" "A".
Proof.
  assert (H : ("m"%string, "A"%string) <> ("m"%string, "B"%string))
    by discriminate.
  split; [exact H|].
  exact (commit_touches_one_instance (initialize seconds starvation_cfg)
           "m" "B" (PInt 100) true (VNum (PInt 7)) (seconds 1) "m" "A" H).
Defined.

(** The stores that follow [lb0]: those any sequence of selections and
    commits leads to. *)
Inductive follows (lb0 : balancer) : balancer -> Prop :=
  | follows_here : follows lb0 lb0
  | follows_select lb model_name :
      follows lb0 lb ->
      follows lb0 (snd (get_next_instance model_name lb))
  | follows_commit lb model_name node response_time is_error token_count now :
      follows lb0 lb ->
      follows lb0
        (snd (update_instance_metrics model_name node response_time is_error
                token_count now lb)).

(** The fields the steps of a commit leave. *)
Lemma counted_fields response_time m :
  request_count (counted response_time m) = request_count m + 1
  /\ error_count (counted response_time m) = error_count m
  /\ active_requests (counted response_time m) = active_requests m
  /\ status (counted response_time m) = status m.
Proof. repeat split. Qed.

Lemma released_fields response_time k now m :
  request_count (released response_time k now m) = request_count m + 1
  /\ error_count (released response_time k now m) = error_count m
  /\ active_requests (released response_time k now m)
     = Z.max 0 (active_requests m - 1)
  /\ status (released response_time k now m) = status m.
Proof. repeat split. Qed.

Lemma controlled_fields is_error w now x m :
  let m' := controlled_metrics is_error w
              (with_last_update now (with_load_rate x m)) in
  request_count m' = request_count m
  /\ (error_count m' = error_count m \/ error_count m' = error_count m + 1)
  /\ active_requests m' = active_requests m
  /\ (status m = Warning -> status m' = Warning).
Proof.
  unfold controlled_metrics. destruct is_error;
    [destruct (3 <? history_failures w + 1)|]; repeat split; auto.
Qed.

Lemma commit_keeps_warning lb model_name node response_time is_error
    token_count now model' node' :
  option_map status (metrics_of lb model' node') = Some Warning ->
  option_map status
    (metrics_of
       (snd (update_instance_metrics model_name node response_time is_error
               token_count now lb)) model' node') = Some Warning.
Proof.
  intros Hst.
  destruct (metrics_of lb model_name node) as [m|] eqn:Hm.
  2:{ now rewrite commit_unknown_returns. }
  destruct (weights_of lb model_name node) as [w|] eqn:Hw.
  2:{ now rewrite commit_without_weights. }
  destruct (commit_effect lb model_name node response_time is_error
              token_count now m w Hm Hw)
    as (r0 & m' & w' & r & m'' & Hout & Hlab & Hrun).
  destruct (string_dec model' model_name) as [->|Hne];
    [destruct (string_dec node' node) as [->|Hne]|].
  - rewrite Hm in Hst. simpl in Hst. injection Hst as Hst.
    rewrite Hrun. cbn [snd]. rewrite metrics_of_set_weights.
    unfold metrics_of in Hm.
    destruct (dict_get model_name (service_metrics lb)) as [md|] eqn:Hmd;
      [|discriminate].
    erewrite metrics_of_set_metrics_same by exact Hmd. simpl. f_equal.
    assert (Hm' : status m' = Warning).
    { destruct Hout as [Hk|k Hk Hne Hz|k x Hk Hx Hor].
      - now rewrite (proj2 (proj2 (proj2 (counted_fields response_time m)))).
      - now rewrite (proj2 (proj2 (proj2
                       (released_fields response_time k now m)))).
      - apply (controlled_fields is_error w now x
                 (released response_time k now m)).
        now rewrite (proj2 (proj2 (proj2
                       (released_fields response_time k now m)))). }
    destruct Hlab; exact Hm'.
  - destruct (commit_frame lb model_name node response_time
                is_error token_count now model_name node') as [_ ->];
      [congruence|exact Hst].
  - destruct (commit_frame lb model_name node response_time
                is_error token_count now model' node') as [_ ->];
      [congruence|exact Hst].
Qed.

(** X7: [Warning] is final.  Once the status of an instance is
    [Warning], it is [Warning] in every store that selections and
    commits lead to, successful commits on that instance included: no
    call of the two sets a status back to [Healthy]. *)
Theorem warning_is_permanent (lb lb' : balancer) (model_name node : string) :
  follows lb lb' ->
  option_map status (metrics_of lb model_name node) = Some Warning ->
  option_map status (metrics_of lb' model_name node) = Some Warning.
Proof.
  intros Hf Hst. induction Hf as [|lb1 model' _ IH|lb1 model' node' rt ie tok now _ IH].
  - exact Hst.
  - destruct (same_health_get_next_instance model' lb1 model_name node)
      as [-> _]. exact IH.
  - now apply commit_keeps_warning.
Qed.

(** Model [m] of the starvation scenario after a success commit on the
    instance [B], which is in [Warning], and one more selection. *)
Definition after_recovery_attempt : balancer :=
  snd (get_next_instance "m"
         (snd (update_instance_metrics "m" "B" (PInt 100) false
                 (VNum (PInt 0)) (seconds 5) starved))).

Lemma warning_is_permanent_witness :
  follows starved after_recovery_attempt
  /\ option_map status (metrics_of starved "m" "B") = Some Warning
  /\ option_map status (metrics_of after_recovery_attempt "m" "B")
     = Some Warning.
Proof.
  assert (Hf : follows starved after_recovery_attempt).
  { unfold after_recovery_attempt. apply follows_select, follows_commit,
      follows_here. }
  assert (Hs : option_map status (metrics_of starved "m" "B") = Some Warning)
    by (vm_compute; reflexivity).
  split; [exact Hf|]. split; [exact Hs|].
  exact (warning_is_permanent starved after_recovery_attempt "m" "B" Hf Hs).
Defined.

(** ** Invariants of the reachable stores *)

Lemma outcome_counters response_time is_error token_count now m w r0 m' w'
    r m'' :
  commit_outcome response_time is_error token_count now m w r0 m' w' ->
  labelled m' r0 r m'' ->
  request_count m'' = request_count m + 1
  /\ (error_count m'' = error_count m \/ error_count m'' = error_count m + 1)
  /\ (active_requests m'' = active_requests m
      \/ active_requests m'' = Z.max 0 (active_requests m - 1))
  /\ (as_number token_count <> None ->
      active_requests m'' = Z.max 0 (active_requests m - 1)).
Proof.
  intros Hout Hlab.
  assert (H : request_count m' = request_count m + 1
              /\ (error_count m' = error_count m
                  \/ error_count m' = error_count m + 1)
              /\ (active_requests m' = active_requests m
                  \/ active_requests m' = Z.max 0 (active_requests m - 1))
              /\ (as_number token_count <> None ->
                  active_requests m' = Z.max 0 (active_requests m - 1))).
  { destruct Hout as [Hk|k Hk Hne Hz|k x Hk Hx Hor].
    - destruct (counted_fields response_time m) as (-> & -> & -> & _).
      repeat split; auto. congruence.
    - destruct (released_fields response_time k now m) as (-> & -> & -> & _).
      repeat split; auto.
    - destruct (controlled_fields is_error w now x
                  (released response_time k now m)) as (-> & He & -> & _).
      destruct (released_fields response_time k now m) as (-> & Hec & -> & _).
      rewrite Hec in He. repeat split; auto. }
  destruct Hlab; exact H.
Qed.

Lemma counters_invariant clock cfg lb model_name node m :
  reachable clock cfg lb ->
  metrics_of lb model_name node = Some m ->
  0 <= active_requests m
  /\ 0 <= error_count m /\ error_count m <= request_count m.
Proof.
  intros Hr. revert model_name node m.
  induction Hr as [|lb model' Hr IH|lb model' node' rt ie tok now Hr IH];
    intros model_name node m Hm.
  - destruct (initialize_entry clock cfg model_name node m Hm)
      as (instances & i & t & _ & _ & _ & -> & _). simpl. lia.
  - destruct (select_metrics_step lb model' model_name node
                (reachable_aligned _ _ _ Hr)) as [H|(m0 & Hm0 & _ & H)];
      cbn zeta in H; rewrite H in Hm.
    + now apply (IH model_name node).
    + injection Hm as <-. simpl. specialize (IH _ _ _ Hm0). lia.
  - destruct (commit_step lb model' node' rt ie tok now model_name node
                (reachable_aligned _ _ _ Hr))
      as [[H _]|(m0 & w0 & r0 & m1 & w1 & r & m2 & -> & -> & Hm0 & _ & Hout
                 & Hlab & _ & H & _)];
      cbn zeta in H; rewrite H in Hm.
    + now apply (IH model_name node).
    + injection Hm as <-. specialize (IH _ _ _ Hm0).
      destruct (outcome_counters _ _ _ _ _ _ _ _ _ _ _ Hout Hlab)
        as (Hrc & Hec & Hac & _).
      lia.
Qed.

(** X8: on every reachable store the counters of every instance are
    consistent: the number of active requests is not negative, and the
    error count lies between zero and the request count. *)
Theorem reachable_counters_are_consistent (clock : nat -> float)
    (cfg : model_instances) (lb : balancer) (model_name node : string)
    (m : metrics) :
  reachable clock cfg lb ->
  metrics_of lb model_name node = Some m ->
  0 <= active_requests m
  /\ 0 <= error_count m /\ error_count m <= request_count m.
Proof. apply counters_invariant. Qed.

Lemma reachable_counters_witness :
  reachable seconds demotion_cfg demotion_third
  /\ metrics_of demotion_third "m" "A" = Some demotion_metrics
  /\ 0 <= active_requests demotion_metrics
  /\ 0 <= error_count demotion_metrics
  /\ error_count demotion_metrics <= request_count demotion_metrics.
Proof.
  assert (Hr : reachable seconds demotion_cfg demotion_third).
  { unfold demotion_third. cbn [error_commits].
    do 3 apply reach_commit. apply reach_initialize. }
  assert (Hm : metrics_of demotion_third "m" "A" = Some demotion_metrics)
    by (vm_compute; reflexivity).
  split; [exact Hr|]. split; [exact Hm|].
  exact (reachable_counters_are_consistent seconds demotion_cfg demotion_third
           "m" "A" demotion_metrics Hr Hm).
Defined.

Lemma outcome_mirror response_time is_error token_count now m w r0 m' w'
    r m'' :
  commit_outcome response_time is_error token_count now m w r0 m' w' ->
  labelled m' r0 r m'' ->
  weight m = effective_weight w ->
  weight m'' = effective_weight w'.
Proof.
  intros Hout Hlab Hw.
  assert (H : weight m' = effective_weight w').
  { inversion Hout; subst; simpl; auto. }
  inversion Hlab; subst; simpl; exact H.
Qed.

(** X9: on every reachable store every instance with a metrics entry has
    its weights entry, the weight its metrics report is the effective
    weight the selector adds, its failure count is not negative, and a
    healthy instance has at most three failures in a row behind it. *)
Theorem reachable_weight_is_mirrored (clock : nat -> float)
    (cfg : model_instances) (lb : balancer) (model_name node : string)
    (m : metrics) :
  reachable clock cfg lb ->
  metrics_of lb model_name node = Some m ->
  exists w,
    weights_of lb model_name node = Some w
    /\ weight m = effective_weight w
    /\ 0 <= history_failures w
    /\ (status m = Healthy -> history_failures w <= 3).
Proof.
  intros Hr Hm.
  destruct (aligned_weights _ _ _ _ (reachable_aligned _ _ _ Hr) Hm)
    as [w Hw].
  exists w. split; [exact Hw|].
  split; [|exact (reachable_healthy_bound _ _ _ Hr _ _ _ _ Hm Hw)].
  revert model_name node m w Hm Hw.
  induction Hr as [|lb model' Hr IH|lb model' node' rt ie tok now Hr IH];
    intros model_name node m w Hm Hw.
  - destruct (initialize_entry clock cfg model_name node m Hm)
      as (instances & i & t & _ & _ & _ & -> & Hw').
    rewrite Hw' in Hw. injection Hw as <-. reflexivity.
  - destruct (same_health_get_next_instance model' lb model_name node)
      as [_ He]. rewrite Hw in He.
    destruct (weights_of lb model_name node) as [w0|] eqn:Hw0;
      [|discriminate].
    simpl in He. injection He as He _.
    destruct (select_metrics_step lb model' model_name node
                (reachable_aligned _ _ _ Hr)) as [H|(m0 & Hm0 & _ & H)];
      cbn zeta in H; rewrite H in Hm.
    + rewrite He. now apply (IH model_name node).
    + injection Hm as <-. simpl. rewrite He. now apply (IH model_name node).
  - destruct (commit_step lb model' node' rt ie tok now model_name node
                (reachable_aligned _ _ _ Hr))
      as [[H1 H2]|(m0 & w0 & r0 & m1 & w1 & r & m2 & -> & -> & Hm0 & Hw0
                   & Hout & Hlab & _ & H1 & H2)];
      cbn zeta in H1, H2; rewrite H1 in Hm; rewrite H2 in Hw.
    + now apply (IH model_name node).
    + injection Hm as <-. injection Hw as <-.
      eapply outcome_mirror; eauto.
Qed.

Lemma reachable_weight_witness :
  reachable seconds demotion_cfg demotion_third
  /\ metrics_of demotion_third "m" "A" = Some demotion_metrics
  /\ exists w,
       weights_of demotion_third "m" "A" = Some w
       /\ weight demotion_metrics = effective_weight w
       /\ 0 <= history_failures w
       /\ (status demotion_metrics = Healthy -> history_failures w <= 3).
Proof.
  assert (Hr : reachable seconds demotion_cfg demotion_third).
  { unfold demotion_third. cbn [error_commits].
    do 3 apply reach_commit. apply reach_initialize. }
  assert (Hm : metrics_of demotion_third "m" "A" = Some demotion_metrics)
    by (vm_compute; reflexivity).
  split; [exact Hr|]. split; [exact Hm|].
  exact (reachable_weight_is_mirrored seconds demotion_cfg demotion_third
           "m" "A" demotion_metrics Hr Hm).
Defined.

(** ** The error paths of a commit *)

(** X10: a commit with a token count that is not a number (a string or
    [None] taken from the upstream JSON, say) raises [TypeError] after
    it has stored the response time and counted the request: the active
    request is not released, and neither the error count, the status, the
    weights nor the load history are touched. *)
Theorem commit_with_non_numeric_tokens (lb : balancer)
    (model_name node : string) (response_time : pynum) (is_error : bool)
    (token_count : pyval) (now : float) (m : metrics) (w : weights) :
  metrics_of lb model_name node = Some m ->
  weights_of lb model_name node = Some w ->
  as_number token_count = None ->
  exists lb',
    update_instance_metrics model_name node response_time is_error
      token_count now lb = (Raise TypeError, lb')
    /\ metrics_of lb' model_name node
       = Some (with_request_count (request_count m + 1)
                 (with_inference_time response_time m))
    /\ weights_of lb' model_name node = Some w.
Proof.
  intros Hm Hw Htok.
  destruct (commit_effect lb model_name node response_time is_error
              token_count now m w Hm Hw)
    as (r0 & m' & w' & r & m'' & Hout & Hlab & Hrun).
  inversion Hout; subst; try congruence.
  inversion Hlab; subst.
  eexists. split; [exact Hrun|].
  unfold metrics_of in Hm. unfold weights_of in Hw.
  destruct (dict_get model_name (service_metrics lb)) as [md|] eqn:Hmd;
    [|discriminate].
  destruct (dict_get model_name (service_weights lb)) as [wd|] eqn:Hwd;
    [|discriminate].
  split.
  - rewrite metrics_of_set_weights.
    eapply metrics_of_set_metrics_same. exact Hmd.
  - eapply weights_of_set_weights_same.
    unfold set_metrics. rewrite Hmd. exact Hwd.
Qed.

Lemma commit_non_numeric_witness :
  metrics_of demotion_third "m" "A" = Some demotion_metrics
  /\ weights_of demotion_third "m" "A" = Some demotion_weights
  /\ as_number (VStr []) = None
  /\ exists lb',
       update_instance_metrics "m" "A" (PInt 100) false (VStr [])
         (seconds 4) demotion_third = (Raise TypeError, lb')
       /\ metrics_of lb' "m" "A"
          = Some (with_request_count (request_count demotion_metrics + 1)
                    (with_inference_time (PInt 100) demotion_metrics))
       /\ weights_of lb' "m" "A" = Some demotion_weights.
Proof.
  assert (Hm : metrics_of demotion_third "m" "A" = Some demotion_metrics)
    by (vm_compute; reflexivity).
  assert (Hw : weights_of demotion_third "m" "A" = Some demotion_weights)
    by (vm_compute; reflexivity).
  assert (Ht : as_number (VStr []) = None) by reflexivity.
  split; [exact Hm|]. split; [exact Hw|]. split; [exact Ht|].
  exact (commit_with_non_numeric_tokens demotion_third "m" "A" (PInt 100)
           false (VStr []) (seconds 4) demotion_metrics demotion_weights
           Hm Hw Ht).
Defined.

Lemma filter_keeps_last {A : Type} (f : A -> bool) (l : list A) (x : A) :
  f x = true -> filter f (l ++ [x]) <> [].
Proof.
  intros Hx. rewrite filter_app. simpl. rewrite Hx.
  intros H. apply app_eq_nil in H. destruct H. discriminate.
Qed.

(** X11: an instance whose [load_threshold] is zero is never demoted.
    A commit on it with a numeric token count, at a time [now] that
    compares [>=] to [now - 30], raises [ZeroDivisionError] at the load
    rate: the request is counted and the active request released, but
    the error count, the status and the weights entry stay as they were,
    whatever [is_error] says. *)
Theorem zero_threshold_is_never_demoted (lb : balancer)
    (model_name node : string) (response_time : pynum) (is_error : bool)
    (token_count : pyval) (now : float) (m : metrics) (w : weights) :
  metrics_of lb model_name node = Some m ->
  weights_of lb model_name node = Some w ->
  as_number token_count <> None ->
  py_eq (load_threshold m) (PInt 0) = true ->
  py_ge (PFloat now) (py_sub (PFloat now) (PInt 30)) = true ->
  exists lb' m',
    update_instance_metrics model_name node response_time is_error
      token_count now lb = (Raise ZeroDivisionError, lb')
    /\ metrics_of lb' model_name node = Some m'
    /\ weights_of lb' model_name node = Some w
    /\ status m' = status m
    /\ error_count m' = error_count m
    /\ request_count m' = request_count m + 1
    /\ active_requests m' = Z.max 0 (active_requests m - 1).
Proof.
  intros Hm Hw Htok Hz Hnow.
  destruct (commit_effect lb model_name node response_time is_error
              token_count now m w Hm Hw)
    as (r0 & m' & w' & r & m'' & Hout & Hlab & Hrun).
  inversion Hout as [Hk|k Hk Hne Hz'|k x Hk Hx Hor]; subst; try congruence.
  2:{ exfalso. destruct Hor as [Hnil|Hnz]; [|congruence].
      revert Hnil. unfold released. cbn [load_history with_load_history].
      now apply filter_keeps_last. }
  inversion Hlab; subst.
  eexists _, _. split; [exact Hrun|].
  unfold metrics_of in Hm. unfold weights_of in Hw.
  destruct (dict_get model_name (service_metrics lb)) as [md|] eqn:Hmd;
    [|discriminate].
  destruct (dict_get model_name (service_weights lb)) as [wd|] eqn:Hwd;
    [|discriminate].
  split; [|split].
  - rewrite metrics_of_set_weights.
    eapply metrics_of_set_metrics_same. exact Hmd.
  - eapply weights_of_set_weights_same.
    unfold set_metrics. rewrite Hmd. exact Hwd.
  - simpl. auto.
Qed.

(** Model [m] with the single instance [A], weight 20 and
    [load_threshold] 0. *)
Definition zero_threshold_cfg : model_instances :=
  [("m"%string,
    [{| cfg_name := "A";
        cfg_hostname := Some "10.0.0.1"%string;
        cfg_instance_id := "10.0.0.1:8000";
        cfg_initial_weight := Some (PInt 20);
        cfg_load_threshold := Some (PInt 0) |}])].

Definition zero_threshold_start : balancer :=
  initialize seconds zero_threshold_cfg.

Definition zero_threshold_metrics : metrics :=
  Eval vm_compute in
    match metrics_of zero_threshold_start "m" "A" with
    | Some m => m
    | None => initial_metrics 0 (instance "A" 20)
    end.

Lemma zero_threshold_witness :
  metrics_of zero_threshold_start "m" "A" = Some zero_threshold_metrics
  /\ weights_of zero_threshold_start "m" "A"
     = Some (initial_weights (instance "A" 20))
  /\ as_number (VNum (PInt 7)) <> None
  /\ py_eq (load_threshold zero_threshold_metrics) (PInt 0) = true
  /\ py_ge (PFloat (seconds 1)) (py_sub (PFloat (seconds 1)) (PInt 30)) = true
  /\ exists lb' m',
       update_instance_metrics "m" "A" (PInt 100) true (VNum (PInt 7))
         (seconds 1) zero_threshold_start = (Raise ZeroDivisionError, lb')
       /\ metrics_of lb' "m" "A" = Some m'
       /\ weights_of lb' "m" "A" = Some (initial_weights (instance "A" 20))
       /\ status m' = status zero_threshold_metrics
       /\ error_count m' = error_count zero_threshold_metrics
       /\ request_count m' = request_count zero_threshold_metrics + 1
       /\ active_requests m'
          = Z.max 0 (active_requests zero_threshold_metrics - 1).
Proof.
  assert (Hm : metrics_of zero_threshold_start "m" "A"
               = Some zero_threshold_metrics) by (vm_compute; reflexivity).
  assert (Hw : weights_of zero_threshold_start "m" "A"
               = Some (initial_weights (instance "A" 20)))
    by (vm_compute; reflexivity).
  assert (Ht : as_number (VNum (PInt 7)) <> None) by discriminate.
  assert (Hz : py_eq (load_threshold zero_threshold_metrics) (PInt 0) = true)
    by (vm_compute; reflexivity).
  assert (Hn : py_ge (PFloat (seconds 1))
                 (py_sub (PFloat (seconds 1)) (PInt 30)) = true)
    by (vm_compute; reflexivity).
  repeat (split; [assumption|]).
  exact (zero_threshold_is_never_demoted zero_threshold_start "m" "A"
           (PInt 100) true (VNum (PInt 7)) (seconds 1) zero_threshold_metrics
           (initial_weights (instance "A" 20)) Hm Hw Ht Hz Hn).
Defined.

(** ** The bounds a returning commit keeps *)

Lemma py_max_floor (a : Z) (y : pynum) :
  py_ge (py_max (PInt a) y) (PInt a) = true.
Proof.
  unfold py_max, py_gt, py_ge, py_le, py_lt.
  destruct (py_compare (PInt a) y) as [[]|] eqn:E; try rewrite E; auto;
    simpl; now rewrite Z.compare_refl.
Qed.

Lemma py_min_ceiling (a : Z) (y : pynum) :
  py_le (py_min (PInt a) y) (PInt a) = true.
Proof.
  unfold py_min, py_le, py_lt.
  destruct (py_compare y (PInt a)) as [[]|] eqn:E; try rewrite E; auto;
    simpl; now rewrite Z.compare_refl.
Qed.

Lemma Forall_filter {A : Type} (f : A -> bool) (l : list A) :
  Forall (fun x => f x = true) (filter f l).
Proof. apply Forall_forall. intros x Hx. now apply filter_In in Hx. Qed.

(** X12: a commit on a known instance that returns leaves the reported
    weight equal to the effective weight, which is at least 5 after an
    error and at most 100 after a success; the load rate is at most 1.0;
    every sample of the load history is at most 30 seconds older than
    [now]; and the entry carries [now] and the response time. *)
Theorem returning_commit_keeps_bounds (lb lb' : balancer)
    (model_name node : string) (response_time : pynum) (is_error : bool)
    (token_count : pyval) (now : float) (m : metrics) (w : weights) :
  metrics_of lb model_name node = Some m ->
  weights_of lb model_name node = Some w ->
  update_instance_metrics model_name node response_time is_error
    token_count now lb = (Ok tt, lb') ->
  exists m' w',
    metrics_of lb' model_name node = Some m'
    /\ weights_of lb' model_name node = Some w'
    /\ weight m' = effective_weight w'
    /\ (if is_error then py_ge (effective_weight w') (PInt 5)
        else py_le (effective_weight w') (PInt 100)) = true
    /\ py_le (load_rate m') (PFloat 1) = true
    /\ Forall (fun e => py_ge (PFloat (fst e))
                          (py_sub (PFloat now) (PInt 30)) = true)
         (load_history m')
    /\ last_update m' = now
    /\ inference_time m' = response_time.
Proof.
  intros Hm Hw Hrun.
  destruct (commit_effect lb model_name node response_time is_error
              token_count now m w Hm Hw)
    as (r0 & m' & w' & r & m'' & Hout & Hlab & Hrun').
  rewrite Hrun in Hrun'. injection Hrun' as <- ->.
  inversion Hlab as [| |label Hr0]; subst.
  inversion Hout as [| |k x Hk Hx Hor]; subst.
  unfold metrics_of in Hm. unfold weights_of in Hw.
  destruct (dict_get model_name (service_metrics lb)) as [md|] eqn:Hmd;
    [|discriminate].
  destruct (dict_get model_name (service_weights lb)) as [wd|] eqn:Hwd;
    [|discriminate].
  eexists _, _. split; [|split].
  - rewrite metrics_of_set_weights.
    eapply metrics_of_set_metrics_same. exact Hmd.
  - eapply weights_of_set_weights_same.
    unfold set_metrics. rewrite Hmd. exact Hwd.
  - unfold controlled_metrics, controlled.
    destruct is_error; [destruct (3 <? history_failures w + 1)|];
      cbn; repeat split; auto using py_max_floor, py_min_ceiling;
      apply Forall_filter.
Qed.

Lemma returning_commit_witness :
  metrics_of demotion_third "m" "A" = Some demotion_metrics
  /\ weights_of demotion_third "m" "A" = Some demotion_weights
  /\ update_instance_metrics "m" "A" (PInt 100) true (VNum (PInt 0))
       (seconds 4) demotion_third
     = (Ok tt, error_commits 4 demotion_start)
  /\ exists m' w',
       metrics_of (error_commits 4 demotion_start) "m" "A" = Some m'
       /\ weights_of (error_commits 4 demotion_start) "m" "A" = Some w'
       /\ weight m' = effective_weight w'
       /\ py_ge (effective_weight w') (PInt 5) = true
       /\ py_le (load_rate m') (PFloat 1) = true
       /\ Forall (fun e => py_ge (PFloat (fst e))
                             (py_sub (PFloat (seconds 4)) (PInt 30)) = true)
            (load_history m')
       /\ last_update m' = seconds 4
       /\ inference_time m' = PInt 100.
Proof.
  assert (Hm : metrics_of demotion_third "m" "A" = Some demotion_metrics)
    by (vm_compute; reflexivity).
  assert (Hw : weights_of demotion_third "m" "A" = Some demotion_weights)
    by (vm_compute; reflexivity).
  assert (Hrun : update_instance_metrics "m" "A" (PInt 100) true
                   (VNum (PInt 0)) (seconds 4) demotion_third
                 = (Ok tt, error_commits 4 demotion_start))
    by (vm_compute; reflexivity).
  split; [exact Hm|]. split; [exact Hw|]. split; [exact Hrun|].
  exact (returning_commit_keeps_bounds demotion_third _ "m" "A" (PInt 100)
           true (VNum (PInt 0)) (seconds 4) demotion_metrics demotion_weights
           Hm Hw Hrun).
Defined.

(** ** A selection followed by its commit *)

(** X13: on a reachable store, a selection that returns [(name, id)]
    followed by a commit under [name] with a numeric token count leaves
    the instance with the number of active requests it had before the
    selection, whether the commit returns or raises; the same commit
    under [id], when [id] is not an instance name of the model, leaves it
    with one more. *)
Theorem selection_then_commit_releases (clock : nat -> float)
    (cfg : model_instances) (lb lb1 : balancer)
    (model_name name id : string) (response_time : pynum) (is_error : bool)
    (token_count : pyval) (now : float) (m0 : metrics) :
  reachable clock cfg lb ->
  get_next_instance model_name lb = (Ok (name, id), lb1) ->
  metrics_of lb model_name name = Some m0 ->
  as_number token_count <> None ->
  option_map active_requests
    (metrics_of
       (snd (update_instance_metrics model_name name response_time is_error
               token_count now lb1)) model_name name)
  = Some (active_requests m0)
  /\ (metrics_of lb1 model_name id = None ->
      option_map active_requests
        (metrics_of
           (snd (update_instance_metrics model_name id response_time
                   is_error token_count now lb1)) model_name name)
      = Some (active_requests m0 + 1)).
Proof.
  intros Hr Hsel Hm0 Htok.
  assert (Ha : aligned lb) by (eapply reachable_aligned; eauto).
  assert (Ha1 : aligned lb1).
  { replace lb1 with (snd (get_next_instance model_name lb))
      by now rewrite Hsel.
    eapply aligned_same_keys; [apply same_keys_get_next_instance|exact Ha]. }
  destruct (select_returns lb lb1 model_name name id Ha Hsel)
    as (m & Hm & _ & _ & Hm1 & _).
  rewrite Hm0 in Hm. injection Hm as <-.
  assert (H0 : 0 <= active_requests m0)
    by (eapply counters_invariant; eauto).
  split.
  - destruct (commit_step lb1 model_name name response_time is_error
                token_count now model_name name Ha1)
      as [[H _]|(m2 & w2 & r0 & m3 & w3 & r & m4 & _ & _ & Hm2 & _ & Hout
                 & Hlab & _ & H & _)]; cbn zeta in H.
    + exfalso.
      destruct (aligned_weights _ _ _ _ Ha1 Hm1) as [w1 Hw1].
      destruct (commit_effect lb1 model_name name response_time is_error
                  token_count now _ w1 Hm1 Hw1)
        as (r0 & m' & w' & r & m'' & Hout & Hlab & Hrun).
      rewrite Hrun in H. cbn [snd] in H.
      destruct (outcome_counters _ _ _ _ _ _ _ _ _ _ _ Hout Hlab)
        as (Hrc & _).
      rewrite metrics_of_set_weights in H.
      unfold metrics_of in Hm1, H.
      destruct (dict_get model_name (service_metrics lb1)) as [md|] eqn:Hmd;
        [|discriminate].
      pose proof (metrics_of_set_metrics_same lb1 model_name name m'' md Hmd)
        as Hset.
      unfold metrics_of in Hset. rewrite Hset, Hm1 in H.
      injection H as H. rewrite H in Hrc. simpl in Hrc. lia.
    + rewrite H. simpl. f_equal. rewrite Hm1 in Hm2. injection Hm2 as <-.
      destruct (outcome_counters _ _ _ _ _ _ _ _ _ _ _ Hout Hlab)
        as (_ & _ & _ & Hac).
      rewrite (Hac Htok). simpl. lia.
  - intros Hid. rewrite commit_unknown_returns by exact Hid.
    cbn [snd]. rewrite Hm1. simpl. reflexivity.
Qed.

Lemma selection_then_commit_witness :
  reachable seconds fairness_cfg (initialize seconds fairness_cfg)
  /\ get_next_instance "m" (initialize seconds fairness_cfg)
     = (Ok ("A"%string, "10.0.0.1:8000"%string),
        snd (get_next_instance "m" (initialize seconds fairness_cfg)))
  /\ metrics_of (initialize seconds fairness_cfg) "m" "A"
     = Some (initial_metrics (seconds 0) (instance "A" 3))
  /\ as_number (VNum (PInt 7)) <> None
  /\ option_map active_requests
       (metrics_of
          (snd (update_instance_metrics "m" "A" (PInt 100) false
                  (VNum (PInt 7)) (seconds 2)
                  (snd (get_next_instance "m"
                          (initialize seconds fairness_cfg))))) "m" "A")
     = Some 0
  /\ option_map active_requests
       (metrics_of
          (snd (update_instance_metrics "m" "10.0.0.1:8000" (PInt 100) false
                  (VNum (PInt 7)) (seconds 2)
                  (snd (get_next_instance "m"
                          (initialize seconds fairness_cfg))))) "m" "A")
     = Some 1.
Proof.
  assert (Hr : reachable seconds fairness_cfg (initialize seconds fairness_cfg))
    by apply reach_initialize.
  assert (Hrun : get_next_instance "m" (initialize seconds fairness_cfg)
                 = (Ok ("A"%string, "10.0.0.1:8000"%string),
                    snd (get_next_instance "m"
                           (initialize seconds fairness_cfg))))
    by (vm_compute; reflexivity).
  assert (Hm : metrics_of (initialize seconds fairness_cfg) "m" "A"
               = Some (initial_metrics (seconds 0) (instance "A" 3)))
    by (vm_compute; reflexivity).
  assert (Ht : as_number (VNum (PInt 7)) <> None) by discriminate.
  assert (Hid : metrics_of
                  (snd (get_next_instance "m"
                          (initialize seconds fairness_cfg)))
                  "m" "10.0.0.1:8000" = None) by (vm_compute; reflexivity).
  split; [exact Hr|]. split; [exact Hrun|]. split; [exact Hm|].
  split; [exact Ht|].
  pose proof (selection_then_commit_releases seconds fairness_cfg _ _ "m" "A"
                "10.0.0.1:8000" (PInt 100) false (VNum (PInt 7)) (seconds 2)
                _ Hr Hrun Hm Ht) as [H1 H2].
  split; [exact H1|exact (H2 Hid)].
Defined.

End StoreInvariants.

(* ================================================================== *)
(** * [initialize] on the configuration as it is loaded *)
(* ================================================================== *)

Module Startup.
Import Balancer BalancerFacts StoreInvariants.

Local Open Scope string_scope.
Local Open Scope list_scope.

(** What [initialize] reads off [urlparse(url)]: [parsed.hostname], and
    [parsed.port], which raises [ValueError] on a port that is no
    number or is out of range. *)
Record parsed_url : Type := mkParsedUrl {
  url_hostname : option string;
  url_port : result (option Z)
}.

(** An entry of a list of [MODEL_INSTANCES] as the settings hold it: a
    dictionary in which each of the four keys may be missing.  The URL
    and the name, when they are there, are strings, and the two numbers
    are numbers, as [instance_cfg] has them. *)
Record instance_dict : Type := mkInstanceDict {
  json_ip : option string;              (* instance["ip"] *)
  json_name : option string;            (* instance["name"] *)
  json_initial_weight : option pynum;   (* instance.get("initial_weight") *)
  json_load_threshold : option pynum    (* instance.get("load_threshold") *)
}.

Definition configuration : Type := pydict (list instance_dict).

(** [str(x)] inside the f-string, for the host name and the port. *)
Definition str_of_option {A : Type} (str : A -> string) (x : option A)
  : string :=
  match x with Some a => str a | None => "None" end.

Definition str_of_int (z : Z) : string := NilZero.string_of_int (Z.to_int z).

Section Loader.

Variable urlparse : string -> result parsed_url.
Variable clock : nat -> float.

(** The statements of the inner loop before its two writes:
    [instance["ip"]], [instance["name"]], [urlparse(url)] and the
    f-string [hostname:port]. *)
Definition read_instance (instance : instance_dict) : result instance_cfg :=
  match json_ip instance with
  | None => Raise KeyError
  | Some url =>
      match json_name instance with
      | None => Raise KeyError
      | Some name =>
          match urlparse url with
          | Raise e => Raise e
          | Ok parsed =>
              match url_port parsed with
              | Raise e => Raise e
              | Ok port =>
                  Ok {| cfg_name := name;
                        cfg_hostname := url_hostname parsed;
                        cfg_instance_id :=
                          (str_of_option (fun s => s) (url_hostname parsed)
                             ++ ":" ++ str_of_option str_of_int port)%string;
                        cfg_initial_weight := json_initial_weight instance;
                        cfg_load_threshold := json_load_threshold instance |}
              end
          end
      end
  end.

Definition read {St A : Type} (r : result A) : M St A := fun s => (r, s).

(** [for instance in instances: ...]; [k] counts the readings of the
    clock as in [init_instances]. *)
Fixpoint initialize_instances (model_name : string)
    (instances : list instance_dict) (k : nat) : M balancer nat :=
  match instances with
  | [] => ret k
  | instance :: rest =>
      i <- read (read_instance instance) ;;
      lb <- get ;;
      _ <- subscript (service_weights lb) model_name ;;
      put (set_weights model_name (cfg_name i) (initial_weights i) lb) ;;;
      lb <- get ;;
      _ <- subscript (service_metrics lb) model_name ;;
      put (set_metrics model_name (cfg_name i)
             (initial_metrics (clock k) i) lb) ;;;
      initialize_instances model_name rest (S k)
  end.

(** [for model_name, instances in MODEL_INSTANCES.items(): ...]. *)
Fixpoint initialize_models (models : configuration) (k : nat)
  : M balancer nat :=
  match models with
  | [] => ret k
  | (model_name, instances) :: rest =>
      lb <- get ;;
      put {| service_weights := service_weights lb;
             service_metrics := dict_set model_name [] (service_metrics lb);
             node_counter := node_counter lb |} ;;;
      lb <- get ;;
      put {| service_weights := dict_set model_name [] (service_weights lb);
             service_metrics := service_metrics lb;
             node_counter := node_counter lb |} ;;;
      k' <- initialize_instances model_name instances k ;;
      initialize_models rest k'
  end.

(** [initialize]: the two [clear()], the counter, then the loop.  An
    exception of a read leaves the store with what was written before
    it. *)
Definition initialize (models : configuration) : M balancer unit :=
  put {| service_weights := []; service_metrics := []; node_counter := 1 |} ;;;
  initialize_models models 0 ;;;
  ret tt.

(** ** The instances read before the first failure *)

Fixpoint read_instances (instances : list instance_dict)
  : list instance_cfg * option exn :=
  match instances with
  | [] => ([], None)
  | instance :: rest =>
      match read_instance instance with
      | Raise e => ([], Some e)
      | Ok i => let '(seen, failure) := read_instances rest in
                (i :: seen, failure)
      end
  end.

Fixpoint read_models (models : configuration)
  : model_instances * option exn :=
  match models with
  | [] => ([], None)
  | (model_name, instances) :: rest =>
      match read_instances instances with
      | (seen, Some e) => ([(model_name, seen)], Some e)
      | (seen, None) =>
          let '(cfg, failure) := read_models rest in
          ((model_name, seen) :: cfg, failure)
      end
  end.

Definition outcome {A : Type} (a : A) (failure : option exn) : result A :=
  match failure with Some e => Raise e | None => Ok a end.

Lemma initialize_instances_spec model_name instances :
  forall k lb wd md,
    dict_get model_name (service_weights lb) = Some wd ->
    dict_get model_name (service_metrics lb) = Some md ->
    let '(wd', md', k') :=
      init_instances clock k (fst (read_instances instances)) wd md in
    initialize_instances model_name instances k lb
    = (outcome k' (snd (read_instances instances)),
       {| service_weights := dict_set model_name wd' (service_weights lb);
          service_metrics := dict_set model_name md' (service_metrics lb);
          node_counter := node_counter lb |}).
Proof.
  induction instances as [|instance rest IH]; intros k lb wd md Hw Hm.
  - cbn. rewrite (dict_set_get_id _ _ _ Hw), (dict_set_get_id _ _ _ Hm).
    now destruct lb.
  - cbn [initialize_instances read_instances].
    unfold bind at 1, read at 1.
    destruct (read_instance instance) as [i|e].
    2:{ cbn. rewrite (dict_set_get_id _ _ _ Hw), (dict_set_get_id _ _ _ Hm).
        now destruct lb. }
    destruct (read_instances rest) as [seen failure] eqn:Hrest.
    cbn [fst snd init_instances].
    unfold bind at 1, get at 1. unfold bind at 1, subscript at 1.
    rewrite Hw. unfold ret at 1. unfold bind at 1, put at 1.
    unfold bind at 1, get at 1. unfold bind at 1, subscript at 1.
    unfold set_weights at 1. rewrite Hw. cbn [service_metrics].
    rewrite Hm. unfold ret at 1. unfold bind at 1, put at 1.
    unfold set_metrics, set_weights. rewrite Hw. cbn [service_metrics].
    rewrite Hm. cbn [service_weights service_metrics node_counter].
    specialize (IH (S k)
                  {| service_weights :=
                       dict_set model_name
                         (dict_set (cfg_name i) (initial_weights i) wd)
                         (service_weights lb);
                     service_metrics :=
                       dict_set model_name
                         (dict_set (cfg_name i)
                            (initial_metrics (clock k) i) md)
                         (service_metrics lb);
                     node_counter := node_counter lb |}
                  (dict_set (cfg_name i) (initial_weights i) wd)
                  (dict_set (cfg_name i) (initial_metrics (clock k) i) md)).
    cbn [service_weights service_metrics node_counter] in IH.
    rewrite !dict_get_set_same in IH. specialize (IH eq_refl eq_refl).
    cbn [fst snd] in IH.
    destruct (init_instances clock (S k) seen _ _) as [[wd' md'] k'].
    rewrite IH, !dict_set_twice. reflexivity.
Qed.

Lemma initialize_models_spec models :
  forall k lb,
    exists k',
      initialize_models models k lb
      = (outcome k' (snd (read_models models)),
         init_models clock k (fst (read_models models)) lb).
Proof.
  induction models as [|[model_name instances] rest IH]; intros k lb.
  - exists k. reflexivity.
  - cbn [initialize_models read_models].
    unfold bind at 1, get at 1. unfold bind at 1, put at 1.
    unfold bind at 1, get at 1. unfold bind at 1, put at 1.
    cbn [service_weights service_metrics node_counter].
    pose proof (initialize_instances_spec model_name instances k
                  {| service_weights :=
                       dict_set model_name [] (service_weights lb);
                     service_metrics :=
                       dict_set model_name [] (service_metrics lb);
                     node_counter := node_counter lb |} [] []) as Hi.
    cbn [service_weights service_metrics node_counter] in Hi.
    rewrite !dict_get_set_same in Hi. specialize (Hi eq_refl eq_refl).
    destruct (read_instances instances) as [seen failure].
    cbn [fst snd] in Hi.
    destruct (init_instances clock k seen [] []) as [[wd md] k1] eqn:Hinit.
    rewrite !dict_set_twice in Hi. unfold bind at 1. rewrite Hi.
    destruct failure as [e|]; cbn [outcome].
    + exists k1. cbn [fst snd init_models]. now rewrite Hinit.
    + destruct (IH k1
                  {| service_weights :=
                       dict_set model_name wd (service_weights lb);
                     service_metrics :=
                       dict_set model_name md (service_metrics lb);
                     node_counter := node_counter lb |}) as [k' Hrest].
      exists k'. rewrite Hrest.
      destruct (read_models rest) as [cfg failure].
      cbn [fst snd init_models]. now rewrite Hinit.
Qed.

(** [initialize] leaves the store built from the instances read before
    the first failure, and raises that failure. *)
Lemma initialize_spec models lb :
  initialize models lb
  = (outcome tt (snd (read_models models)),
     Balancer.initialize clock (fst (read_models models))).
Proof.
  unfold initialize, bind at 1, put at 1.
  destruct (initialize_models_spec models 0
              {| service_weights := []; service_metrics := [];
                 node_counter := 1 |}) as [k' H].
  unfold bind at 1. rewrite H.
  now destruct (snd (read_models models)).
Qed.

(** ** What the store holds after [initialize] *)

(** An instance that the loop reads without an exception: it has its
    ["ip"] and its ["name"], and [urlparse] and the port of the URL do
    not raise. *)
Definition well_formed (instance : instance_dict) : Prop :=
  exists url name parsed port,
    json_ip instance = Some url /\ json_name instance = Some name
    /\ urlparse url = Ok parsed /\ url_port parsed = Ok port.

Lemma well_formed_read instance :
  well_formed instance -> exists i, read_instance instance = Ok i.
Proof.
  intros (url & name & parsed & port & Hi & Hn & Hu & Hp).
  unfold read_instance. rewrite Hi, Hn, Hu, Hp. eauto.
Qed.

Lemma read_instance_name instance i :
  read_instance instance = Ok i -> json_name instance = Some (cfg_name i).
Proof.
  unfold read_instance.
  destruct (json_ip instance) as [url|]; [|discriminate].
  destruct (json_name instance) as [name|]; [|discriminate].
  destruct (urlparse url) as [parsed|e]; [|discriminate].
  destruct (url_port parsed) as [port|e]; [|discriminate].
  now intros [= <-].
Qed.

Lemma read_instances_all instances :
  (forall instance, In instance instances -> well_formed instance) ->
  snd (read_instances instances) = None
  /\ forall instance,
       In instance instances ->
       exists i, read_instance instance = Ok i
                 /\ In i (fst (read_instances instances)).
Proof.
  induction instances as [|instance rest IH]; intros Hall; cbn.
  - split; [reflexivity|contradiction].
  - destruct (well_formed_read instance (Hall _ (or_introl eq_refl)))
      as [i Hi].
    rewrite Hi. destruct IH as [Hnone Hin].
    { intros x Hx. apply Hall. now right. }
    destruct (read_instances rest) as [seen failure]. cbn in *.
    split; [exact Hnone|].
    intros x [<-|Hx].
    + exists i. split; [exact Hi|now left].
    + destruct (Hin x Hx) as (j & Hj & Hjn). exists j.
      split; [exact Hj|now right].
Qed.

Lemma read_models_all models :
  (forall name instances instance,
      In (name, instances) models -> In instance instances ->
      well_formed instance) ->
  snd (read_models models) = None
  /\ keys (fst (read_models models)) = keys models
  /\ forall name instances,
       In (name, instances) models ->
       In (name, fst (read_instances instances)) (fst (read_models models)).
Proof.
  induction models as [|[name instances] rest IH]; intros Hall; cbn.
  - repeat split. contradiction.
  - destruct (read_instances_all instances) as [Hnone _].
    { intros x Hx. apply (Hall name instances); [now left|exact Hx]. }
    destruct (read_instances instances) as [seen failure] eqn:Hseen.
    cbn in Hnone. subst failure.
    destruct IH as (Hn & Hk & Hin).
    { intros n l x Hl Hx. apply (Hall n l); [now right|exact Hx]. }
    destruct (read_models rest) as [cfg failure]. cbn in *.
    split; [exact Hn|]. split; [now rewrite Hk|].
    intros n l [[= <- <-]|Hl].
    + left. now rewrite Hseen.
    + right. now apply Hin.
Qed.

Lemma read_instances_fails instances e :
  snd (read_instances instances) = Some e ->
  exists good bad rest,
    instances = good ++ bad :: rest /\ read_instance bad = Raise e.
Proof.
  induction instances as [|instance rest IH]; cbn; [discriminate|].
  destruct (read_instance instance) as [i|e0] eqn:Hi.
  - destruct (read_instances rest) as [seen failure]. cbn. intros H.
    destruct (IH H) as (good & bad & rest' & -> & Hbad).
    exists (instance :: good), bad, rest'. split; [reflexivity|exact Hbad].
  - cbn. intros [= ->]. exists [], instance, rest.
    split; [reflexivity|exact Hi].
Qed.

Lemma read_models_fails models e :
  snd (read_models models) = Some e ->
  exists before failing good bad rest after,
    models = before ++ (failing, good ++ bad :: rest) :: after
    /\ read_instance bad = Raise e
    /\ keys (fst (read_models models)) = keys before ++ [failing].
Proof.
  induction models as [|[name instances] others IH]; cbn; [discriminate|].
  destruct (read_instances instances) as [seen [e0|]] eqn:Hseen.
  - cbn. intros [= ->].
    destruct (read_instances_fails instances e) as (good & bad & rest & -> & Hb).
    { now rewrite Hseen. }
    exists [], name, good, bad, rest, others. repeat split; auto.
  - destruct (read_models others) as [cfg failure]. cbn. intros H.
    destruct (IH H) as (before & failing & good & bad & rest & after
                        & -> & Hb & Hk).
    exists ((name, instances) :: before), failing, good, bad, rest, after.
    split; [reflexivity|]. split; [exact Hb|].
    cbn [fst] in *. unfold keys in *. cbn [map fst app]. now rewrite Hk.
Qed.

Lemma nodup_app_apart {A : Type} (l l' : list A) (x : A) :
  NoDup (l ++ l') -> In x l -> In x l' -> False.
Proof.
  induction l as [|y l IH]; cbn; [contradiction|].
  intros Hnd [->|Hx] Hx'.
  - inversion Hnd as [|? ? Hy _]; subst. apply Hy. apply in_or_app. now right.
  - inversion Hnd; subst. now apply IH.
Qed.

(** X2: take a configuration with no model name twice.  If every
    instance has its ["ip"] and its ["name"] and a URL that [urlparse]
    and its port accept, [initialize] returns; a model is then known to
    the store exactly when it is configured, and every instance of a
    model has its metrics entry and its weights entry under its name.
    If [initialize] raises, it is at an instance that cannot be read:
    the models before that instance's and its own are the only ones
    known, and no model configured after it has an entry. *)
Theorem initialize_covers_configuration (models : configuration)
    (lb0 : balancer) (model_name : string) :
  NoDup (keys models) ->
  ((forall name instances instance,
       In (name, instances) models -> In instance instances ->
       well_formed instance) ->
   exists lb,
     initialize models lb0 = (Ok tt, lb)
     /\ (dict_get model_name (service_metrics lb) <> None
         <-> In model_name (keys models))
     /\ forall instances instance name,
          In (model_name, instances) models -> In instance instances ->
          json_name instance = Some name ->
          metrics_of lb model_name name <> None
          /\ weights_of lb model_name name <> None)
  /\ (forall e lb,
         initialize models lb0 = (Raise e, lb) ->
         exists before failing good bad rest after,
           models = before ++ (failing, good ++ bad :: rest) :: after
           /\ read_instance bad = Raise e
           /\ (dict_get model_name (service_metrics lb) <> None
               <-> In model_name (keys before) \/ model_name = failing)
           /\ (In model_name (keys after) ->
               dict_get model_name (service_metrics lb) = None)).
Proof.
  intros Hnd. rewrite initialize_spec. split.
  - intros Hall.
    destruct (read_models_all models Hall) as (Hnone & Hk & Hin).
    rewrite Hnone. cbn [outcome]. eexists. split; [reflexivity|].
    destruct (initialize_known_entries clock (fst (read_models models))
                model_name) as [Hknown Hentries].
    split; [now rewrite <- Hk|].
    intros instances instance name Hm Hi Hname.
    destruct (read_instances_all instances) as [_ Hread].
    { intros x Hx. apply (Hall model_name instances); assumption. }
    destruct (Hread instance Hi) as (i & Hri & Hii).
    apply read_instance_name in Hri.
    assert (name = cfg_name i) as -> by congruence.
    apply (Hentries (eq_ind_r (fun l => NoDup l) Hnd Hk)
             (fst (read_instances instances))); auto.
  - intros e lb. destruct (snd (read_models models)) as [e0|] eqn:Hfail;
      cbn [outcome]; [|discriminate].
    intros [= -> <-].
    destruct (read_models_fails models e Hfail)
      as (before & failing & good & bad & rest & after & Hm & Hb & Hk).
    exists before, failing, good, bad, rest, after.
    destruct (initialize_known_entries clock (fst (read_models models))
                model_name) as [Hknown _].
    assert (Hiff : dict_get model_name
                     (service_metrics
                        (Balancer.initialize clock (fst (read_models models))))
                   <> None
                   <-> In model_name (keys before) \/ model_name = failing).
    { rewrite Hknown, Hk, in_app_iff. cbn. intuition congruence. }
    split; [exact Hm|]. split; [exact Hb|]. split; [exact Hiff|].
    intros Hafter.
    destruct (dict_get model_name
                (service_metrics
                   (Balancer.initialize clock (fst (read_models models)))))
      as [md|] eqn:Hget; [|reflexivity].
    exfalso.
    assert (Hor : In model_name (keys before) \/ model_name = failing).
    { apply Hiff. discriminate. }
    rewrite Hm in Hnd. unfold keys in Hnd, Hafter, Hor.
    rewrite map_app in Hnd. cbn [map fst] in Hnd.
    destruct Hor as [Hbefore| ->].
    + apply (nodup_app_apart _ _ model_name Hnd); [exact Hbefore|now right].
    + apply NoDup_remove_2 in Hnd. apply Hnd. apply in_or_app. now right.
Qed.

End Loader.

(** ** Two configurations *)

(** What [urlparse] gives on the URLs of the two configurations: a host
    and a port, and a port that is no number. *)
Definition urlparse_of (url : string) : result parsed_url :=
  if (url =? "http://10.0.0.1:8000")%string
  then Ok {| url_hostname := Some "10.0.0.1"; url_port := Ok (Some 8000) |}
  else if (url =? "http://10.0.0.2:80a")%string
  then Ok {| url_hostname := Some "10.0.0.2"; url_port := Raise ValueError |}
  else Ok {| url_hostname := None; url_port := Ok None |}.

Definition entry (name url : string) : instance_dict :=
  {| json_ip := Some url; json_name := Some name;
     json_initial_weight := None; json_load_threshold := None |}.

Definition two_models : configuration :=
  [("m", [entry "A" "http://10.0.0.1:8000"]);
   ("n", [entry "C" "http://10.0.0.1:8000"])].

Definition bad_port : configuration :=
  [("m", [entry "A" "http://10.0.0.1:8000";
          entry "B" "http://10.0.0.2:80a"]);
   ("n", [entry "C" "http://10.0.0.1:8000"])].

Definition unset : balancer :=
  {| service_weights := []; service_metrics := []; node_counter := 1 |}.

Definition cut_at_B : balancer :=
  snd (initialize urlparse_of seconds bad_port unset).

Lemma initialize_covers_witness :
  (NoDup (keys two_models)
   /\ (forall name instances instance,
          In (name, instances) two_models -> In instance instances ->
          well_formed urlparse_of instance)
   /\ exists lb,
        initialize urlparse_of seconds two_models unset = (Ok tt, lb)
        /\ (dict_get "n" (service_metrics lb) <> None
            <-> In "n" (keys two_models))
        /\ forall instances instance name,
             In ("n", instances) two_models -> In instance instances ->
             json_name instance = Some name ->
             metrics_of lb "n" name <> None /\ weights_of lb "n" name <> None)
  /\ (NoDup (keys bad_port)
      /\ initialize urlparse_of seconds bad_port unset
         = (Raise ValueError, cut_at_B)
      /\ exists before failing good bad rest after,
           bad_port = before ++ (failing, good ++ bad :: rest) :: after
           /\ read_instance urlparse_of bad = Raise ValueError
           /\ (dict_get "n" (service_metrics cut_at_B) <> None
               <-> In "n" (keys before) \/ "n" = failing)
           /\ (In "n" (keys after) ->
               dict_get "n" (service_metrics cut_at_B) = None)).
Proof.
  assert (H1 : NoDup (keys two_models)).
  { constructor; [cbn; intros [H|[]]; discriminate|].
    constructor; [intros []|constructor]. }
  assert (H2 : forall name instances instance,
             In (name, instances) two_models -> In instance instances ->
             well_formed urlparse_of instance).
  { intros name instances instance Hm Hi.
    destruct Hm as [[= <- <-]|[[= <- <-]|[]]];
      destruct Hi as [<-|[]];
      eexists _, _, _, _; repeat split; reflexivity. }
  assert (H3 : NoDup (keys bad_port)).
  { constructor; [cbn; intros [H|[]]; discriminate|].
    constructor; [intros []|constructor]. }
  assert (H4 : initialize urlparse_of seconds bad_port unset
               = (Raise ValueError, cut_at_B))
    by (vm_compute; reflexivity).
  split.
  - split; [exact H1|]. split; [exact H2|].
    exact (proj1 (initialize_covers_configuration urlparse_of seconds
                    two_models unset "n" H1) H2).
  - split; [exact H3|]. split; [exact H4|].
    exact (proj2 (initialize_covers_configuration urlparse_of seconds
                    bad_port unset "n" H3) ValueError cut_at_B H4).
Defined.

End Startup.

(* ================================================================== *)
(** * The snapshots, entry by entry *)
(* ================================================================== *)

Module SnapshotFacts.
Import Balancer BalancerFacts.

Lemma In_dict_set {V : Type} (k k' : string) (v v' : V) (d : pydict V) :
  In (k, v) (dict_set k' v' d) -> (k, v) = (k', v') \/ In (k, v) d.
Proof.
  induction d as [|[k0 v0] d IH]; simpl.
  - intros [H|[]]. left. congruence.
  - destruct (String.eqb k' k0); simpl.
    + intros [H|H]; [left; congruence|right; now right].
    + intros [H|H]; [right; now left|].
      destruct (IH H); [now left|right; now right].
Qed.

Lemma In_fold_dict_set {V W : Type} (f : V -> W) (d : pydict V) :
  forall (acc : pydict W) k w,
    In (k, w)
      (fold_left (fun result '(key, x) => dict_set key (f x) result) d acc) ->
    In (k, w) acc \/ exists x, In (k, x) d /\ w = f x.
Proof.
  induction d as [|[k0 x0] d IH]; intros acc k w; simpl; [now left|].
  intros H. apply IH in H. destruct H as [H|(x & Hx & ->)].
  - apply In_dict_set in H. destruct H as [H|H]; [|now left].
    injection H as -> ->. right. exists x0. split; [now left|reflexivity].
  - right. exists x. split; [now right|reflexivity].
Qed.

(** Ascending order of the node names, as [sorted] compares them. *)
Definition name_le (a c : string) : Prop := String.ltb c a = false.

Lemma ltb_antisym (a c : string) : String.ltb a c = true -> name_le a c.
Proof.
  unfold name_le, String.ltb. rewrite (String.compare_antisym a c).
  destruct (String.compare c a); simpl; congruence.
Qed.

Lemma insert_by_name_hd (x : metrics) (l : list metrics) (y : metrics) :
  name_le (node_name y) (node_name x) ->
  HdRel (fun a c => name_le (node_name a) (node_name c)) y l ->
  HdRel (fun a c => name_le (node_name a) (node_name c)) y
    (insert_by_name x l).
Proof.
  intros Hyx Hl. destruct l as [|z l]; simpl.
  - now constructor.
  - destruct (String.ltb (node_name z) (node_name x)); constructor; auto.
    now inversion Hl.
Qed.

Lemma insert_by_name_sorted (x : metrics) (l : list metrics) :
  Sorted (fun a c => name_le (node_name a) (node_name c)) l ->
  Sorted (fun a c => name_le (node_name a) (node_name c))
    (insert_by_name x l).
Proof.
  induction 1 as [|y l Hs IH Hd]; simpl.
  - repeat constructor.
  - destruct (String.ltb (node_name y) (node_name x)) eqn:E.
    + constructor; auto. apply insert_by_name_hd; auto.
      now apply ltb_antisym.
    + constructor; [now constructor|]. constructor. exact E.
Qed.

Lemma sorted_by_name_sorted (l : list metrics) :
  Sorted (fun a c => name_le (node_name a) (node_name c)) (sorted_by_name l).
Proof.
  induction l as [|x l IH]; simpl; [constructor|].
  now apply insert_by_name_sorted.
Qed.

Lemma insert_by_name_perm (x : metrics) (l : list metrics) :
  Permutation (insert_by_name x l) (x :: l).
Proof.
  induction l as [|y l IH]; simpl; auto.
  destruct (String.ltb (node_name y) (node_name x)); auto.
  rewrite IH. apply perm_swap.
Qed.

Lemma sorted_by_name_perm (l : list metrics) :
  Permutation (sorted_by_name l) l.
Proof.
  induction l as [|x l IH]; simpl; auto.
  rewrite insert_by_name_perm. now constructor.
Qed.

Lemma sorted_map {A B : Type} (f : A -> B) (R : B -> B -> Prop) (l : list A) :
  Sorted (fun a c => R (f a) (f c)) l -> Sorted R (map f l).
Proof.
  induction 1 as [|x l Hs IH Hd]; simpl; constructor; auto.
  destruct Hd; simpl; constructor; auto.
Qed.

(** X14: the list [get_service_metrics] returns for a model holds the
    views of the entries of one metrics dictionary of that model, each
    exactly once, in ascending order of the node names. *)
Theorem node_snapshot_is_sorted (lb : balancer) (model_name : string)
    (views : list node_view) :
  dict_get model_name (get_service_metrics lb) = Some views ->
  exists metrics_dict,
    In (model_name, metrics_dict) (service_metrics lb)
    /\ Permutation views (map view_of (dict_values metrics_dict))
    /\ Sorted name_le (map v_node_name views).
Proof.
  intros H. apply dict_get_In in H. unfold get_service_metrics in H.
  apply (In_fold_dict_set
           (fun md => map view_of (sorted_by_name (dict_values md)))) in H.
  destruct H as [[]|(md & Hin & ->)].
  exists md. split; [exact Hin|]. split.
  - apply Permutation_map, sorted_by_name_perm.
  - rewrite map_map. apply sorted_map. simpl. apply sorted_by_name_sorted.
Qed.


(** Model [m] with its instances configured as [B], then [A]. *)
Definition unordered_cfg : model_instances :=
  [("m"%string, [instance "B" 5; instance "A" 5])].

Definition unordered_views : list node_view :=
  Eval vm_compute in
    match dict_get "m" (get_service_metrics (initialize seconds unordered_cfg))
    with
    | Some views => views
    | None => []
    end.

Lemma node_snapshot_witness :
  dict_get "m" (get_service_metrics (initialize seconds unordered_cfg))
  = Some unordered_views
  /\ map v_node_name unordered_views = ["A"%string; "B"%string]
  /\ exists metrics_dict,
       In ("m"%string, metrics_dict)
         (service_metrics (initialize seconds unordered_cfg))
       /\ Permutation unordered_views
            (map view_of (dict_values metrics_dict))
       /\ Sorted name_le (map v_node_name unordered_views).
Proof.
  assert (H : dict_get "m"
                (get_service_metrics (initialize seconds unordered_cfg))
              = Some unordered_views) by (vm_compute; reflexivity).
  split; [exact H|]. split; [reflexivity|].
  exact (node_snapshot_is_sorted (initialize seconds unordered_cfg) "m"
           unordered_views H).
Defined.

Section Snapshots.

Variable rt : runtime.

Lemma filter_split_length {A : Type} (f : A -> bool) (l : list A) :
  (List.length (filter f l) + List.length (filter (fun x => negb (f x)) l)
   = List.length l)%nat.
Proof.
  induction l as [|x l IH]; simpl; auto.
  destruct (f x); simpl; lia.
Qed.

(** X15: in every entry of the global snapshot the number of active
    services equals the number of healthy nodes, and both lie between
    zero and the number of nodes: a status is [Healthy] or [Warning] and
    nothing else. *)
Theorem active_services_are_the_healthy_nodes (now : float) (lb : balancer)
    (model_name : string) (g : global_view) :
  dict_get model_name (get_global_metrics rt now lb) = Some g ->
  g_active g = g_healthy g
  /\ exists nodes healthy,
       g_nodes g = PInt nodes /\ g_healthy g = PInt healthy
       /\ 0 <= healthy <= nodes.
Proof.
  intros H. apply dict_get_In in H. unfold get_global_metrics in H.
  apply (In_fold_dict_set (global_of rt now)) in H.
  destruct H as [[]|(md & _ & ->)].
  unfold global_of. cbn [g_active g_healthy g_nodes]. unfold len.
  pose proof (filter_split_length (fun m => is_healthy (status m))
                (dict_values md)) as Hl.
  cbv beta in Hl.
  assert (Hd : List.length (dict_values md) = List.length md)
    by apply length_map.
  set (healthy := List.length (filter _ (dict_values md))) in *.
  set (warning := List.length (filter _ (dict_values md))) in *.
  split.
  - f_equal. lia.
  - eexists _, _. split; [reflexivity|]. split; [reflexivity|]. lia.
Qed.

End Snapshots.

Lemma active_services_witness :
  dict_get "m" (get_global_metrics Reference.runtime (seconds 6) starved)
  = Some (global_of Reference.runtime (seconds 6)
            match dict_get "m" (service_metrics starved) with
            | Some md => md
            | None => []
            end)
  /\ g_active (global_of Reference.runtime (seconds 6)
                 match dict_get "m" (service_metrics starved) with
                 | Some md => md
                 | None => []
                 end) = PInt 1.
Proof.
  assert (H : dict_get "m"
                (get_global_metrics Reference.runtime (seconds 6) starved)
              = Some (global_of Reference.runtime (seconds 6)
                        match dict_get "m" (service_metrics starved) with
                        | Some md => md
                        | None => []
                        end)) by (vm_compute; reflexivity).
  split; [exact H|].
  destruct (active_services_are_the_healthy_nodes Reference.runtime
              (seconds 6) starved "m" _ H) as [-> _].
  vm_compute. reflexivity.
Defined.


(** ** The combined snapshot *)




Section Combined.

Variable rt : runtime.









End Combined.

End SnapshotFacts.

(* ================================================================== *)
(** * A request, from the selection to the reply *)
(* ================================================================== *)

Module RequestFacts.
Import Balancer PyText Proxy BalancerFacts ProxyFacts.

Section Handler.

Variable env : environment.

(** The two paths raise nothing but the [HTTPException]s of
    [inner_handler], 502 for an [httpx.RequestError] and 500 for the
    rest, and leave the process state alone until then. *)
Definition inner_failure (e e' : exn) : Prop :=
  (is_httpx_request_error e = true
   /\ e' = HTTPException 502 (ModelServiceError e))
  \/ (is_httpx_request_error e = false
      /\ e' = HTTPException 500 (InternalServerError e)).

Lemma inner_handler_spec {A : Type} (e : exn) (w : world) :
  exists e', inner_handler (A := A) e w = (Raise e', w) /\ inner_failure e e'.
Proof.
  unfold inner_handler, inner_failure.
  destruct (is_httpx_request_error e); eexists; split; try reflexivity; auto.
Qed.

Lemma unary_path_raises model_name instance_id start_time w :
  exists e e',
    unary_path env model_name instance_id start_time w = (Raise e', w)
    /\ inner_failure e e'
    /\ match unary env with
       | UnaryRaises e0 => e = e0
       | UnaryResponse _ _ _ => e = NameError "data" \/ e = ValueError
       end.
Proof.
  unfold unary_path, try_except.
  destruct (unary env) as [e0|status_code headers content].
  - destruct (inner_handler_spec (A := response) e0 w) as (e' & H & Hf).
    exists e0, e'. unfold raise. rewrite H. auto.
  - unfold bind at 1.
    destruct (scan_count_zero (b prompt_key) content w) as [[t Ht]|Ht];
      rewrite Ht.
    + destruct (inner_handler_spec (A := response) (NameError "data") w)
        as (e' & H & Hf).
      exists (NameError "data"), e'. unfold bind, global_name, raise.
      unfold raise in H. rewrite H. auto.
    + destruct (inner_handler_spec (A := response) ValueError w)
        as (e' & H & Hf).
      exists ValueError, e'. rewrite H. auto.
Qed.

Lemma streaming_path_result model_name node_id w :
  match streaming env with
  | StreamRaises e =>
      exists e',
        streaming_path env model_name node_id w = (Raise e', w)
        /\ inner_failure e e'
  | StreamResponse status_code text content_type chunks failure =>
      if status_code =? 200
      then streaming_path env model_name node_id w
           = (Ok (StreamingResponse
                    (generate env model_name node_id status_code chunks
                       failure)
                    (match content_type with
                     | Some c => c
                     | None => "text/event-stream"%string
                     end)
                    status_code), w)
      else streaming_path env model_name node_id w
           = (Raise (HTTPException 500
                       (InternalServerError
                          (HTTPException status_code
                             (StreamStatusError status_code text)))), w)
  end.
Proof.
  unfold streaming_path, try_except.
  destruct (streaming env) as [e|status_code text content_type chunks failure].
  - destruct (inner_handler_spec (A := response) e w) as (e' & H & Hf).
    exists e'. unfold raise at 1. rewrite H. auto.
  - destruct (status_code =? 200); reflexivity.
Qed.

(** A commit under an identifier that is no instance name of the model
    is logged and changes nothing else. *)
Lemma commit_unknown_world model_name node response_time is_error
    token_count w :
  metrics_of (lb w) model_name node = None ->
  commit env model_name node response_time is_error token_count w
  = (Ok tt,
     {| lb := lb w; ticks := ticks w;
        commits := commits w
                     ++ [mkCommit model_name node response_time is_error
                           token_count];
        downstream := downstream w |}).
Proof.
  intros H. unfold commit.
  rewrite commit_unknown_returns by exact H.
  unfold metrics_of in H. unfold dict_mem.
  destruct (dict_get model_name (service_metrics (lb w))) as [md|];
    [rewrite H|]; reflexivity.
Qed.

(** The outer handler on the [HTTPException] [e] of a path. *)
Definition outer_handler (model_name instance_id : string)
    (start_time : float) (e : exn) : M world response :=
  resp_time <- elapsed_ms env start_time ;;
  commit env model_name instance_id resp_time true zero ;;;
  match e with
  | HttpxTimeoutException => raise (HTTPException 504 ModelRequestTimeout)
  | HTTPException _ _ => raise e
  | _ => raise (HTTPException 500 (InternalServerError e))
  end.

Lemma outer_handler_unknown model_name instance_id start_time e w2 :
  is_http_exception e = true ->
  metrics_of (lb w2) model_name instance_id = None ->
  outer_handler model_name instance_id start_time e w2
  = (Raise e,
     {| lb := lb w2; ticks := S (ticks w2);
        commits := commits w2
                     ++ [mkCommit model_name instance_id
                           (elapsed start_time (clock env (ticks w2)))
                           true zero];
        downstream := downstream w2 |}).
Proof.
  intros He Hid. unfold outer_handler, bind at 1, elapsed_ms, bind at 1,
    time_time, ret.
  unfold bind at 1. rewrite commit_unknown_world by exact Hid.
  cbn [lb ticks commits downstream]. unfold elapsed.
  destruct e; try discriminate. reflexivity.
Qed.

Lemma model_request_steps model_name path request w :
  model_request env model_name path request w
  = match next_instance model_name w with
    | (Raise e, w1) => (Raise (HTTPException 503 (ServiceUnavailable e)), w1)
    | (Ok (node_id, instance_id), w1) =>
        let w2 := {| lb := lb w1; ticks := S (ticks w1);
                     commits := commits w1; downstream := downstream w1 |} in
        let start_time := clock env (ticks w1) in
        match (if truthy (stream_flag env request)
               then streaming_path env model_name node_id
               else unary_path env model_name instance_id start_time) w2 with
        | (Ok r, w3) => (Ok r, w3)
        | (Raise e, w3) =>
            outer_handler model_name instance_id start_time e w3
        end
    end.
Proof.
  unfold model_request, bind at 1, try_except at 1.
  destruct (next_instance model_name w) as [[[node_id instance_id]|e] w1];
    [|reflexivity].
  unfold bind at 1, time_time at 1. unfold try_except at 1. cbv zeta.
  destruct ((if truthy (stream_flag env request)
             then streaming_path env model_name node_id
             else unary_path env model_name instance_id
                    (clock env (ticks w1))) _) as [[r|e] w3]; reflexivity.
Qed.


Lemma outer_handler_status model_name instance_id start_time e w2 code d :
  e = HTTPException code d ->
  exists e' w',
    outer_handler model_name instance_id start_time e w2 = (Raise e', w')
    /\ (http_status (Failed e') = code \/ http_status (Failed e') = 500).
Proof.
  intros ->.
  destruct (outer_handler_spec env model_name instance_id start_time
              (HTTPException code d) w2 eq_refl)
    as (e' & w' & Hrun & He' & _).
  exists e', w'. split; [exact Hrun|].
  eapply failed_status. exact He'.
Qed.

Lemma inner_failure_code e e' :
  inner_failure e e' ->
  exists code d, e' = HTTPException code d /\ (code = 500 \/ code = 502).
Proof.
  intros [[_ ->]|[_ ->]]; eexists _, _; split; try reflexivity; auto.
Qed.

(** X17: whatever the request, the upstream and the store, the gateway
    answers a model request in one of four ways only: a streamed body
    with status 200, or an error with status 500, 502 or 503.  It never
    sends a complete (unary) response, never passes on a status of the
    upstream other than 200, and never answers 504. *)
Theorem gateway_answers_200_500_502_503 (model_name path : string)
    (request : request) (w : world) :
  match fst (serve env model_name path request w) with
  | Sent _ _ _ => False
  | Streamed status_code _ _ _ => status_code = 200
  | Failed e =>
      http_status (Failed e) = 500 \/ http_status (Failed e) = 502
      \/ http_status (Failed e) = 503
  end.
Proof.
  unfold serve. rewrite model_request_steps.
  destruct (next_instance model_name w) as [[[node_id instance_id]|e] w1].
  2:{ cbn. auto. }
  cbv zeta.
  set (w2 := {| lb := lb w1; ticks := S (ticks w1); commits := commits w1;
                downstream := downstream w1 |}).
  assert (Hfail : forall e0 e',
             inner_failure e0 e' ->
             match
               fst (let (r, w') :=
                      outer_handler model_name instance_id
                        (clock env (ticks w1)) e' w2 in
                    match r with
                    | Ok (Response content status_code headers) =>
                        (Sent status_code headers content, w')
                    | Ok (StreamingResponse body_iterator media_type
                            status_code) =>
                        let (r0, w'') := body_iterator w' in
                        (Streamed status_code media_type
                           (skipn (List.length (downstream w'))
                              (downstream w''))
                           match r0 with
                           | Ok _ => None
                           | Raise e1 => Some e1
                           end, w'')
                    | Raise e1 => (Failed e1, w')
                    end)
             with
             | Sent _ _ _ => False
             | Streamed status_code _ _ _ => status_code = 200
             | Failed e1 =>
                 http_status (Failed e1) = 500 \/ http_status (Failed e1) = 502
                 \/ http_status (Failed e1) = 503
             end).
  { intros e0 e' Hf.
    destruct (inner_failure_code _ _ Hf) as (code & d & He' & Hcode).
    destruct (outer_handler_status model_name instance_id
                (clock env (ticks w1)) e' w2 code d He')
      as (e'' & w' & -> & Hst).
    cbn [fst]. destruct Hst as [->| ->]; destruct Hcode as [->| ->]; auto. }
  destruct (truthy (stream_flag env request)).
  - pose proof (streaming_path_result model_name node_id w2) as Hs.
    destruct (streaming env) as [e|status_code text content_type chunks
                                   failure].
    + destruct Hs as (e' & -> & Hf). eapply Hfail. exact Hf.
    + destruct (status_code =? 200) eqn:Hc; rewrite Hs.
      * destruct (generate env model_name node_id status_code chunks failure
                    w2) as [r w3].
        cbn [fst]. now apply Z.eqb_eq.
      * apply (Hfail (HTTPException status_code
                        (StreamStatusError status_code text))).
        right. split; reflexivity.
  - destruct (unary_path_raises model_name instance_id
                (clock env (ticks w1)) w2) as (e & e' & -> & Hf & _).
    eapply Hfail. exact Hf.
Qed.

(** X18: a request whose selection returned [(node_id, instance_id)],
    with [instance_id] no instance name of the model, and whose upstream
    call on the unary path times out is answered 502, not 504: the
    timeout is an [httpx.RequestError] and the inner handler takes it
    first.  The store is left as the selection left it: the failure is
    committed under [instance_id], which reaches no instance. *)
Theorem upstream_timeout_is_answered_502 (model_name path : string)
    (request : request) (w w1 : world) (node_id instance_id : string) :
  next_instance model_name w = (Ok (node_id, instance_id), w1) ->
  metrics_of (lb w1) model_name instance_id = None ->
  truthy (stream_flag env request) = false ->
  unary env = UnaryRaises HttpxTimeoutException ->
  exists w',
    serve env model_name path request w
    = (Failed (HTTPException 502 (ModelServiceError HttpxTimeoutException)),
       w')
    /\ lb w' = lb w1
    /\ commits w'
       = commits w1
           ++ [mkCommit model_name instance_id
                 (elapsed (clock env (ticks w1)) (clock env (S (ticks w1))))
                 true zero].
Proof.
  intros Hsel Hid Hflag Hun.
  unfold serve. rewrite model_request_steps, Hsel, Hflag. cbv zeta.
  assert (Hpath : forall w2,
             unary_path env model_name instance_id (clock env (ticks w1)) w2
             = (Raise (HTTPException 502
                         (ModelServiceError HttpxTimeoutException)), w2)).
  { intros w2. unfold unary_path, try_except. rewrite Hun. reflexivity. }
  rewrite Hpath.
  rewrite outer_handler_unknown; [|reflexivity|exact Hid].
  eexists. split; [reflexivity|]. split; reflexivity.
Qed.

(** X19: a request that fails after its selection returned
    [(node_id, instance_id)], with [instance_id] no instance name of the
    model, leaves the store exactly as the selection left it: the
    request booked on the selected instance is not released, and no
    error is counted against it.  The failure carries status 500 or 502. *)
Theorem failed_request_leaves_the_selection (model_name path : string)
    (request : request) (w w1 : world) (node_id instance_id : string)
    (e : exn) :
  next_instance model_name w = (Ok (node_id, instance_id), w1) ->
  metrics_of (lb w1) model_name instance_id = None ->
  fst (serve env model_name path request w) = Failed e ->
  lb (snd (serve env model_name path request w)) = lb w1
  /\ exists code d, e = HTTPException code d /\ (code = 500 \/ code = 502).
Proof.
  intros Hsel Hid.
  unfold serve. rewrite model_request_steps, Hsel. cbv zeta.
  set (w2 := {| lb := lb w1; ticks := S (ticks w1); commits := commits w1;
                downstream := downstream w1 |}).
  assert (Hfail : forall e0 e',
             inner_failure e0 e' ->
             outer_handler model_name instance_id (clock env (ticks w1)) e' w2
             = (Raise e',
                {| lb := lb w1; ticks := S (ticks w2);
                   commits := commits w2
                     ++ [mkCommit model_name instance_id
                           (elapsed (clock env (ticks w1))
                              (clock env (ticks w2))) true zero];
                   downstream := downstream w2 |})
             /\ exists code d,
                  e' = HTTPException code d /\ (code = 500 \/ code = 502)).
  { intros e0 e' Hf.
    destruct (inner_failure_code _ _ Hf) as (code & d & -> & Hcode).
    split; [|eauto].
    now rewrite outer_handler_unknown. }
  destruct (truthy (stream_flag env request)).
  - pose proof (streaming_path_result model_name node_id w2) as Hs.
    destruct (streaming env) as [e0|status_code text content_type chunks
                                    failure].
    + destruct Hs as (e' & -> & Hf). destruct (Hfail _ _ Hf) as [-> Hc].
      cbn [fst snd lb]. intros [= <-]. auto.
    + destruct (status_code =? 200) eqn:Hc; rewrite Hs.
      * destruct (generate env model_name node_id status_code chunks failure
                    w2) as [r w3].
        cbn [fst]. discriminate.
      * destruct (Hfail (HTTPException status_code
                           (StreamStatusError status_code text))
                    (HTTPException 500
                       (InternalServerError
                          (HTTPException status_code
                             (StreamStatusError status_code text)))))
          as [-> Hcode]; [right; split; reflexivity|].
        cbn [fst snd lb]. intros [= <-]. auto.
  - destruct (unary_path_raises model_name instance_id
                (clock env (ticks w1)) w2) as (e0 & e' & -> & Hf & _).
    destruct (Hfail _ _ Hf) as [-> Hc].
    cbn [fst snd lb]. intros [= <-]. auto.
Qed.


(** ** Streams whose lines are accounted without an exception *)

(** The token count the [finally] block commits, from the counters [t]
    the loop left and the bytes [content] it collected. *)
Definition stream_tokens (t : tok_state) (content : bytes) : pyval :=
  committed_tokens
    {| tokens := t; error_occurred := false; decoded_buffer := [];
       collected_content := [content]; yielded := [] |}.

Lemma committed_tokens_depends g :
  committed_tokens g
  = stream_tokens (tokens g) (List.concat (collected_content g)).
Proof.
  unfold stream_tokens, committed_tokens.
  cbn [tokens collected_content List.concat]. now rewrite app_nil_r.
Qed.

Definition raised (failure : option exn) : bool :=
  match failure with Some _ => true | None => false end.

(** The loop of the generator on such a stream. *)
Lemma tee_orderly chunks strs failure t' :
  Forall2 (fun chunk chunk_str => utf8_decode chunk = Some chunk_str)
    chunks strs ->
  account_lines env (lines_from [] (List.concat strs)) (tokens gen_start)
  = (Ok tt, t') ->
  exists g,
    tee env chunks failure gen_start
    = (match failure with Some e => Raise e | None => Ok tt end, g)
    /\ tokens g = t'
    /\ List.concat (collected_content g) = List.concat chunks
    /\ error_occurred g = raised failure
    /\ List.concat (yielded g) = List.concat chunks.
Proof.
  intros Hdec Hacc.
  destruct (loop_tokens env chunks strs gen_start t' Hdec)
    as (g0 & Hrun & Htok & Hcol & Herr); [constructor|exact Hacc|].
  pose proof (loop_yield env chunks gen_start) as Hy. rewrite Hrun in Hy.
  destruct Hy as (sent & rest & Hsplit & Hyield & Hrest).
  rewrite (Hrest tt eq_refl), app_nil_r in Hsplit. subst sent.
  unfold tee, try_except, bind at 1. rewrite Hrun.
  destruct failure as [e|].
  - unfold raise at 1. unfold bind, set_error_occurred, raise.
    eexists. split; [reflexivity|]. cbn. auto.
  - unfold ret. exists g0. cbn. auto.
Qed.

(** The generator as a whole: one commit under the name it was given,
    after everything the loop yielded has gone to the caller. *)
Lemma generate_outcome model_name node status_code chunks failure w r g h :
  tee env chunks failure gen_start = (r, g) ->
  stream_hundredths env w = Ok h ->
  exists rt r' w',
    generate env model_name node status_code chunks failure w = (r', w')
    /\ commits w'
       = commits w
           ++ [mkCommit model_name node rt
                 (error_occurred g || (400 <=? status_code))
                 (committed_tokens g)]
    /\ downstream w' = downstream w ++ yielded g
    /\ (r' = r \/ exists e, r' = Raise e /\ plain_error e).
Proof.
  intros Htee Hh. unfold generate, bind at 1, time_time at 1.
  rewrite Htee. unfold try_finally, finish, bind at 1, time_time at 1.
  cbn [ticks lb commits downstream].
  unfold bind at 1. rewrite math_ceil_pure.
  unfold stream_hundredths in Hh. rewrite Hh.
  unfold bind at 1, truediv.
  assert (Hq : exists q, py_truediv (PInt h) (PInt 100) = Some q).
  { unfold py_truediv. simpl. eauto. }
  destruct Hq as [q ->]. unfold ret at 1.
  match goal with
  | |- context [commit env model_name node q ?e ?tk ?w3] =>
      destruct (commit_spec env model_name node q e tk w3)
        as (rc & w' & Hc & Hlog & Hdown & _ & Hplain)
  end.
  rewrite Hc. exists q.
  destruct rc as [[]|e]; eexists _, _; (split; [reflexivity|]);
    rewrite Hlog, Hdown; (split; [reflexivity|]); (split; [reflexivity|]).
  - now left.
  - right. exists e. split; [reflexivity|]. now apply Hplain.
Qed.

Lemma skipn_length_app {A : Type} (l l' : list A) :
  skipn (List.length l) (l ++ l') = l'.
Proof. induction l; simpl; auto. Qed.

(** A streaming request on such a stream, from the selection on. *)
Lemma orderly_stream model_name path request w w1 node_id instance_id
    text content_type chunks failure strs t' h :
  next_instance model_name w = (Ok (node_id, instance_id), w1) ->
  truthy (stream_flag env request) = true ->
  streaming env = StreamResponse 200 text content_type chunks failure ->
  Forall2 (fun chunk chunk_str => utf8_decode chunk = Some chunk_str)
    chunks strs ->
  account_lines env (lines_from [] (List.concat strs)) (tokens gen_start)
  = (Ok tt, t') ->
  stream_hundredths env
    {| lb := lb w1; ticks := S (ticks w1); commits := commits w1;
       downstream := downstream w1 |} = Ok h ->
  exists sent aborted w' rt,
    serve env model_name path request w
    = (Streamed 200
         (match content_type with
          | Some c => c
          | None => "text/event-stream"%string
          end) sent aborted, w')
    /\ List.concat sent = List.concat chunks
    /\ commits w'
       = commits w1
           ++ [mkCommit model_name node_id rt (raised failure)
                 (stream_tokens t' (List.concat chunks))]
    /\ (aborted = failure \/ exists e, aborted = Some e /\ plain_error e).
Proof.
  intros Hsel Hflag Hst Hdec Hacc Hh.
  unfold serve. rewrite model_request_steps, Hsel, Hflag. cbv zeta.
  set (w2 := {| lb := lb w1; ticks := S (ticks w1); commits := commits w1;
                downstream := downstream w1 |}) in *.
  pose proof (streaming_path_result model_name node_id w2) as Hs.
  rewrite Hst in Hs. cbn in Hs. rewrite Hs.
  destruct (tee_orderly chunks strs failure t' Hdec Hacc)
    as (g & Htee & Htok & Hcol & Herr & Hyield).
  destruct (generate_outcome model_name node_id 200 chunks failure w2 _ g h
              Htee Hh)
    as (rt & r' & w' & Hgen & Hlog & Hdown & Hr').
  rewrite Hgen. rewrite Hdown, skipn_length_app.
  eexists _, _, _, rt. split; [reflexivity|]. split; [exact Hyield|]. split.
  - rewrite Hlog, Herr, committed_tokens_depends, Htok, Hcol.
    cbn [commits w2]. now rewrite orb_false_r.
  - destruct Hr' as [->|(e & -> & He)].
    + left. now destruct failure.
    + right. eauto.
Qed.

(** X20: a streaming request whose upstream answers 200 and ends its
    body in order, with chunks that decode and lines that are accounted
    without an exception, reaches the caller as a 200 stream carrying
    exactly the bytes of the upstream.  It is committed once, under the
    name of the selected instance, without the error flag and with the
    token count of the whole text; the stream is cut short by nothing
    but an exception of that commit. *)
Theorem orderly_stream_is_passed_through (model_name path : string)
    (request : request) (w w1 : world) (node_id instance_id : string)
    (text : string) (content_type : option string) (chunks : list bytes)
    (strs : list pystr) (t' : tok_state) (h : Z) :
  next_instance model_name w = (Ok (node_id, instance_id), w1) ->
  truthy (stream_flag env request) = true ->
  streaming env = StreamResponse 200 text content_type chunks None ->
  Forall2 (fun chunk chunk_str => utf8_decode chunk = Some chunk_str)
    chunks strs ->
  account_lines env (lines_from [] (List.concat strs)) (tokens gen_start)
  = (Ok tt, t') ->
  stream_hundredths env
    {| lb := lb w1; ticks := S (ticks w1); commits := commits w1;
       downstream := downstream w1 |} = Ok h ->
  exists media_type sent aborted w' rt,
    serve env model_name path request w
    = (Streamed 200 media_type sent aborted, w')
    /\ List.concat sent = List.concat chunks
    /\ commits w'
       = commits w1
           ++ [mkCommit model_name node_id rt false
                 (stream_tokens t' (List.concat chunks))]
    /\ (forall e, aborted = Some e -> plain_error e).
Proof.
  intros Hsel Hflag Hst Hdec Hacc Hh.
  destruct (orderly_stream model_name path request w w1 node_id instance_id
              text content_type chunks None strs t' h
              Hsel Hflag Hst Hdec Hacc Hh)
    as (sent & aborted & w' & rt & Hrun & Hsent & Hlog & Hab).
  eexists _, sent, aborted, w', rt. split; [exact Hrun|].
  split; [exact Hsent|]. split; [exact Hlog|].
  intros e He. destruct Hab as [Hn|(e' & He' & Hp)]; [congruence|].
  congruence.
Qed.

(** X21: when the upstream of such a stream fails after its last chunk,
    the caller has received every byte the upstream sent before the
    stream is cut, and the one commit, under the name of the selected
    instance, carries the error flag: the failure is counted against the
    instance.  The exception that cuts the stream is the one of the
    upstream, or one of the commit. *)
Theorem upstream_failure_is_committed_as_error (model_name path : string)
    (request : request) (w w1 : world) (node_id instance_id : string)
    (text : string) (content_type : option string) (chunks : list bytes)
    (failure : exn) (strs : list pystr) (t' : tok_state) (h : Z) :
  next_instance model_name w = (Ok (node_id, instance_id), w1) ->
  truthy (stream_flag env request) = true ->
  streaming env = StreamResponse 200 text content_type chunks (Some failure) ->
  Forall2 (fun chunk chunk_str => utf8_decode chunk = Some chunk_str)
    chunks strs ->
  account_lines env (lines_from [] (List.concat strs)) (tokens gen_start)
  = (Ok tt, t') ->
  stream_hundredths env
    {| lb := lb w1; ticks := S (ticks w1); commits := commits w1;
       downstream := downstream w1 |} = Ok h ->
  exists media_type sent e w' rt,
    serve env model_name path request w
    = (Streamed 200 media_type sent (Some e), w')
    /\ List.concat sent = List.concat chunks
    /\ commits w'
       = commits w1
           ++ [mkCommit model_name node_id rt true
                 (stream_tokens t' (List.concat chunks))]
    /\ (e = failure \/ plain_error e).
Proof.
  intros Hsel Hflag Hst Hdec Hacc Hh.
  destruct (orderly_stream model_name path request w w1 node_id instance_id
              text content_type chunks (Some failure) strs t' h
              Hsel Hflag Hst Hdec Hacc Hh)
    as (sent & aborted & w' & rt & Hrun & Hsent & Hlog & Hab).
  destruct Hab as [->|(e & -> & Hp)].
  - eexists _, sent, failure, w', rt. split; [exact Hrun|]. auto.
  - eexists _, sent, e, w', rt. split; [exact Hrun|]. auto.
Qed.


(** ** Decoding chunk by chunk *)

Ltac split_decoding H :=
  repeat (match type of H with
          | context [match ?x with _ => _ end] => destruct x eqn:?
          end; try discriminate H).

Ltac reuse_cases :=
  repeat match goal with
         | E : ?t = _ |- context [?t] => rewrite E
         end.

Lemma utf8_decode_fuel_more fuel :
  forall s x,
    utf8_decode_fuel fuel s = Some x ->
    forall fuel', (fuel <= fuel')%nat -> utf8_decode_fuel fuel' s = Some x.
Proof.
  induction fuel as [|fuel IH]; intros s x H fuel' Hle.
  - destruct s; [|discriminate]. injection H as <-. now destruct fuel'.
  - destruct fuel' as [|fuel']; [lia|].
    assert (Hle' : (fuel <= fuel')%nat) by lia.
    cbn [utf8_decode_fuel] in H |- *.
    split_decoding H; reuse_cases; auto;
      match type of H with
      | option_map _ (utf8_decode_fuel fuel ?s') = _ =>
          destruct (utf8_decode_fuel fuel s') eqn:E; [|discriminate H];
            rewrite (IH _ _ E _ Hle'); exact H
      end.
Qed.

Lemma utf8_decode_fuel_app f1 :
  forall a x,
    utf8_decode_fuel f1 a = Some x ->
    forall f2 c y,
      utf8_decode_fuel f2 c = Some y ->
      utf8_decode_fuel (f1 + f2) (a ++ c) = Some (x ++ y).
Proof.
  induction f1 as [|f1 IH]; intros a x H f2 c y Hc.
  - destruct a; [|discriminate]. injection H as <-. exact Hc.
  - destruct a as [|c0 s1].
    + injection H as <-. simpl app.
      eapply utf8_decode_fuel_more; [exact Hc|lia].
    + cbn [utf8_decode_fuel] in H.
      change (S f1 + f2)%nat with (S (f1 + f2)).
      split_decoding H; subst; cbn [utf8_decode_fuel app]; reuse_cases;
        match type of H with
        | option_map _ (utf8_decode_fuel f1 ?s') = _ =>
            destruct (utf8_decode_fuel f1 s') eqn:E; [|discriminate H];
              injection H as <-;
              rewrite (IH _ _ E _ _ _ Hc); reflexivity
        end.
Qed.

Lemma utf8_decode_app a c x y :
  utf8_decode a = Some x -> utf8_decode c = Some y ->
  utf8_decode (a ++ c) = Some (x ++ y).
Proof.
  unfold utf8_decode. intros Ha Hc. rewrite length_app.
  now apply utf8_decode_fuel_app.
Qed.

(** Chunks that decode one by one decode as a whole, to the
    concatenation of their texts. *)
Lemma utf8_decode_concat chunks strs :
  Forall2 (fun chunk chunk_str => utf8_decode chunk = Some chunk_str)
    chunks strs ->
  utf8_decode (List.concat chunks) = Some (List.concat strs).
Proof.
  induction 1 as [|chunk chunk_str chunks strs Hd _ IH]; simpl.
  - reflexivity.
  - now apply utf8_decode_app.
Qed.

(** X22: the token accounting does not depend on how the upstream cuts
    the stream into chunks.  Two sequences of chunks with the same bytes
    in all, each chunk decoding on its own, and the lines of the text
    accounted without an exception, leave the generator with the same
    counters and the same committed token count, and hand the caller the
    same bytes. *)
Theorem token_count_ignores_chunking (chunks1 chunks2 : list bytes)
    (strs1 strs2 : list pystr) (t' : tok_state) :
  Forall2 (fun chunk chunk_str => utf8_decode chunk = Some chunk_str)
    chunks1 strs1 ->
  Forall2 (fun chunk chunk_str => utf8_decode chunk = Some chunk_str)
    chunks2 strs2 ->
  List.concat chunks1 = List.concat chunks2 ->
  account_lines env (lines_from [] (List.concat strs1)) (tokens gen_start)
  = (Ok tt, t') ->
  exists g1 g2,
    tee env chunks1 None gen_start = (Ok tt, g1)
    /\ tee env chunks2 None gen_start = (Ok tt, g2)
    /\ tokens g1 = tokens g2
    /\ committed_tokens g1 = committed_tokens g2
    /\ List.concat (yielded g1) = List.concat (yielded g2).
Proof.
  intros Hd1 Hd2 Hsame Hacc.
  assert (Hstrs : List.concat strs1 = List.concat strs2).
  { pose proof (utf8_decode_concat _ _ Hd1) as H1.
    pose proof (utf8_decode_concat _ _ Hd2) as H2.
    rewrite Hsame in H1. congruence. }
  destruct (tee_orderly chunks1 strs1 None t' Hd1 Hacc)
    as (g1 & Ht1 & Htok1 & Hcol1 & _ & Hy1).
  rewrite Hstrs in Hacc.
  destruct (tee_orderly chunks2 strs2 None t' Hd2 Hacc)
    as (g2 & Ht2 & Htok2 & Hcol2 & _ & Hy2).
  exists g1, g2. split; [exact Ht1|]. split; [exact Ht2|].
  split; [congruence|]. split.
  - rewrite !committed_tokens_depends. congruence.
  - congruence.
Qed.


(** X23: a chunk that is not valid UTF-8 on its own is handed to the
    caller like any other and leaves the counters, the error flag and the
    line buffer as they were; the [except UnicodeDecodeError] branch
    appends it to the collected content a second time. *)
Theorem undecodable_chunk_is_passed_through (chunk : bytes) (g : gen_state) :
  chunk <> [] ->
  utf8_decode chunk = None ->
  on_chunk env chunk g
  = (Ok tt,
     {| tokens := tokens g; error_occurred := error_occurred g;
        decoded_buffer := decoded_buffer g;
        collected_content := (collected_content g ++ [chunk]) ++ [chunk];
        yielded := yielded g ++ [chunk] |}).
Proof.
  intros Hne Hdec. unfold on_chunk.
  destruct chunk as [|c0 chunk]; [congruence|].
  unfold bind at 1, try_except, bind at 1, collect at 1.
  rewrite Hdec. reflexivity.
Qed.

End Handler.
End RequestFacts.

(* ================================================================== *)
(** * The tolerant byte scan *)
(* ================================================================== *)

Module ScanFacts.
Import PyText Proxy.

Definition is_digit (c : byte) : bool :=
  let n := Z.of_N (Byte.to_N c) in (48 <=? n) && (n <=? 57).

(** The number a run of decimal digits writes. *)
Definition decimal_value (ds : bytes) : Z :=
  fold_left (fun acc c => acc * 10 + (Z.of_N (Byte.to_N c) - 48)) ds 0.

Lemma digits_value_digits (ds : bytes) :
  Forall (fun c => is_digit c = true) ds ->
  forall acc after,
    ds <> [] \/ after = true ->
    digits_value acc after ds
    = Some (fold_left (fun acc c => acc * 10 + (Z.of_N (Byte.to_N c) - 48))
              ds acc).
Proof.
  induction 1 as [|c ds Hc Hds IH]; intros acc after Hne; simpl.
  - destruct Hne as [Hne| ->]; [congruence|reflexivity].
  - unfold is_digit in Hc. cbv zeta in Hc. rewrite Hc. apply IH. now right.
Qed.

Lemma eqb_digit_false (x c : byte) :
  is_digit x = false -> is_digit c = true -> Byte.eqb c x = false.
Proof.
  intros Hx Hc. destruct (Byte.eqb c x) eqn:E; auto.
  apply Byte.byte_dec_bl in E. congruence.
Qed.

Lemma digit_count_digits (ds : bytes) :
  Forall (fun c => is_digit c = true) ds -> digit_count ds = blen ds.
Proof.
  intros Hd. unfold digit_count, blen. f_equal. f_equal.
  induction Hd as [|c ds Hc _ IH]; cbn [filter]; auto.
  replace (is_decimal c) with true by (symmetry; exact Hc).
  now rewrite IH.
Qed.

Lemma int_of_digits (ds : bytes) :
  Forall (fun c => is_digit c = true) ds -> ds <> [] ->
  blen ds <= int_max_str_digits ->
  int_of_bytes ds = Some (decimal_value ds).
Proof.
  intros Hd Hne Hlen. unfold int_of_bytes, decimal_value.
  rewrite (digit_count_digits ds Hd).
  replace (int_max_str_digits <? blen ds) with false
    by (symmetry; apply Z.ltb_ge; exact Hlen).
  destruct ds as [|c ds']; [congruence|].
  assert (Hc : is_digit c = true) by now inversion Hd.
  rewrite (eqb_digit_false Byte.x2d c), (eqb_digit_false Byte.x2b c);
    auto.
  apply digits_value_digits; auto.
Qed.

(** A longer run of digits is refused, as any other bad literal is. *)
Lemma int_over_limit (ds : bytes) :
  Forall (fun c => is_digit c = true) ds ->
  int_max_str_digits < blen ds ->
  int_of_bytes ds = None.
Proof.
  intros Hd Hlen. unfold int_of_bytes.
  rewrite (digit_count_digits ds Hd).
  replace (int_max_str_digits <? blen ds) with true
    by (symmetry; apply Z.ltb_lt; exact Hlen).
  reflexivity.
Qed.

Lemma digit_not_space (c : byte) : is_digit c = true -> is_bspace c = false.
Proof.
  unfold is_digit, is_bspace. cbv zeta.
  set (n := Byte.to_N c). intros H.
  apply andb_true_iff in H. destruct H as [H1 H2].
  apply Z.leb_le in H1. apply Z.leb_le in H2.
  destruct ((9 <=? n)%N && (n <=? 13)%N) eqn:E1.
  - apply andb_true_iff in E1. destruct E1 as [_ E]. apply N.leb_le in E. lia.
  - simpl. apply N.eqb_neq. lia.
Qed.

Lemma lstrip_blank (sp : byte -> bool) (pad s : bytes) :
  Forall (fun c => sp c = true) pad ->
  lstrip_by sp (pad ++ s) = lstrip_by sp s.
Proof. induction 1 as [|c pad Hc _ IH]; simpl; auto. now rewrite Hc. Qed.

Lemma strip_digits (pad ds : bytes) :
  Forall (fun c => is_bspace c = true) pad ->
  Forall (fun c => is_digit c = true) ds -> ds <> [] ->
  bytes_strip (pad ++ ds) = ds.
Proof.
  intros Hp Hd Hne. unfold bytes_strip, strip_by.
  rewrite lstrip_blank by exact Hp.
  assert (Hl : forall s, Forall (fun c => is_digit c = true) s ->
                         s <> [] -> lstrip_by is_bspace s = s).
  { intros s Hs Hn. destruct s as [|c s]; [congruence|]. simpl.
    rewrite digit_not_space; auto. now inversion Hs. }
  rewrite (Hl ds) by assumption.
  rewrite (Hl (rev ds)).
  - apply rev_involutive.
  - now apply Forall_rev.
  - intros H. apply (f_equal (@rev byte)) in H.
    rewrite rev_involutive in H. simpl in H. congruence.
Qed.

Lemma find_from_bounds (sub : bytes) :
  forall s pos,
    find_from sub s pos = -1 \/ pos <= find_from sub s pos.
Proof.
  induction s as [|c s IH]; intros pos; simpl.
  - destruct (is_prefix Byte.eqb sub []); [right; lia|now left].
  - destruct (is_prefix Byte.eqb sub (c :: s)); [right; lia|].
    destruct (IH (pos + 1)); [now left|right; lia].
Qed.

Lemma find_from_infix (sub : bytes) :
  forall s pos,
    0 <= pos -> find_from sub s pos <> -1 -> is_infix Byte.eqb sub s = true.
Proof.
  induction s as [|c s IH]; intros pos Hpos; simpl.
  - destruct (is_prefix Byte.eqb sub []); [reflexivity|congruence].
  - destruct (is_prefix Byte.eqb sub (c :: s)); [reflexivity|].
    simpl. apply IH. lia.
Qed.

Lemma find_from_after (sep : byte) (l rest : bytes) :
  Forall (fun c => Byte.eqb sep c = false) l ->
  forall pos, find_from [sep] (l ++ sep :: rest) pos = pos + blen l.
Proof.
  induction 1 as [|c l Hc _ IH]; intros pos.
  - cbn [app find_from is_prefix]. rewrite (Byte.byte_dec_lb eq_refl).
    cbn [andb]. unfold blen. cbn [List.length]. lia.
  - cbn [app find_from is_prefix]. rewrite Hc. cbn [andb]. rewrite IH.
    unfold blen. cbn [List.length]. lia.
Qed.

Lemma skipn_blen (l l' : bytes) :
  skipn (Z.to_nat (blen l)) (l ++ l') = l'.
Proof.
  unfold blen. rewrite Nat2Z.id. induction l; simpl; auto.
Qed.

Lemma firstn_blen (l l' : bytes) :
  firstn (Z.to_nat (blen l)) (l ++ l') = l.
Proof.
  unfold blen. rewrite Nat2Z.id. induction l; simpl; congruence.
Qed.

Lemma blen_app (l l' : bytes) : blen (l ++ l') = blen l + blen l'.
Proof. unfold blen. rewrite length_app. lia. Qed.

Lemma blen_nonneg (l : bytes) : 0 <= blen l.
Proof. unfold blen. lia. Qed.

Definition comma : byte := Byte.x2c.

Lemma comma_apart (c : byte) :
  is_bspace c = true \/ is_digit c = true -> Byte.eqb comma c = false.
Proof.
  intros H. destruct (Byte.eqb comma c) eqn:E; auto.
  apply Byte.byte_dec_bl in E. subst c.
  destruct H as [H|H]; vm_compute in H; discriminate.
Qed.

(** X24: the byte scan reads the integer that follows the first
    occurrence of the key.  When the content is [pre ++ key ++ pad ++ ds
    ++ b"," ++ rest], with the key found first at the end of [pre],
    [pad] ASCII blanks and [ds] a non-empty run of decimal digits (at
    most 4300 of them, the interpreter's limit for [int]), the scan adds
    the number [ds] writes to the token count, whatever comes before and
    after. *)
Theorem scan_reads_the_count {St : Type} (key pre pad ds rest : bytes)
    (token_count : pyval) (s : St) :
  bytes_find key (pre ++ key ++ pad ++ ds ++ comma :: rest) 0 = blen pre ->
  Forall (fun c => is_bspace c = true) pad ->
  Forall (fun c => is_digit c = true) ds ->
  ds <> [] ->
  blen ds <= 4300 ->
  scan_count key (pre ++ key ++ pad ++ ds ++ comma :: rest) token_count s
  = val_add token_count (VNum (PInt (decimal_value ds))) s.
Proof.
  intros Hfind Hpad Hds Hne Hmax.
  set (content := pre ++ key ++ pad ++ ds ++ comma :: rest) in *.
  assert (Hlen : blen content
                 = blen pre + blen key + blen pad + blen ds + 1 + blen rest).
  { unfold content. change (comma :: rest) with ([comma] ++ rest).
    rewrite !blen_app. change (blen [comma]) with 1. lia. }
  pose proof (blen_nonneg pre). pose proof (blen_nonneg key).
  pose proof (blen_nonneg pad). pose proof (blen_nonneg ds).
  pose proof (blen_nonneg rest).
  unfold scan_count.
  assert (Hin : bytes_in key content = true).
  { unfold bytes_in. unfold bytes_find in Hfind.
    replace (blen content <? 0) with false in Hfind
      by (symmetry; apply Z.ltb_ge; lia).
    unfold slice_index in Hfind. simpl (0 <? 0) in Hfind. cbv iota in Hfind.
    replace (Z.min 0 (blen content)) with 0 in Hfind by lia.
    simpl in Hfind. eapply (find_from_infix key content 0); [lia|].
    rewrite Hfind. lia. }
  rewrite Hin, Hfind.
  assert (Hend : bytes_find (b ",") content (blen pre + blen key)
                 = blen pre + blen key + blen (pad ++ ds)).
  { unfold bytes_find, slice_index.
    replace (blen content <? blen pre + blen key) with false
      by (symmetry; apply Z.ltb_ge; lia).
    replace (blen pre + blen key <? 0) with false
      by (symmetry; apply Z.ltb_ge; lia).
    replace (Z.min (blen pre + blen key) (blen content))
      with (blen (pre ++ key)) by (rewrite blen_app; lia).
    unfold content.
    replace (pre ++ key ++ pad ++ ds ++ comma :: rest)
      with ((pre ++ key) ++ (pad ++ ds) ++ comma :: rest)
      by (now rewrite <- !app_assoc).
    rewrite skipn_blen. change (b ",") with [comma].
    rewrite find_from_after; [rewrite blen_app; lia|].
    apply Forall_app. split.
    - eapply Forall_impl; [|exact Hpad]. intros c Hc. apply comma_apart. auto.
    - eapply Forall_impl; [|exact Hds]. intros c Hc. apply comma_apart. auto. }
  rewrite Hend.
  replace (blen pre + blen key + blen (pad ++ ds) =? -1) with false
    by (symmetry; apply Z.eqb_neq; pose proof (blen_nonneg (pad ++ ds)); lia).
  assert (Hslice : bytes_slice content (blen pre + blen key)
                     (blen pre + blen key + blen (pad ++ ds)) = pad ++ ds).
  { pose proof (blen_nonneg (pad ++ ds)) as Hpd.
    assert (Hpd' : blen (pad ++ ds) = blen pad + blen ds) by apply blen_app.
    unfold bytes_slice, slice_index.
    replace (blen pre + blen key <? 0) with false
      by (symmetry; apply Z.ltb_ge; lia).
    replace (blen pre + blen key + blen (pad ++ ds) <? 0) with false
      by (symmetry; apply Z.ltb_ge; lia).
    replace (Z.min (blen pre + blen key) (blen content))
      with (blen (pre ++ key)) by (rewrite blen_app; lia).
    replace (Z.min (blen pre + blen key + blen (pad ++ ds)) (blen content)
             - blen (pre ++ key))
      with (blen (pad ++ ds)) by (rewrite !blen_app; lia).
    unfold content.
    replace (pre ++ key ++ pad ++ ds ++ comma :: rest)
      with ((pre ++ key) ++ (pad ++ ds) ++ comma :: rest)
      by (now rewrite <- !app_assoc).
    rewrite skipn_blen. apply firstn_blen. }
  rewrite Hslice, strip_digits, int_of_digits by (assumption || exact Hmax).
  reflexivity.
Qed.


Lemma scan_reads_witness :
  bytes_find (b prompt_key)
    (b "{" ++ b prompt_key ++ b " " ++ b "42"
       ++ comma :: b (quoted_key "eval_count" ++ "7}")) 0 = blen (b "{")
  /\ Forall (fun c => is_bspace c = true) (b " ")
  /\ Forall (fun c => is_digit c = true) (b "42")
  /\ b "42" <> []
  /\ blen (b "42") <= 4300
  /\ scan_count (b prompt_key)
       (b "{" ++ b prompt_key ++ b " " ++ b "42"
          ++ comma :: b (quoted_key "eval_count" ++ "7}"))
       (VNum (PInt 1)) tt
     = (Ok (VNum (PInt 43)), tt).
Proof.
  assert (H1 : bytes_find (b prompt_key)
                 (b "{" ++ b prompt_key ++ b " " ++ b "42"
                    ++ comma :: b (quoted_key "eval_count" ++ "7}")) 0
               = blen (b "{")) by (vm_compute; reflexivity).
  assert (H2 : Forall (fun c => is_bspace c = true) (b " "))
    by (repeat constructor).
  assert (H3 : Forall (fun c => is_digit c = true) (b "42"))
    by (repeat constructor).
  assert (H4 : b "42" <> []) by discriminate.
  assert (H5 : blen (b "42") <= 4300) by (vm_compute; discriminate).
  split; [exact H1|]. split; [exact H2|]. split; [exact H3|].
  split; [exact H4|]. split; [exact H5|].
  exact (scan_reads_the_count (St := unit) (b prompt_key) (b "{") (b " ")
           (b "42") (b (quoted_key "eval_count" ++ "7}")) (VNum (PInt 1)) tt
           H1 H2 H3 H4 H5).
Defined.

End ScanFacts.

(* ================================================================== *)
(** * More requests run against the reference environment *)
(* ================================================================== *)

Module RequestScenarios.
Import Balancer PyText Proxy BalancerFacts ProxyFacts Scenarios RequestFacts.

Local Open Scope string_scope.
Local Open Scope list_scope.

(** The upstream of a unary request times out. *)
Definition unary_timeout : environment :=
  Reference.environment seconds (UnaryRaises HttpxTimeoutException)
    upstream_down.

Lemma upstream_timeout_witness :
  next_instance "m" world0 = (Ok ("A", "10.0.0.1:8000"), selected)
  /\ metrics_of (lb selected) "m" "10.0.0.1:8000" = None
  /\ truthy (stream_flag unary_timeout unary_request) = false
  /\ unary unary_timeout = UnaryRaises HttpxTimeoutException
  /\ exists w',
       serve unary_timeout "m" "v1/chat" unary_request world0
       = (Failed (HTTPException 502
                    (ModelServiceError HttpxTimeoutException)), w')
       /\ lb w' = lb selected
       /\ commits w'
          = commits selected
              ++ [mkCommit "m" "10.0.0.1:8000"
                    (elapsed (clock unary_timeout (ticks selected))
                       (clock unary_timeout (S (ticks selected))))
                    true zero].
Proof.
  assert (H1 : next_instance "m" world0
               = (Ok ("A", "10.0.0.1:8000"), selected))
    by (vm_compute; reflexivity).
  assert (H2 : metrics_of (lb selected) "m" "10.0.0.1:8000" = None)
    by (vm_compute; reflexivity).
  assert (H3 : truthy (stream_flag unary_timeout unary_request) = false)
    by (vm_compute; reflexivity).
  assert (H4 : unary unary_timeout = UnaryRaises HttpxTimeoutException)
    by reflexivity.
  split; [exact H1|]. split; [exact H2|]. split; [exact H3|].
  split; [exact H4|].
  exact (upstream_timeout_is_answered_502 unary_timeout "m" "v1/chat"
           unary_request world0 selected "A" "10.0.0.1:8000" H1 H2 H3 H4).
Defined.

Lemma failed_request_witness :
  next_instance "m" world0 = (Ok ("A", "10.0.0.1:8000"), selected)
  /\ metrics_of (lb selected) "m" "10.0.0.1:8000" = None
  /\ fst (serve stream_404 "m" "v1/chat" stream_request world0)
     = Failed (HTTPException 500
                 (InternalServerError
                    (HTTPException 404 (StreamStatusError 404 "not found"))))
  /\ lb (snd (serve stream_404 "m" "v1/chat" stream_request world0))
     = lb selected
  /\ option_map active_requests
       (metrics_of
          (lb (snd (serve stream_404 "m" "v1/chat" stream_request world0)))
          "m" "A") = Some 1.
Proof.
  assert (H1 : next_instance "m" world0
               = (Ok ("A", "10.0.0.1:8000"), selected))
    by (vm_compute; reflexivity).
  assert (H2 : metrics_of (lb selected) "m" "10.0.0.1:8000" = None)
    by (vm_compute; reflexivity).
  assert (H3 : fst (serve stream_404 "m" "v1/chat" stream_request world0)
               = Failed (HTTPException 500
                           (InternalServerError
                              (HTTPException 404
                                 (StreamStatusError 404 "not found")))))
    by (vm_compute; reflexivity).
  split; [exact H1|]. split; [exact H2|]. split; [exact H3|].
  destruct (failed_request_leaves_the_selection stream_404 "m" "v1/chat"
              stream_request world0 selected "A" "10.0.0.1:8000" _ H1 H2 H3)
    as [Hlb _].
  split; [exact Hlb|]. rewrite Hlb. vm_compute. reflexivity.
Defined.

(** The accounting of [counted_stream], and the world in which its
    generator starts. *)
Definition counted_tokens : tok_state :=
  Eval vm_compute in
    snd (account_lines (streams counted_stream)
           (lines_from [] (List.concat counted_text)) (tokens gen_start)).

Definition started : world :=
  {| lb := lb selected; ticks := S (ticks selected);
     commits := commits selected; downstream := downstream selected |}.

Lemma orderly_stream_witness :
  next_instance "m" world0 = (Ok ("A", "10.0.0.1:8000"), selected)
  /\ truthy (stream_flag (streams counted_stream) stream_request) = true
  /\ streaming (streams counted_stream)
     = StreamResponse 200 "" None counted_stream None
  /\ Forall2 (fun chunk chunk_str => utf8_decode chunk = Some chunk_str)
       counted_stream counted_text
  /\ account_lines (streams counted_stream)
       (lines_from [] (List.concat counted_text)) (tokens gen_start)
     = (Ok tt, counted_tokens)
  /\ stream_hundredths (streams counted_stream) started = Ok 100000
  /\ stream_tokens counted_tokens (List.concat counted_stream)
     = VNum (PInt 99)
  /\ exists media_type sent aborted w' rt,
       serve (streams counted_stream) "m" "v1/chat" stream_request world0
       = (Streamed 200 media_type sent aborted, w')
       /\ List.concat sent = List.concat counted_stream
       /\ commits w'
          = commits selected
              ++ [mkCommit "m" "A" rt false
                    (stream_tokens counted_tokens
                       (List.concat counted_stream))]
       /\ (forall e, aborted = Some e -> plain_error e).
Proof.
  assert (H1 : next_instance "m" world0
               = (Ok ("A", "10.0.0.1:8000"), selected))
    by (vm_compute; reflexivity).
  assert (H2 : truthy (stream_flag (streams counted_stream) stream_request)
               = true) by (vm_compute; reflexivity).
  assert (H3 : streaming (streams counted_stream)
               = StreamResponse 200 "" None counted_stream None)
    by reflexivity.
  assert (H4 : Forall2
                 (fun chunk chunk_str => utf8_decode chunk = Some chunk_str)
                 counted_stream counted_text) by (repeat constructor).
  assert (H5 : account_lines (streams counted_stream)
                 (lines_from [] (List.concat counted_text)) (tokens gen_start)
               = (Ok tt, counted_tokens)) by (vm_compute; reflexivity).
  assert (H6 : stream_hundredths (streams counted_stream) started
               = Ok 100000) by (vm_compute; reflexivity).
  assert (H7 : stream_tokens counted_tokens (List.concat counted_stream)
               = VNum (PInt 99)) by (vm_compute; reflexivity).
  split; [exact H1|]. split; [exact H2|]. split; [exact H3|].
  split; [exact H4|]. split; [exact H5|]. split; [exact H6|].
  split; [exact H7|].
  exact (orderly_stream_is_passed_through (streams counted_stream) "m"
           "v1/chat" stream_request world0 selected "A" "10.0.0.1:8000" ""
           None counted_stream counted_text counted_tokens 100000
           H1 H2 H3 H4 H5 H6).
Defined.

(** The upstream resets the connection after the last chunk. *)
Definition stream_reset : environment :=
  Reference.environment seconds upstream_unused
    (StreamResponse 200 "" None counted_stream
       (Some (OtherException "ConnectionResetError"))).

Lemma upstream_failure_witness :
  next_instance "m" world0 = (Ok ("A", "10.0.0.1:8000"), selected)
  /\ truthy (stream_flag stream_reset stream_request) = true
  /\ streaming stream_reset
     = StreamResponse 200 "" None counted_stream
         (Some (OtherException "ConnectionResetError"))
  /\ Forall2 (fun chunk chunk_str => utf8_decode chunk = Some chunk_str)
       counted_stream counted_text
  /\ account_lines stream_reset
       (lines_from [] (List.concat counted_text)) (tokens gen_start)
     = (Ok tt, counted_tokens)
  /\ stream_hundredths stream_reset started = Ok 100000
  /\ exists media_type sent e w' rt,
       serve stream_reset "m" "v1/chat" stream_request world0
       = (Streamed 200 media_type sent (Some e), w')
       /\ List.concat sent = List.concat counted_stream
       /\ commits w'
          = commits selected
              ++ [mkCommit "m" "A" rt true
                    (stream_tokens counted_tokens
                       (List.concat counted_stream))]
       /\ (e = OtherException "ConnectionResetError" \/ plain_error e).
Proof.
  assert (H1 : next_instance "m" world0
               = (Ok ("A", "10.0.0.1:8000"), selected))
    by (vm_compute; reflexivity).
  assert (H2 : truthy (stream_flag stream_reset stream_request) = true)
    by (vm_compute; reflexivity).
  assert (H3 : streaming stream_reset
               = StreamResponse 200 "" None counted_stream
                   (Some (OtherException "ConnectionResetError")))
    by reflexivity.
  assert (H4 : Forall2
                 (fun chunk chunk_str => utf8_decode chunk = Some chunk_str)
                 counted_stream counted_text) by (repeat constructor).
  assert (H5 : account_lines stream_reset
                 (lines_from [] (List.concat counted_text)) (tokens gen_start)
               = (Ok tt, counted_tokens)) by (vm_compute; reflexivity).
  assert (H6 : stream_hundredths stream_reset started = Ok 100000)
    by (vm_compute; reflexivity).
  split; [exact H1|]. split; [exact H2|]. split; [exact H3|].
  split; [exact H4|]. split; [exact H5|]. split; [exact H6|].
  exact (upstream_failure_is_committed_as_error stream_reset "m" "v1/chat"
           stream_request world0 selected "A" "10.0.0.1:8000" "" None
           counted_stream (OtherException "ConnectionResetError")
           counted_text counted_tokens 100000 H1 H2 H3 H4 H5 H6).
Defined.

(** [counted_stream] received as one chunk. *)
Definition counted_whole : list bytes := [List.concat counted_stream].

Definition counted_whole_text : list pystr := [List.concat counted_text].

Lemma chunking_witness :
  Forall2 (fun chunk chunk_str => utf8_decode chunk = Some chunk_str)
    counted_stream counted_text
  /\ Forall2 (fun chunk chunk_str => utf8_decode chunk = Some chunk_str)
       counted_whole counted_whole_text
  /\ List.concat counted_stream = List.concat counted_whole
  /\ account_lines (streams counted_stream)
       (lines_from [] (List.concat counted_text)) (tokens gen_start)
     = (Ok tt, counted_tokens)
  /\ exists g1 g2,
       tee (streams counted_stream) counted_stream None gen_start
       = (Ok tt, g1)
       /\ tee (streams counted_stream) counted_whole None gen_start
          = (Ok tt, g2)
       /\ tokens g1 = tokens g2
       /\ committed_tokens g1 = committed_tokens g2
       /\ List.concat (yielded g1) = List.concat (yielded g2).
Proof.
  assert (H1 : Forall2
                 (fun chunk chunk_str => utf8_decode chunk = Some chunk_str)
                 counted_stream counted_text) by (repeat constructor).
  assert (H2 : Forall2
                 (fun chunk chunk_str => utf8_decode chunk = Some chunk_str)
                 counted_whole counted_whole_text).
  { constructor; [vm_compute; reflexivity|constructor]. }
  assert (H3 : List.concat counted_stream = List.concat counted_whole)
    by (vm_compute; reflexivity).
  assert (H4 : account_lines (streams counted_stream)
                 (lines_from [] (List.concat counted_text)) (tokens gen_start)
               = (Ok tt, counted_tokens)) by (vm_compute; reflexivity).
  split; [exact H1|]. split; [exact H2|]. split; [exact H3|].
  split; [exact H4|].
  exact (token_count_ignores_chunking (streams counted_stream) counted_stream
           counted_whole counted_text counted_whole_text counted_tokens
           H1 H2 H3 H4).
Defined.

(** A chunk that ends inside a two-byte character. *)
Definition cut_character : bytes := [Byte.x61; Byte.xc3].

Lemma undecodable_chunk_witness :
  cut_character <> []
  /\ utf8_decode cut_character = None
  /\ on_chunk (streams []) cut_character gen_start
     = (Ok tt,
        {| tokens := tokens gen_start;
           error_occurred := error_occurred gen_start;
           decoded_buffer := decoded_buffer gen_start;
           collected_content :=
             (collected_content gen_start ++ [cut_character])
               ++ [cut_character];
           yielded := yielded gen_start ++ [cut_character] |}).
Proof.
  assert (H1 : cut_character <> []) by discriminate.
  assert (H2 : utf8_decode cut_character = None) by (vm_compute; reflexivity).
  split; [exact H1|]. split; [exact H2|].
  exact (undecodable_chunk_is_passed_through (streams []) cut_character
           gen_start H1 H2).
Defined.

End RequestScenarios.
